(** * The variable-area resistor experiment (var-area-res)

    A shallow embedding of the simulation core of [src/utils.js] and
    [src/gpt-ver/main.js]: the Mulberry32 generator, [AreaProfile],
    [MeasurementLog] and the two [VarAreaExperiment] sketches, with the
    handlers of their buttons and, of their drawing functions, the
    coordinates they compute and the measurements they take.

    JavaScript numbers are IEEE-754 doubles.  The embedding keeps the code
    independent of the number model: every function is written once over the
    interface [Number], operation by operation as the source has it, and is
    then read at an instance.  What is proved for every instance holds of the
    doubles in particular; what needs the laws of arithmetic is proved at the
    instance [Exact.number] of exact real arithmetic.  Integer quantities the
    code uses as counters and array lengths ([samples], [count], the loop
    variables, the 32-bit words of the generator) are integers of [Z]. *)

From Stdlib Require Import ZArith QArith Qround Qreals Reals Lra Lia List Bool.
Import ListNotations.

Set Implicit Arguments.

Local Open Scope Z_scope.

(** ** 32-bit integer views of a number (ECMAScript ToInt32, ToUint32) *)

Module Int32.

Definition two32 : Z := 4294967296.
Definition two31 : Z := 2147483648.

(** [x >>> 0]. *)
Definition to_uint32 (z : Z) : Z := z mod two32.

(** [x | 0]. *)
Definition to_int32 (z : Z) : Z :=
  let u := z mod two32 in if u <? two31 then u else u - two32.

(** [Math.imul(a, b)]. *)
Definition imul (a b : Z) : Z := to_int32 (to_int32 a * to_int32 b).

(** [a ^ b]. *)
Definition xor (a b : Z) : Z := Z.lxor (to_int32 a) (to_int32 b).

(** [a | b]. *)
Definition or (a b : Z) : Z := Z.lor (to_int32 a) (to_int32 b).

(** [a >>> n] for a shift count [0 <= n < 32]. *)
Definition ushr (a n : Z) : Z := Z.shiftr (to_uint32 a) n.

End Int32.

(** ** Integer-valued doubles

    [this.state += 0x6D2B79F5] adds doubles: the sum is exact below 2^53 and
    is rounded to the nearest double, ties to even, above. *)

Module Double.

Definition two53 : Z := 9007199254740992.

(** The double nearest to the non-negative integer [z]. *)
Definition round_int (z : Z) : Z :=
  if z <? two53 then z
  else
    let e := Z.log2 z - 52 in
    let q := Z.shiftr z e in
    let r := z - Z.shiftl q e in
    let half := Z.shiftl 1 (e - 1) in
    let q' := if r <? half then q
              else if half <? r then q + 1
              else if Z.even q then q else q + 1 in
    Z.shiftl q' e.

End Double.

(** ** The number interface

    The operations of JavaScript numbers the code uses.  [nan] is NaN, which
    is also what every arithmetic operation makes of [undefined]; [of_Z] is an
    integer literal or integer-valued expression, [lit] a decimal literal;
    [to_index] reads a number as the array index it denotes. *)

Class Number : Type := {
  num : Type;
  nan : num;
  of_Z : Z -> num;
  lit : Q -> num;
  num_add : num -> num -> num;
  num_sub : num -> num -> num;
  num_mul : num -> num -> num;
  num_div : num -> num -> num;
  num_neg : num -> num;
  Math_min : num -> num -> num;
  Math_max : num -> num -> num;
  Math_floor : num -> num;
  Math_sin : num -> num;
  Math_exp : num -> num;
  Math_sqrt : num -> num;
  Math_pow : num -> num -> num;
  Math_PI : num;
  to_index : num -> option Z
}.

Arguments lit {Number} q%_Q.
Arguments of_Z {Number} z%_Z.

Declare Scope num_scope.
Delimit Scope num_scope with num.
Notation "a + b" := (num_add a b) : num_scope.
Notation "a - b" := (num_sub a b) : num_scope.
Notation "a * b" := (num_mul a b) : num_scope.
Notation "a / b" := (num_div a b) : num_scope.
Notation "- a" := (num_neg a) : num_scope.

(** [a ?? b]. *)
Definition nullish {A : Type} (o : option A) (d : A) : A :=
  match o with Some a => a | None => d end.

Notation "o ?? d" := (nullish o d) (at level 45, left associativity).

(** The values [i] takes in [for (let i = lo; i < hi; i++)]. *)
Definition range (lo hi : Z) : list Z :=
  map (fun k => lo + Z.of_nat k) (seq 0 (Z.to_nat (hi - lo))).

(** ** Arrays of numbers *)

Module JsArray.

Inductive Exn : Type := RangeError.

Inductive result (A : Type) : Type :=
| Ok (a : A)
| Throw (e : Exn).

Arguments Ok {A} a.
Arguments Throw {A} e.

Definition max_length : Z := 4294967295.

Section WithNumber.
Context {NUM : Number}.

(** [new Array(n).fill(v)]: a length that is negative or above 2^32 - 1
    throws a RangeError. *)
Definition new_filled (n : Z) (v : num) : result (list num) :=
  if (0 <=? n) && (n <=? max_length)
  then Ok (repeat v (Z.to_nat n))
  else Throw RangeError.

(** [a[i]] for an integer [i]: out of range it is [undefined]. *)
Definition get (a : list num) (i : Z) : num :=
  if i <? 0 then nan else nth (Z.to_nat i) a nan.

(** [a[n]] for a number [n]. *)
Definition get_num (a : list num) (n : num) : num :=
  match to_index n with
  | Some i => get a i
  | None => nan
  end.

(** [a[i] = v] for an integer [i]: past the end the array grows, the
    elements in between being holes. *)
Definition set (a : list num) (i : Z) (v : num) : list num :=
  if i <? 0 then a
  else
    let n := Z.to_nat i in
    if (n <? length a)%nat then firstn n a ++ v :: skipn (S n) a
    else a ++ repeat nan (n - length a) ++ [v].

End WithNumber.
End JsArray.

(** ** p5.js helpers the sketches call ([constrain], [lerp],
    [randomGaussian]), as the p5.js library defines them *)

Module P5.
Section WithNumber.
Context {NUM : Number}.

(** [constrain(n, low, high) = Math.max(Math.min(n, high), low)]. *)
Definition constrain (n low high : num) : num :=
  Math_max (Math_min n high) low.

(** [lerp(start, stop, amt) = amt * (stop - start) + start]. *)
Definition lerp (start stop amt : num) : num :=
  (amt * (stop - start) + start)%num.

(** [map(n, start1, stop1, start2, stop2)], without [withinBounds]:
    [(n - start1) / (stop1 - start1) * (stop2 - start2) + start2]. *)
Definition map (n start1 stop1 start2 stop2 : num) : num :=
  ((n - start1) / (stop1 - start1) * (stop2 - start2) + start2)%num.

(** The source of standard-normal draws behind [randomGaussian()]: the
    sequence it will return and how many of them were taken. *)
Record Gaussian : Type := mkGaussian {
  draws : nat -> num;
  taken : nat
}.

(** [randomGaussian()]. *)
Definition randomGaussian (g : Gaussian) : num * Gaussian :=
  (draws g (taken g), mkGaussian (draws g) (S (taken g))).

End WithNumber.
End P5.

(** ** Mulberry32 ([src/utils.js], class [Mulberry32]) *)

Module Mulberry32.

(** The generator object: its only field is [state]. *)
Record t : Type := mk { state : Z }.

(** [constructor(seed)]: [this.state = seed >>> 0]. *)
Definition new (seed : Z) : t := mk (Int32.to_uint32 seed).

(** The integer [(t ^ (t >>> 14)) >>> 0] that [next] divides by 2^32, from
    the value [s] of [this.state] after the increment. *)
Definition output (s : Z) : Z :=
  let t0 := s in
  let t1 := Int32.imul (Int32.xor t0 (Int32.ushr t0 15)) (Int32.or t0 1) in
  let t2 := Int32.xor t1 (t1 + Int32.imul (Int32.xor t1 (Int32.ushr t1 7))
                                          (Int32.or t1 61)) in
  Int32.to_uint32 (Int32.xor t2 (Int32.ushr t2 14)).

(** [next()] on integers: the numerator of the fraction it returns and the
    generator afterwards. *)
Definition next_int (g : t) : Z * t :=
  let s := Double.round_int (state g + 0x6D2B79F5) in
  (output s, mk s).

(** The generator after [n] calls of [next]. *)
Fixpoint advance (n : nat) (g : t) : t :=
  match n with
  | O => g
  | S n' => advance n' (snd (next_int g))
  end.

(** The numerators of the first [n] values [next] returns. *)
Fixpoint outputs (n : nat) (g : t) : list Z :=
  match n with
  | O => []
  | S n' => fst (next_int g) :: outputs n' (snd (next_int g))
  end.

Section WithNumber.
Context {NUM : Number}.

(** [next()]. *)
Definition next (g : t) : num * t :=
  let (u, g') := next_int g in
  ((of_Z u / of_Z 4294967296)%num, g').

End WithNumber.
End Mulberry32.

(** ** AreaProfile ([src/utils.js], class [AreaProfile]) *)

Module AreaProfile.
Import JsArray.
Section WithNumber.
Context {NUM : Number}.

(** The [opts] object of the constructor: an absent property is [None]. *)
Record opts : Type := mkOpts {
  opt_length : option num;
  opt_samples : option Z;
  opt_minArea : option num;
  opt_maxArea : option num;
  opt_seed : option Z
}.

Record t : Type := mk {
  length : num;
  samples : Z;
  minArea : num;
  maxArea : num;
  rng : Mulberry32.t;
  area : list num;
  dx : num;
  cumulative : list num;
  totalR : num
}.

Definition with_area (p : t) (a : list num) (g : Mulberry32.t) : t :=
  mk (length p) (samples p) (minArea p) (maxArea p) g a (dx p)
     (cumulative p) (totalR p).

Definition with_cumulative (p : t) (c : list num) (r : num) : t :=
  mk (length p) (samples p) (minArea p) (maxArea p) (rng p) (area p) (dx p)
     c r.

(** How often the body of [for (let k = 0; k < lobes; k++)] runs. *)
Definition iterations (lobes : num) : nat :=
  match to_index lobes with
  | Some z => Z.to_nat z
  | None => O
  end.

(** The inner loop of [generate]: [k] more lobes are added to [val]. *)
Fixpoint add_lobes (k : nat) (xNorm val : num) (g : Mulberry32.t)
  : num * Mulberry32.t :=
  match k with
  | O => (val, g)
  | S k' =>
      let (u1, g1) := Mulberry32.next g in
      let phase := (u1 * Math_PI * of_Z 2)%num in
      let (u2, g2) := Mulberry32.next g1 in
      let freq := (lit 0.7 + u2 * lit 1.3)%num in
      add_lobes k' xNorm
        (val + lit 0.6 * Math_sin (freq * Math_PI * xNorm + phase))%num g2
  end.

(** The body of the outer loop of [generate], up to the value stored in
    [this.area[i]]. *)
Definition sample_value (p : t) (lobes : num) (i : Z) (g : Mulberry32.t)
  : num * Mulberry32.t :=
  let xNorm := (of_Z i / of_Z (samples p - 1))%num in
  let (val, g1) := add_lobes (iterations lobes) xNorm (lit 1.4) g in
  let (u, g2) := Mulberry32.next g1 in
  let val := (val + lit 0.3 * (u - lit 0.5))%num in
  (Math_min (maxArea p) (Math_max (minArea p) val), g2).

Definition generate_step (p : t) (lobes : num)
    (st : list num * Mulberry32.t) (i : Z) : list num * Mulberry32.t :=
  let (val, g) := sample_value p lobes i (snd st) in
  (set (fst st) i val, g).

(** [generate()]. *)
Definition generate (p : t) : t :=
  let (u, g) := Mulberry32.next (rng p) in
  let lobes := (of_Z 2 + Math_floor (u * of_Z 3))%num in
  let (a, g') :=
    fold_left (generate_step p lobes) (range 0 (samples p)) (area p, g) in
  with_area p a g'.

(** [constructor(opts)].  [random_seed] is what
    [Math.floor(Math.random() * 1e9)] evaluates to; it is read only when
    [opts.seed] is absent. *)
Definition new (o : opts) (random_seed : Z) : result t :=
  let length := opt_length o ?? of_Z 1 in
  let samples := opt_samples o ?? 512 in
  let minArea := opt_minArea o ?? lit 0.6 in
  let maxArea := opt_maxArea o ?? lit 3.2 in
  let rng := Mulberry32.new (opt_seed o ?? random_seed) in
  match new_filled samples (of_Z 1) with
  | Throw e => Throw e
  | Ok area =>
      let dx := (length / of_Z (samples - 1))%num in
      match new_filled samples (of_Z 0) with
      | Throw e => Throw e
      | Ok cumulative =>
          Ok (generate (mk length samples minArea maxArea rng area dx
                           cumulative (of_Z 1)))
      end
  end.

(** The body of the loop of [precompute]. *)
Definition precompute_step (p : t) (rho : num) (c : list num) (i : Z)
  : list num :=
  let scale := lit 1e-6 in
  let conductance := (rho / (get (area p) i * scale))%num in
  set c i (get c (i - 1) + conductance * dx p)%num.

(** [precompute(rho = 1.7e-8)]. *)
Definition precompute (p : t) (rho : option num) : t :=
  let rho := rho ?? lit 1.7e-8 in
  let c0 := set (cumulative p) 0 (of_Z 0) in
  let c := fold_left (precompute_step p rho) (range 1 (samples p)) c0 in
  with_cumulative p c (get c (samples p - 1)).

(** [areaAt(x)]. *)
Definition areaAt (p : t) (x : num) : num :=
  let t := P5.constrain (x / length p)%num (of_Z 0) (of_Z 1) in
  let idx := (t * of_Z (samples p - 1))%num in
  let i0 := Math_floor idx in
  let i1 := Math_min (of_Z (samples p - 1)) (i0 + of_Z 1)%num in
  let f := (idx - i0)%num in
  P5.lerp (get_num (area p) i0) (get_num (area p) i1) f.

(** [resistanceUpTo(x)]. *)
Definition resistanceUpTo (p : t) (x : num) : num :=
  let t := P5.constrain (x / length p)%num (of_Z 0) (of_Z 1) in
  let idx := (t * of_Z (samples p - 1))%num in
  let i0 := Math_floor idx in
  let i1 := Math_min (of_Z (samples p - 1)) (i0 + of_Z 1)%num in
  let f := (idx - i0)%num in
  P5.lerp (get_num (cumulative p) i0) (get_num (cumulative p) i1) f.

End WithNumber.
End AreaProfile.

(** ** MeasurementLog ([src/utils.js], class [MeasurementLog]) *)

Module MeasurementLog.
Section WithNumber.
Context {NUM : Number}.

(** A logged object [{ x, v }]. *)
Record sample : Type := mkSample { x : num; v : num }.

Record t : Type := mk { data : list sample }.

(** [constructor()]. *)
Definition new : t := mk [].

(** [clear()]: [this.data.length = 0]. *)
Definition clear (l : t) : t := mk [].

(** [add(x, v)]: [this.data.push({ x, v })]. *)
Definition add (l : t) (x0 v0 : num) : t := mk (data l ++ [mkSample x0 v0]).

Section Callback.
(** The callback [fn] may have effects: they are a change of a state [S]
    that [autoScan] passes from one call to the next. *)
Variable S : Type.
Variable fn : num -> S -> num * S.

(** The body of the loop of [autoScan]. *)
Definition scan_step (step : num) (st : t * S) (i : Z) : t * S :=
  let x0 := (of_Z i * step)%num in
  let (v0, s') := fn x0 (snd st) in
  (add (fst st) x0 v0, s').

(** [autoScan(length, fn, count = 24)]. *)
Definition autoScan (l : t) (length : num) (count : option Z) (s : S)
  : t * S :=
  let count := count ?? 24 in
  let l0 := clear l in
  let step := (length / of_Z (count - 1))%num in
  fold_left (scan_step step) (range 0 count) (l0, s).

End Callback.
End WithNumber.
End MeasurementLog.

(** ** The simple-noise sketch ([src/gpt-ver/main.js], class
    [VarAreaExperiment]) *)

Module VarAreaExperiment.
Import JsArray.
Section WithNumber.
Context {NUM : Number}.

Record t : Type := mk {
  length : num;
  rho : num;
  areaProfile : AreaProfile.t;
  currentA : num;
  noiseStd : num;
  probeX : num;
  log : MeasurementLog.t;
  showTruth : bool;
  autoShowIdeal : bool
}.

Definition with_log (e : t) (l : MeasurementLog.t) : t :=
  mk (length e) (rho e) (areaProfile e) (currentA e) (noiseStd e) (probeX e)
     l (showTruth e) (autoShowIdeal e).

(** [new AreaProfile({ length })] followed by [precompute(rho)], as the
    constructor and [regenerate] both do. *)
Definition fresh_profile (length rho : num) (random_seed : Z)
  : result AreaProfile.t :=
  match AreaProfile.new
          (AreaProfile.mkOpts (Some length) None None None None)
          random_seed with
  | Throw e => Throw e
  | Ok p => Ok (AreaProfile.precompute p (Some rho))
  end.

(** [constructor()], without the layout and the controls. *)
Definition new (random_seed : Z) : result t :=
  let length := of_Z 1 in
  let rho := lit 1.7e-8 in
  match fresh_profile length rho random_seed with
  | Throw e => Throw e
  | Ok p =>
      Ok (mk length rho p (lit 0.25) (lit 0.003) (lit 0.35)
             MeasurementLog.new false false)
  end.

Definition with_areaProfile (e : t) (p : AreaProfile.t) : t :=
  mk (length e) (rho e) p (currentA e) (noiseStd e) (probeX e) (log e)
     (showTruth e) (autoShowIdeal e).

(** [regenerate()]. *)
Definition regenerate (e : t) (random_seed : Z) : result t :=
  match fresh_profile (length e) (rho e) random_seed with
  | Throw x => Throw x
  | Ok p =>
      let e1 := with_areaProfile e p in
      Ok (with_log e1 (MeasurementLog.clear (log e1)))
  end.

(** [measureVoltage(x)]: the state it runs in is the experiment, which it
    only reads, and the source of Gaussian draws. *)
Definition measureVoltage (e : t) (x0 : num) (g : P5.Gaussian)
  : num * P5.Gaussian :=
  let noiseless :=
    (currentA e * AreaProfile.resistanceUpTo (areaProfile e) x0)%num in
  let (z, g') := P5.randomGaussian g in
  let noise := (noiseStd e * z)%num in
  ((noiseless + noise)%num, g').

(** [addReading()]. *)
Definition addReading (e : t) (g : P5.Gaussian) : t * P5.Gaussian :=
  let (v0, g') := measureVoltage e (probeX e) g in
  (with_log e (MeasurementLog.add (log e) (probeX e) v0), g').

(** [autoScan()]. *)
Definition autoScan (e : t) (g : P5.Gaussian) : t * P5.Gaussian :=
  let (l, g') :=
    MeasurementLog.autoScan (measureVoltage e) (log e) (length e) (Some 24) g
  in (with_log e l, g').

(** What a frame shows of the bar: the vertices of the line that traces the
    area profile, whether the mask that hides it is drawn over it, and the
    abscissa of the probe marker; coordinates are relative to the bar's
    rectangle, of width [w] and height [h]. *)
Record bar : Type := mkBar {
  profile_line : list (num * num);
  masked : bool;
  probe_marker : num
}.

(** The vertex [drawBar()] adds in the pass [i] of its loop over
    [steps = 256]. *)
Definition bar_vertex (e : t) (w h : num) (i : Z) : num * num :=
  let steps := 256 in
  let t := (of_Z i / of_Z (steps - 1))%num in
  let ax := (t * w)%num in
  let aVal := AreaProfile.areaAt (areaProfile e) (t * length e)%num in
  let norm :=
    P5.map aVal (AreaProfile.minArea (areaProfile e))
      (AreaProfile.maxArea (areaProfile e)) (lit 0.05) (of_Z 1) in
  let ay := (h * (of_Z 1 - norm * lit 0.75))%num in
  (ax, ay).

(** [drawBar()], without the base and the terminals. *)
Definition drawBar (e : t) (w h : num) : bar :=
  mkBar (List.map (bar_vertex e w h) (range 0 256))
        (negb (showTruth e))
        (P5.map (probeX e) (of_Z 0) (length e) (of_Z 0) w).

(** What a frame shows of the graph: the vertices of the ideal curve, the
    points of the logged samples, and the crosshair with the voltage [cv]
    it marks; coordinates are relative to the graph's rectangle, of width
    [w] and height [h]. *)
Record graph : Type := mkGraph {
  ideal : list (num * num);
  points : list (num * num);
  cv : num;
  crosshair : num * num
}.

(** [vmax] of [drawGraph()]; p5's [max(a, b)] is [Math.max(a, b)]. *)
Definition vmax (e : t) : num :=
  Math_max (currentA e * AreaProfile.totalR (areaProfile e) * lit 1.05)%num
    (lit 0.05).

(** The vertex [drawGraph()] adds to the ideal curve in the pass [i] of its
    loop over [samples = 220]. *)
Definition ideal_vertex (e : t) (w h : num) (i : Z) : num * num :=
  let samples := 220 in
  let t := (of_Z i / of_Z (samples - 1))%num in
  let xPos := (t * length e)%num in
  let v0 := (currentA e * AreaProfile.resistanceUpTo (areaProfile e) xPos)%num in
  let gx := (t * w)%num in
  let gy := P5.map v0 (of_Z 0) (vmax e) h (of_Z 0) in
  (gx, gy).

(** The point [drawGraph()] draws for a logged sample. *)
Definition sample_point (e : t) (w h : num) (s : MeasurementLog.sample)
  : num * num :=
  (P5.map (MeasurementLog.x s) (of_Z 0) (length e) (of_Z 0) w,
   P5.map (MeasurementLog.v s) (of_Z 0) (vmax e) h (of_Z 0)).

(** [drawGraph()], without the axes and their labels: the ideal curve when
    one of the toggles is on, the logged points, and the crosshair, for
    which the voltmeter is read once. *)
Definition drawGraph (e : t) (w h : num) (g : P5.Gaussian)
  : graph * P5.Gaussian :=
  let curve :=
    if autoShowIdeal e || showTruth e
    then List.map (ideal_vertex e w h) (range 0 220)
    else [] in
  let pts := List.map (sample_point e w h) (MeasurementLog.data (log e)) in
  let (cv0, g') := measureVoltage e (probeX e) g in
  let cx := P5.map (probeX e) (of_Z 0) (length e) (of_Z 0) w in
  let cy := P5.map cv0 (of_Z 0) (vmax e) h (of_Z 0) in
  (mkGraph curve pts cv0 (cx, cy), g').

(** [drawMeter()]: the reading the voltmeter box shows. *)
Definition drawMeter (e : t) (g : P5.Gaussian) : num * P5.Gaussian :=
  measureVoltage e (probeX e) g.

(** What [value()] returns for each of the three sliders; [None] when the
    slider does not exist. *)
Record sliders : Type := mkSliders {
  iSlider : option num;
  nSlider : option num;
  xSlider : option num
}.

(** The first three lines of [draw()]:
    [this.currentA = this.iSlider?.value() ?? this.currentA], and so on. *)
Definition read_sliders (e : t) (c : sliders) : t :=
  mk (length e) (rho e) (areaProfile e) (iSlider c ?? currentA e)
     (nSlider c ?? noiseStd e) (xSlider c ?? probeX e) (log e)
     (showTruth e) (autoShowIdeal e).

(** [draw()]: the sliders are read, then the bar, the graph, the meter and
    the legend are drawn; of the frame the graph and the reading of the
    meter are kept. *)
Definition draw (e : t) (c : sliders) (w h : num) (g : P5.Gaussian)
  : t * graph * num * P5.Gaussian :=
  let e1 := read_sliders e c in
  let (gr, g1) := drawGraph e1 w h g in
  let (reading, g2) := drawMeter e1 g1 in
  (e1, gr, reading, g2).

End WithNumber.
End VarAreaExperiment.

(** ** The Johnson-noise sketch ([src/utils.js], class [VarAreaExperiment]
    of the sketch whose bar tapers exponentially) *)

Module TaperExperiment.
Import JsArray.
Section WithNumber.
Context {NUM : Number}.

Record t : Type := mk {
  L : num;
  ell : num;
  r0 : num;
  rho : num;
  totalR : num;
  samples : Z;
  dx : num;
  rng : Mulberry32.t;
  currentA : num;
  noiseStd : num;
  probeX : num;
  k_b : num;
  tempK : num;
  noiseBW : num;
  showTruth : bool;
  cumulative : list num;
  readings : list (num * num)
}.

Definition with_cumulative (e : t) (c : list num) : t :=
  mk (L e) (ell e) (r0 e) (rho e) (totalR e) (samples e) (dx e) (rng e)
     (currentA e) (noiseStd e) (probeX e) (k_b e) (tempK e) (noiseBW e)
     (showTruth e) c (readings e).

Definition with_readings (e : t) (r : list (num * num)) : t :=
  mk (L e) (ell e) (r0 e) (rho e) (totalR e) (samples e) (dx e) (rng e)
     (currentA e) (noiseStd e) (probeX e) (k_b e) (tempK e) (noiseBW e)
     (showTruth e) (cumulative e) r.

(** The slider callbacks [this.probeX = this.xSlider.value()] and
    [this.currentA = this.iSlider.value()]. *)
Definition with_probeX (e : t) (x0 : num) : t :=
  mk (L e) (ell e) (r0 e) (rho e) (totalR e) (samples e) (dx e) (rng e)
     (currentA e) (noiseStd e) x0 (k_b e) (tempK e) (noiseBW e)
     (showTruth e) (cumulative e) (readings e).

Definition with_currentA (e : t) (i0 : num) : t :=
  mk (L e) (ell e) (r0 e) (rho e) (totalR e) (samples e) (dx e) (rng e)
     i0 (noiseStd e) (probeX e) (k_b e) (tempK e) (noiseBW e)
     (showTruth e) (cumulative e) (readings e).

(** [this.radiusAt = x => this.r0 * Math.exp(-x / this.ell)]. *)
Definition radiusAt (e : t) (x0 : num) : num :=
  (r0 e * Math_exp (- x0 / ell e))%num.

(** [this.areaAt = x => Math.PI * Math.pow(this.radiusAt(x), 2)]. *)
Definition areaAt (e : t) (x0 : num) : num :=
  (Math_PI * Math_pow (radiusAt e x0) (of_Z 2))%num.

(** The body of the loop of the constructor that fills [cumulative]. *)
Definition integrate_step (e : t) (c : list num) (i : Z) : list num :=
  let x0 := (of_Z i * dx e)%num in
  let dR := (rho e * dx e / areaAt e x0)%num in
  set c i (get c (i - 1) + dR)%num.

(** [constructor()], without the layout and the controls.  [random_seed] is
    what [Math.floor(Math.random() * 1e9)] evaluates to. *)
Definition new (random_seed : Z) : result t :=
  let L := lit 0.01 in
  let samples := 512 in
  let dx := (L / of_Z (samples - 1))%num in
  match new_filled samples (of_Z 0) with
  | Throw e => Throw e
  | Ok c0 =>
      let e0 :=
        mk L (lit 0.008) (lit 0.0004) (lit 1e-4) (of_Z 1) samples dx
           (Mulberry32.new random_seed) (lit 0.25) (lit 0.5) (lit 0.35)
           (lit 1.380649e-23) (of_Z 300) (of_Z 9000000000) true c0 [] in
      Ok (with_cumulative e0
            (fold_left (integrate_step e0) (range 1 samples) c0))
  end.

(** The resistance the [Add Reading] handler reads off the table:
    [this.cumulative[idx]] at
    [idx = constrain(Math.floor(this.probeX / this.dx), 0,
                     this.cumulative.length - 1)]. *)
Definition res_curr (e : t) : num :=
  let idx :=
    P5.constrain (Math_floor (probeX e / dx e)%num) (of_Z 0)
      (of_Z (Z.of_nat (List.length (cumulative e)) - 1)) in
  get_num (cumulative e) idx.

(** The handler of the [Add Reading] button, up to the value [vMeas]. *)
Definition measure (e : t) (g : P5.Gaussian) : num * P5.Gaussian :=
  let r := res_curr e in
  let vIdeal := (currentA e * r)%num in
  let johnsonStd :=
    Math_sqrt (of_Z 4 * k_b e * tempK e * r * noiseBW e)%num in
  let ampStd := lit 0.003 in
  let totalStd :=
    Math_sqrt (johnsonStd * johnsonStd + ampStd * ampStd)%num in
  let (z, g') := P5.randomGaussian g in
  ((vIdeal + totalStd * z)%num, g').

(** The handler of the [Add Reading] button:
    [this.readings.push([this.probeX, vMeas])]. *)
Definition addReading (e : t) (g : P5.Gaussian) : t * P5.Gaussian :=
  let (vMeas, g') := measure e g in
  (with_readings e (readings e ++ [(probeX e, vMeas)]), g').

(** The vertex [drawResistor()] adds in the pass [i] of one of its two
    loops over [steps = 100]: the first loop traces the upper edge of the
    bar, the second the lower edge. *)
Definition outline_vertex (e : t) (w h : num) (upper : bool) (i : Z)
  : num * num :=
  let steps := 100 in
  let centerY := (h * lit 0.5)%num in
  let maxR := radiusAt e (of_Z 0) in
  let scale := (h * lit 0.45 / maxR)%num in
  let t := (of_Z i / of_Z (steps - 1))%num in
  let ax := (t * w)%num in
  let ay :=
    if upper then (centerY - scale * radiusAt e (t * L e))%num
    else (centerY + scale * radiusAt e (t * L e))%num in
  (ax, ay).

(** The outline [drawResistor()] draws of the bar when [showTruth] is on:
    the upper edge from left to right, then the lower edge from right to
    left. *)
Definition outline (e : t) (w h : num) : list (num * num) :=
  if showTruth e
  then List.map (outline_vertex e w h true) (range 0 100)
       ++ List.map (outline_vertex e w h false) (rev (range 0 100))
  else [].

(** The handler of the [Clear Data] button: [this.readings = []]. *)
Definition clearReadings (e : t) : t := with_readings e [].

(** The point [drawGraph()] draws for a reading [[px, v]], relative to the
    graph's rectangle of width [w] and height [h]; [vmax] is [8.0]. *)
Definition reading_point (e : t) (w h : num) (r : num * num) : num * num :=
  let vmax := of_Z 8 in
  (P5.map (fst r) (of_Z 0) (L e) (of_Z 0) w,
   P5.map (snd r) (of_Z 0) vmax h (of_Z 0)).

(** The scatter plot of [drawGraph()]: one point per reading. *)
Definition reading_points (e : t) (w h : num) : list (num * num) :=
  List.map (reading_point e w h) (readings e).

End WithNumber.
End TaperExperiment.

(** ** Exact real arithmetic

    The instance at which the arithmetic of the code is read without
    rounding.  A number is [Some r] for a real [r]; [None] stands for every
    value that is no real number (NaN and the infinities: a division by zero,
    the square root of a negative number, an operation on [undefined]).  A
    result [Some r] says that the computation stayed within the reals and
    that its exact value is [r].  [None] is absorbing: the instance does not
    follow JavaScript where it turns a value that is no real number back
    into one (as [Math.min(Infinity, 1)] does). *)

Module Exact.

Definition lift1 (f : R -> R) (a : option R) : option R :=
  match a with Some x => Some (f x) | None => None end.

Definition lift2 (f : R -> R -> R) (a b : option R) : option R :=
  match a, b with Some x, Some y => Some (f x y) | _, _ => None end.

Definition div (a b : option R) : option R :=
  match a, b with
  | Some x, Some y => if Req_dec_T y 0 then None else Some (x / y)%R
  | _, _ => None
  end.

Definition sqrt (a : option R) : option R :=
  match a with
  | Some x => if Rlt_dec x 0 then None else Some (R_sqrt.sqrt x)
  | None => None
  end.

(** The integer a real is, if it is one. *)
Definition integer (x : R) : option Z :=
  if Req_dec_T (IZR (Int_part x)) x then Some (Int_part x) else None.

Definition pow (a b : option R) : option R :=
  match a, b with
  | Some x, Some y =>
      match integer y with
      | Some z =>
          if (z <? 0)%Z && (if Req_dec_T x 0 then true else false)
          then None else Some (powerRZ x z)
      | None => if Rlt_dec 0 x then Some (Rpower x y) else None
      end
  | _, _ => None
  end.

Definition index (a : option R) : option Z :=
  match a with Some x => integer x | None => None end.

#[export] Instance number : Number := {|
  num := option R;
  nan := None;
  of_Z := fun z => Some (IZR z);
  lit := fun q => Some (Q2R q);
  num_add := lift2 Rplus;
  num_sub := lift2 Rminus;
  num_mul := lift2 Rmult;
  num_div := div;
  num_neg := lift1 Ropp;
  Math_min := lift2 Rmin;
  Math_max := lift2 Rmax;
  Math_floor := lift1 (fun x => IZR (Int_part x));
  Math_sin := lift1 Rtrigo_def.sin;
  Math_exp := lift1 Rtrigo_def.exp;
  Math_sqrt := sqrt;
  Math_pow := pow;
  Math_PI := Some Rtrigo1.PI;
  to_index := index
|}.

(** The number that is the real [r]. *)
Definition real (r : R) : @num number := Some r.

End Exact.

(** ** Exact rational arithmetic

    The instance at which the code runs: a number is [Some q] for a
    rational [q], kept in lowest terms, and [None] again stands for every
    value that is no such number.  The functions that leave the rationals
    ([Math.sin], [Math.exp], [Math.sqrt], [Math.pow], [Math.PI]) have no
    value here. *)

Module Rational.

Definition lift1 (f : Q -> Q) (a : option Q) : option Q :=
  match a with Some x => Some (Qred (f x)) | None => None end.

Definition lift2 (f : Q -> Q -> Q) (a b : option Q) : option Q :=
  match a, b with Some x, Some y => Some (Qred (f x y)) | _, _ => None end.

Definition div (a b : option Q) : option Q :=
  match a, b with
  | Some x, Some y => if Qeq_bool y 0 then None else Some (Qred (x / y))
  | _, _ => None
  end.

Definition min (x y : Q) : Q := if Qle_bool x y then x else y.
Definition max (x y : Q) : Q := if Qle_bool x y then y else x.

Definition index (a : option Q) : option Z :=
  match a with
  | Some x => if (Qden (Qred x) =? 1)%positive then Some (Qnum (Qred x))
              else None
  | None => None
  end.

Definition number : Number := {|
  num := option Q;
  nan := None;
  of_Z := fun z => Some (inject_Z z);
  lit := fun q => Some (Qred q);
  num_add := lift2 Qplus;
  num_sub := lift2 Qminus;
  num_mul := lift2 Qmult;
  num_div := div;
  num_neg := lift1 Qopp;
  Math_min := lift2 min;
  Math_max := lift2 max;
  Math_floor := lift1 (fun x => inject_Z (Qfloor x));
  Math_sin := fun _ => None;
  Math_exp := fun _ => None;
  Math_sqrt := fun _ => None;
  Math_pow := fun _ _ => None;
  Math_PI := None;
  to_index := index
|}.

(** The number that is the rational [q]. *)
Definition rational (q : Q) : @num number := Some (Qred q).

End Rational.

(** ** What the loops compute *)

Section Accumulation.
Context {NUM : Number}.

(** The values a loop [c[i] = c[i - 1] + term(i)] writes from index [i] on,
    [k] of them, when [c[i - 1]] is [acc]. *)
Fixpoint running_sums (term : Z -> num) (acc : num) (i : Z) (k : nat)
  : list num :=
  match k with
  | O => []
  | S k' =>
      let v := (acc + term i)%num in
      v :: running_sums term v (i + 1) k'
  end.

End Accumulation.


(** ** The cumulative table of [precompute] in closed form *)

Section CumulativeTable.
Context {NUM : Number}.
Import JsArray.

(** The summand [precompute] adds at index [i]. *)
Definition resistance_term (p : AreaProfile.t) (rho : num) (i : Z) : num :=
  (rho / (get (AreaProfile.area p) i * lit 1e-6) * AreaProfile.dx p)%num.

(** The array [precompute(rho)] leaves in [this.cumulative] when it finds
    [c] there. *)
Definition cumulative_table (p : AreaProfile.t) (rho : num) (c : list num)
  : list num :=
  let k := Z.to_nat (AreaProfile.samples p - 1) in
  of_Z 0 :: running_sums (resistance_term p rho) (of_Z 0) 1 k
    ++ skipn k (tl c).

End CumulativeTable.

(** ** Profiles over the reals *)

Module RealProfile.
Local Open Scope R_scope.

(** [running_sums] over the reals. *)
Fixpoint real_sums (term : Z -> R) (acc : R) (i : Z) (k : nat) : list R :=
  match k with
  | O => []
  | S k' =>
      let v := acc + term i in
      v :: real_sums term v (i + 1) k'
  end.

(** A profile whose length is the real [len] and whose area samples are the
    reals [areas], with [dx] as the constructor sets it. *)
Record real_profile (p : @AreaProfile.t Exact.number) (len : R)
    (areas : list R) : Prop := {
  rp_length : AreaProfile.length p = Some len;
  rp_area : AreaProfile.area p = map Some areas;
  rp_samples : Z.of_nat (length areas) = AreaProfile.samples p;
  rp_dx : AreaProfile.dx p
          = (AreaProfile.length p / of_Z (AreaProfile.samples p - 1))%num
}.

(** The summand of [precompute] at index [i], over the reals. *)
Definition real_term (len rho : R) (areas : list R) (n i : Z) : R :=
  rho / (nth (Z.to_nat i) areas 0 * (1 / 1000000)) * (len / IZR (n - 1)).

(** The first [n] entries of the cumulative table, over the reals. *)
Definition real_table (len rho : R) (areas : list R) (n : Z) : list R :=
  0 :: real_sums (real_term len rho areas n) 0 1 (Z.to_nat (n - 1)).

Definition nondecreasing (cs : list R) : Prop :=
  forall i j : nat, (i <= j < length cs)%nat -> nth i cs 0 <= nth j cs 0.

(** [constrain(t, 0, 1)] over the reals. *)
Definition clamp01 (t : R) : R := Rmax (Rmin t 1) 0.

(** The interpolation of [areaAt] and [resistanceUpTo] in a table [cs] at
    the fractional index [idx], over the reals. *)
Definition interpolate (cs : list R) (idx : R) : R :=
  let i0 := Int_part idx in
  let i1 := Z.min (Z.of_nat (length cs) - 1) (i0 + 1) in
  (idx - IZR i0) * (nth (Z.to_nat i1) cs 0 - nth (Z.to_nat i0) cs 0)
  + nth (Z.to_nat i0) cs 0.

End RealProfile.

(** A small profile over the reals: three samples over a bar of length 1. *)
Definition demo_profile : @AreaProfile.t Exact.number :=
  @AreaProfile.mk Exact.number
    (Some 1%R) 3 (lit 0.6) (lit 3.2) (Mulberry32.new 42)
    [Some 1%R; Some 2%R; Some 1%R]
    (@num_div Exact.number (Some 1%R) (of_Z (3 - 1)))
    [of_Z 0; of_Z 0; of_Z 0] (of_Z 1).

(** ** What [generate] draws *)

Section GenerateDraws.
Context {NUM : Number}.

(** The value of [lobes] in [generate()]. *)
Definition drawn_lobes (p : AreaProfile.t) : num :=
  (of_Z 2 + Math_floor (fst (Mulberry32.next (AreaProfile.rng p)) * of_Z 3))%num.

(** The number of calls of [this.rng.next()] one pass of the outer loop of
    [generate] makes: two per lobe and one for the jitter. *)
Definition draws_per_sample (p : AreaProfile.t) : nat :=
  (2 * AreaProfile.iterations (drawn_lobes p) + 1)%nat.

(** The value [generate] stores in [this.area[i]]: the body of its outer
    loop run on the generator as it is after the draw of [lobes] and the
    draws of the samples before [i]. *)
Definition generated_sample (p : AreaProfile.t) (i : Z) : num :=
  fst (AreaProfile.sample_value p (drawn_lobes p) i
         (Mulberry32.advance (1 + Z.to_nat i * draws_per_sample p)
            (AreaProfile.rng p))).

End GenerateDraws.

(** The profile [new AreaProfile({ samples: 2, seed: 42 })] hands to
    [generate()]. *)
Definition seed42_profile : @AreaProfile.t Exact.number :=
  @AreaProfile.mk Exact.number (of_Z 1) 2 (lit 0.6) (lit 3.2)
    (Mulberry32.new 42) [of_Z 1; of_Z 1]
    (@num_div Exact.number (of_Z 1) (of_Z (2 - 1)))
    [of_Z 0; of_Z 0] (of_Z 1).

(** ** What [autoScan] visits *)

Section ScanPositions.
Context {NUM : Number}.

(** The positions [i * step] for [i = 0 .. n - 1], [step = len / (n - 1)]. *)
Definition positions (len : num) (n : Z) : list num :=
  map (fun i => (of_Z i * (len / of_Z (n - 1)))%num) (range 0 n).

(** One call of [fn] per position, in order, the state of the callback
    passed along; each result is logged with its position. *)
Fixpoint call_each (S : Type) (fn : num -> S -> num * S) (xs : list num)
    (s : S) : list MeasurementLog.sample * S :=
  match xs with
  | [] => ([], s)
  | x0 :: xs' =>
      let (v0, s1) := fn x0 s in
      let (rest, s2) := call_each fn xs' s1 in
      (MeasurementLog.mkSample x0 v0 :: rest, s2)
  end.

End ScanPositions.

(** The positions of a scan over the reals. *)
Definition real_positions (len : R) (n : Z) : list R :=
  map (fun i => (IZR i * (len / IZR (n - 1)))%R) (range 0 n).

(** ** The Johnson-noise sketch over the reals *)

Module TaperReals.
Local Open Scope R_scope.

Definition len : R := Q2R 0.01.
Definition dx : R := len / 511.
Definition ell : R := Q2R 0.008.
Definition r0 : R := Q2R 0.0004.
Definition rho : R := Q2R 1e-4.
Definition k_b : R := Q2R 1.380649e-23.
Definition ampStd : R := Q2R 0.003.

(** [dR] at index [i] of the constructor's loop. *)
Definition taper_term (i : Z) : R :=
  rho * dx
  / (Rtrigo1.PI * powerRZ (r0 * Rtrigo_def.exp (- (IZR i * dx) / ell)) 2).

(** The 512 entries of [this.cumulative]. *)
Definition taper_table : list R :=
  0 :: RealProfile.real_sums taper_term 0 1 511.

(** The standard deviation the handler gives the noise at resistance [r]. *)
Definition total_std (r : R) : R :=
  R_sqrt.sqrt
    (R_sqrt.sqrt (4 * k_b * 300 * r * 9000000000)
     * R_sqrt.sqrt (4 * k_b * 300 * r * 9000000000)
     + ampStd * ampStd).

End TaperReals.

Section SpecReading.
Context {NUM : Number}.

(** The reading of the Johnson-noise sketch as the specification words it:
    the resistance is [resistanceUpTo(x)], the cumulative table interpolated
    linearly at the probe as [AreaProfile.resistanceUpTo] does it. *)
Definition interpolated_resistance (e : TaperExperiment.t) : num :=
  AreaProfile.resistanceUpTo
    (AreaProfile.mk (TaperExperiment.L e) (TaperExperiment.samples e) nan nan
       (TaperExperiment.rng e) [] (TaperExperiment.dx e)
       (TaperExperiment.cumulative e) (TaperExperiment.totalR e))
    (TaperExperiment.probeX e).

Definition spec_measure (e : TaperExperiment.t) (g : P5.Gaussian)
  : num * P5.Gaussian :=
  let r := interpolated_resistance e in
  let idealVoltage := (TaperExperiment.currentA e * r)%num in
  let johnsonStd :=
    Math_sqrt (of_Z 4 * TaperExperiment.k_b e * TaperExperiment.tempK e * r
               * TaperExperiment.noiseBW e)%num in
  let instrumentStd := lit 0.003 in
  let totalStd :=
    Math_sqrt (johnsonStd * johnsonStd + instrumentStd * instrumentStd)%num in
  let (z, g') := P5.randomGaussian g in
  ((idealVoltage + totalStd * z)%num, g').

End SpecReading.

(** A source of draws that are all zero. *)
Definition zero_draws : @P5.Gaussian Exact.number :=
  P5.mkGaussian (fun _ => Exact.real 0) 0.

Section TaperConstructor.
Context {NUM : Number}.

(** The experiment as the constructor has it before its loop: every field
    set, [cumulative] filled with zeros. *)
Definition taper_blank (random_seed : Z) : TaperExperiment.t :=
  TaperExperiment.mk (lit 0.01) (lit 0.008) (lit 0.0004) (lit 1e-4) (of_Z 1)
    512 (lit 0.01 / of_Z (512 - 1))%num (Mulberry32.new random_seed)
    (lit 0.25) (lit 0.5) (lit 0.35) (lit 1.380649e-23) (of_Z 300)
    (of_Z 9000000000) true (repeat (of_Z 0) 512) [].

(** [dR] in the pass [i] of the constructor's loop. *)
Definition taper_dR (e : TaperExperiment.t) (i : Z) : num :=
  (TaperExperiment.rho e * TaperExperiment.dx e
   / TaperExperiment.areaAt e (of_Z i * TaperExperiment.dx e))%num.

End TaperConstructor.

(** The simple-noise experiment on [demo_profile] with the noise switched
    off: [I = 0.25], [sigma = 0]. *)
Definition quiet_experiment : @VarAreaExperiment.t Exact.number :=
  @VarAreaExperiment.mk Exact.number (of_Z 1) (lit 1.7e-8) demo_profile
    (lit 0.25) (Exact.real 0) (lit 0.35) MeasurementLog.new false false.

(** [demo_profile] over the rationals. *)
Definition demo_rational : @AreaProfile.t Rational.number :=
  @AreaProfile.mk Rational.number
    (Rational.rational 1) 3 (lit 0.6) (lit 3.2) (Mulberry32.new 42)
    [Rational.rational 1; Rational.rational 2; Rational.rational 1]
    (@num_div Rational.number (Rational.rational 1) (of_Z (3 - 1)))
    [of_Z 0; of_Z 0; of_Z 0] (of_Z 1).

(** ** Tables that increase *)

Definition strictly_increasing (cs : list R) : Prop :=
  forall i j : nat, (i < j < length cs)%nat -> (nth i cs 0 < nth j cs 0)%R.

(** The simple-noise experiment with the noise switched off, on
    [demo_profile] precomputed with [rho = 1]. *)
Definition quiet_precomputed : @VarAreaExperiment.t Exact.number :=
  @VarAreaExperiment.mk Exact.number (of_Z 1) (Exact.real 1)
    (AreaProfile.precompute demo_profile (Some (Exact.real 1)))
    (lit 0.25) (Exact.real 0) (lit 0.35) MeasurementLog.new false false.

(** ** Presses of a button *)

Section Presses.
Context {NUM : Number}.

(** [n] presses of [Add Reading] in the simple-noise sketch. *)
Fixpoint addReadings (n : nat) (e : VarAreaExperiment.t) (g : P5.Gaussian)
  : VarAreaExperiment.t * P5.Gaussian :=
  match n with
  | O => (e, g)
  | S n' =>
      let (e1, g1) := VarAreaExperiment.addReading e g in
      addReadings n' e1 g1
  end.

End Presses.

Section TaperPresses.
Context {NUM : Number}.

(** [n] presses of [Add Reading] in the Johnson-noise sketch. *)
Fixpoint taper_addReadings (n : nat) (e : TaperExperiment.t)
    (g : P5.Gaussian) : TaperExperiment.t * P5.Gaussian :=
  match n with
  | O => (e, g)
  | S n' =>
      let (e1, g1) := TaperExperiment.addReading e g in
      taper_addReadings n' e1 g1
  end.

End TaperPresses.

(** The simple-noise experiment on [demo_profile] precomputed with
    [rho = 1], the probe at the left end and a noise level of 1 V; and a
    source of draws that are all -1. *)
Definition noisy_experiment : @VarAreaExperiment.t Exact.number :=
  @VarAreaExperiment.mk Exact.number (of_Z 1) (Exact.real 1)
    (AreaProfile.precompute demo_profile (Some (Exact.real 1)))
    (lit 0.25) (Exact.real 1) (Exact.real 0) MeasurementLog.new false false.

Definition negative_draws : @P5.Gaussian Exact.number :=
  P5.mkGaussian (fun _ => Exact.real (-1)) 0.

(** * Properties *)

Unset Implicit Arguments.

(** ** The generator on known values

    Seed 42 gives 0.6011037519201636, that is 2581720956 / 2^32, as its
    first value; above 2^53 the state moves in steps of the doubles. *)

Example mulberry32_seed42 :
  Mulberry32.outputs 4 (Mulberry32.new 42)
  = [2581720956; 1925393290; 3661312704; 2876485805].
Proof. vm_compute. reflexivity. Qed.

Example mulberry32_state_rounds :
  Mulberry32.state
    (Mulberry32.advance 3 (Mulberry32.mk (Double.two53 - 5)))
  = 9007204749438424
  /\ Mulberry32.outputs 3 (Mulberry32.mk (Double.two53 - 5))
     = [2078107854; 841760298; 2337619704].
Proof. vm_compute. split; reflexivity. Qed.

(** ** Loop ranges *)

Lemma range_empty (lo hi : Z) : hi <= lo -> range lo hi = [].
Proof.
  intros H. unfold range.
  replace (Z.to_nat (hi - lo)) with O by lia. reflexivity.
Qed.

Lemma range_count (lo : Z) (k : nat) :
  range lo (lo + Z.of_nat k) = map (fun j => lo + Z.of_nat j) (seq 0 k).
Proof.
  unfold range. replace (Z.to_nat (lo + Z.of_nat k - lo)) with k by lia.
  reflexivity.
Qed.

Lemma range_cons (lo : Z) (k : nat) :
  range lo (lo + Z.of_nat (S k)) = lo :: range (lo + 1) (lo + 1 + Z.of_nat k).
Proof.
  rewrite !range_count. cbn [seq map].
  rewrite <- seq_shift, map_map. f_equal; [lia|].
  apply map_ext. intros j. lia.
Qed.

Lemma range_snoc (lo : Z) (k : nat) :
  range lo (lo + Z.of_nat (S k)) = range lo (lo + Z.of_nat k) ++ [lo + Z.of_nat k].
Proof.
  rewrite !range_count. rewrite seq_S, map_app. reflexivity.
Qed.

Lemma range_length (lo hi : Z) : length (range lo hi) = Z.to_nat (hi - lo).
Proof. unfold range. rewrite length_map, length_seq. reflexivity. Qed.

Lemma range_as_count (lo hi : Z) :
  range lo hi = range lo (lo + Z.of_nat (Z.to_nat (hi - lo))).
Proof.
  destruct (Z.le_gt_cases hi lo) as [H|H].
  - rewrite (range_empty _ _ H). replace (Z.to_nat (hi - lo)) with O by lia.
    rewrite range_empty; [reflexivity | lia].
  - f_equal. lia.
Qed.

(** ** Array reads and writes *)

Section ArrayFacts.
Context {NUM : Number}.
Import JsArray.

Lemma get_nth (a : list num) (n : nat) : get a (Z.of_nat n) = nth n a nan.
Proof.
  unfold get. destruct (Z.ltb_spec (Z.of_nat n) 0); [lia|].
  rewrite Nat2Z.id. reflexivity.
Qed.

Lemma get_middle (pre rest : list num) (acc : num) :
  get (pre ++ acc :: rest) (Z.of_nat (length pre)) = acc.
Proof. rewrite get_nth. apply nth_middle. Qed.

(** Writing just past a prefix replaces the next element, or appends one
    when the prefix is the whole array: no hole is made. *)
Lemma set_after (pre rest : list num) (v : num) :
  set (pre ++ rest) (Z.of_nat (length pre)) v = pre ++ v :: tl rest.
Proof.
  unfold set. destruct (Z.ltb_spec (Z.of_nat (length pre)) 0); [lia|].
  rewrite Nat2Z.id, length_app.
  destruct rest as [|r rest].
  - cbn [length tl]. rewrite Nat.add_0_r.
    destruct (Nat.ltb_spec (length pre) (length pre)); [lia|].
    rewrite Nat.sub_diag. cbn [repeat]. rewrite !app_nil_r. reflexivity.
  - cbn [length tl].
    destruct (Nat.ltb_spec (length pre) (length pre + S (length rest))); [|lia].
    rewrite firstn_app, firstn_all, Nat.sub_diag. cbn [firstn].
    rewrite app_nil_r. f_equal. f_equal.
    rewrite skipn_app, skipn_all2 by lia.
    replace (S (length pre) - length pre)%nat with 1%nat by lia.
    reflexivity.
Qed.

Lemma set_zero (a : list num) (v : num) : set a 0 v = v :: tl a.
Proof. exact (set_after [] a v). Qed.

(** The loop [for (i = lo; i < lo + k; i++) c[i] = c[i - 1] + term(i)] on
    an array whose element [lo - 1] is [acc]. *)
Lemma accumulate_loop (term : Z -> num) (step : list num -> Z -> list num) :
  (forall c i, step c i = set c i (get c (i - 1) + term i)%num) ->
  forall (k : nat) (pre rest : list num) (acc : num),
    fold_left step
      (range (Z.of_nat (length pre) + 1) (Z.of_nat (length pre) + 1 + Z.of_nat k))
      (pre ++ acc :: rest)
    = pre ++ acc :: running_sums term acc (Z.of_nat (length pre) + 1) k
        ++ skipn k rest.
Proof.
  intros Hstep. induction k as [|k IH]; intros pre rest acc.
  - rewrite range_empty by lia. reflexivity.
  - rewrite range_cons. cbn [fold_left running_sums].
    rewrite Hstep.
    replace (Z.of_nat (length pre) + 1 - 1) with (Z.of_nat (length pre)) by lia.
    rewrite get_middle.
    replace (pre ++ acc :: rest) with ((pre ++ [acc]) ++ rest)
      by (rewrite <- app_assoc; reflexivity).
    replace (Z.of_nat (length pre) + 1) with (Z.of_nat (length (pre ++ [acc])))
      by (rewrite length_app; cbn [length]; lia).
    rewrite set_after.
    rewrite IH. rewrite <- app_assoc. cbn [app].
    destruct rest; cbn [tl]; rewrite ?skipn_nil; reflexivity.
Qed.

End ArrayFacts.

(** ** The code run on a small profile

    Three samples of area 1, 2, 1 mm^2 over a bar of length 1 m, with
    [rho = 1]: [dx] is 1/2 and the cumulative table is 0, 250000, 750000. *)

Example precompute_runs :
  let p := AreaProfile.precompute demo_rational (Some (Rational.rational 1)) in
  AreaProfile.cumulative p
  = [Rational.rational 0; Rational.rational 250000; Rational.rational 750000]
  /\ AreaProfile.totalR p = Rational.rational 750000.
Proof. vm_compute. split; reflexivity. Qed.

Example resistanceUpTo_runs :
  let p := AreaProfile.precompute demo_rational (Some (Rational.rational 1)) in
  map (fun q => AreaProfile.resistanceUpTo p (Rational.rational q))
      [-1; 0; 0.25; 0.5; 0.75; 1; 2]%Q
  = map Rational.rational [0; 0; 125000; 250000; 500000; 750000; 750000]%Q.
Proof. vm_compute. reflexivity. Qed.

Example areaAt_runs :
  map (fun q => AreaProfile.areaAt demo_rational (Rational.rational q))
      [-1; 0; 0.25; 0.5; 0.75; 1; 2]%Q
  = map Rational.rational [1; 1; 1.5; 2; 1.5; 1; 1]%Q.
Proof. vm_compute. reflexivity. Qed.

(** A scan of four positions over a length of 3/2 with a callback that
    counts its calls: the log that held one sample holds the four new ones,
    and the callback ran four times. *)
Example autoScan_runs :
  MeasurementLog.autoScan
    (fun (x0 : @num Rational.number) (calls : nat) =>
       ((x0 * x0)%num, S calls))
    (MeasurementLog.mk
       [MeasurementLog.mkSample (Rational.rational 7) (Rational.rational 7)])
    (Rational.rational 1.5) (Some 4) O
  = (MeasurementLog.mk
       [MeasurementLog.mkSample (Rational.rational 0) (Rational.rational 0);
        MeasurementLog.mkSample (Rational.rational 0.5)
          (Rational.rational 0.25);
        MeasurementLog.mkSample (Rational.rational 1) (Rational.rational 1);
        MeasurementLog.mkSample (Rational.rational 1.5)
          (Rational.rational 2.25)],
     4%nat).
Proof. vm_compute. reflexivity. Qed.

(** The constructor runs for a sample count of 0 and throws for -1. *)
Example constructor_runs :
  (exists p,
     AreaProfile.new
       (@AreaProfile.mkOpts Rational.number None (Some 0) None None (Some 42))
       0
     = JsArray.Ok p
     /\ AreaProfile.area p = []
     /\ Mulberry32.state (AreaProfile.rng p) = 1831565855)
  /\ AreaProfile.new
       (@AreaProfile.mkOpts Rational.number None (Some (-1)) None None None) 0
     = JsArray.Throw JsArray.RangeError.
Proof.
  split; [|reflexivity].
  eexists. split; [reflexivity|]. split; vm_compute; reflexivity.
Qed.

(** ** The cumulative table of [precompute] *)

Section PrecomputeFacts.
Context {NUM : Number}.
Import JsArray.

Lemma running_sums_length (term : Z -> num) (acc : num) (i : Z) (k : nat) :
  length (running_sums term acc i k) = k.
Proof.
  revert acc i. induction k as [|k IH]; intros acc i; cbn; [|rewrite IH];
    reflexivity.
Qed.

Lemma running_sums_nth (term : Z -> num) (k : nat) :
  forall (acc : num) (lo : Z) (j : nat) (d : num),
    (j < k)%nat ->
    nth j (running_sums term acc lo k) d
    = (nth j (acc :: running_sums term acc lo k) d
       + term (lo + Z.of_nat j)%Z)%num.
Proof.
  induction k as [|k IH]; intros acc lo j d Hj; [lia|].
  destruct j as [|j].
  - cbn. replace (lo + 0) with lo by lia. reflexivity.
  - cbn [running_sums nth]. rewrite IH by lia.
    cbn [nth]. do 2 f_equal. lia.
Qed.

Lemma precompute_unfold (p : AreaProfile.t) (rho : option num) :
  AreaProfile.precompute p rho
  = let c := cumulative_table p (rho ?? lit 1.7e-8) (AreaProfile.cumulative p) in
    AreaProfile.with_cumulative p c (get c (AreaProfile.samples p - 1)).
Proof.
  unfold AreaProfile.precompute, cumulative_table.
  set (r := rho ?? lit 1.7e-8).
  set (k := Z.to_nat (AreaProfile.samples p - 1)).
  assert (H : fold_left (AreaProfile.precompute_step p r)
                (range 1 (AreaProfile.samples p))
                (set (AreaProfile.cumulative p) 0 (of_Z 0))
              = of_Z 0 :: running_sums (resistance_term p r) (of_Z 0) 1 k
                  ++ skipn k (tl (AreaProfile.cumulative p))).
  { rewrite set_zero, range_as_count. fold k.
    exact (accumulate_loop (resistance_term p r)
             (AreaProfile.precompute_step p r) (fun c i => eq_refl)
             k [] (tl (AreaProfile.cumulative p)) (of_Z 0)). }
  cbv zeta. rewrite H. reflexivity.
Qed.

Lemma cumulative_table_again (p : AreaProfile.t) (rho : num) (c : list num) :
  cumulative_table p rho (cumulative_table p rho c) = cumulative_table p rho c.
Proof.
  unfold cumulative_table. cbn [tl]. do 2 f_equal.
  rewrite skipn_app, running_sums_length, Nat.sub_diag, skipn_all2
    by (rewrite running_sums_length; lia).
  reflexivity.
Qed.

Lemma cumulative_table_step (p : AreaProfile.t) (rho : num) (c : list num)
    (i : Z) :
  1 <= i < AreaProfile.samples p ->
  get (cumulative_table p rho c) i
  = (get (cumulative_table p rho c) (i - 1) + resistance_term p rho i)%num.
Proof.
  intros Hi. unfold cumulative_table.
  set (k := Z.to_nat (AreaProfile.samples p - 1)).
  set (sums := running_sums (resistance_term p rho) (of_Z 0) 1 k).
  assert (Hlen : length sums = k) by apply running_sums_length.
  replace i with (Z.of_nat (S (Z.to_nat (i - 1)))) at 1 by lia.
  replace (i - 1) with (Z.of_nat (Z.to_nat (i - 1))) at 2 by lia.
  rewrite !get_nth.
  set (j := Z.to_nat (i - 1)).
  assert (Hj : (j < k)%nat) by lia.
  set (rest := skipn k (tl c)).
  change (nth (S j) (of_Z 0 :: sums ++ rest) nan)
    with (nth j (sums ++ rest) nan).
  rewrite (app_nth1 sums rest nan) by lia.
  unfold sums at 1. rewrite running_sums_nth by lia. fold sums.
  replace (1 + Z.of_nat j) with i by lia.
  f_equal.
  change (of_Z 0 :: sums ++ rest) with ((of_Z 0 :: sums) ++ rest).
  rewrite (app_nth1 (of_Z 0 :: sums) rest nan) by (cbn [length]; lia).
  reflexivity.
Qed.

End PrecomputeFacts.

(** ** Exact arithmetic: the operations on reals *)

Section ExactFacts.
Import Exact JsArray.
Local Open Scope R_scope.

Lemma Int_part_unique (r : R) (z : Z) :
  IZR z <= r -> r < IZR z + 1 -> Int_part r = z.
Proof.
  intros H1 H2. unfold Int_part.
  assert (Hup : (z + 1)%Z = up r).
  { apply tech_up; rewrite plus_IZR; lra. }
  lia.
Qed.

Lemma Int_part_IZR (z : Z) : Int_part (IZR z) = z.
Proof. apply Int_part_unique; lra. Qed.

Lemma Int_part_bounds (r : R) : IZR (Int_part r) <= r < IZR (Int_part r) + 1.
Proof. destruct (base_Int_part r). lra. Qed.

Lemma Int_part_le (r s : R) : r <= s -> (Int_part r <= Int_part s)%Z.
Proof.
  intros H. pose proof (Int_part_bounds r). pose proof (Int_part_bounds s).
  assert (IZR (Int_part r) < IZR (Int_part s) + 1) by lra.
  rewrite <- (plus_IZR _ 1) in *. apply lt_IZR in H2. lia.
Qed.

Lemma integer_IZR (z : Z) : integer (IZR z) = Some z.
Proof.
  unfold integer. rewrite Int_part_IZR.
  destruct (Req_dec_T (IZR z) (IZR z)); [reflexivity | contradiction].
Qed.

Lemma div_real (a b : R) : b <> 0 -> (Some a / Some b)%num = Some (a / b).
Proof.
  intros H. cbn. unfold div. destruct (Req_dec_T b 0); [contradiction|].
  reflexivity.
Qed.

Lemma sqrt_real (a : R) : 0 <= a -> Math_sqrt (Some a) = Some (R_sqrt.sqrt a).
Proof.
  intros H. cbn. unfold Exact.sqrt. destruct (Rlt_dec a 0); [lra|].
  reflexivity.
Qed.

Lemma get_real (cs : list R) (rest : list (option R)) (z : Z) :
  (0 <= z < Z.of_nat (length cs))%Z ->
  get (map Some cs ++ rest) z = Some (nth (Z.to_nat z) cs 0).
Proof.
  intros H. unfold get. destruct (Z.ltb_spec z 0); [lia|].
  rewrite app_nth1 by (rewrite length_map; lia).
  change nan with (@None R).
  rewrite (nth_indep _ None (Some 0)) by (rewrite length_map; lia).
  apply (map_nth Some).
Qed.

Lemma get_num_real (cs : list R) (rest : list (option R)) (z : Z) :
  (0 <= z < Z.of_nat (length cs))%Z ->
  get_num (map Some cs ++ rest) (Some (IZR z)) = Some (nth (Z.to_nat z) cs 0).
Proof.
  intros H. unfold get_num. cbn [to_index number index].
  rewrite integer_IZR. apply get_real, H.
Qed.

Lemma Q2R_pos (q : Q) : (0 < Qnum q)%Z -> 0 < Q2R q.
Proof.
  intros H. unfold Q2R. apply Rmult_lt_0_compat.
  - apply IZR_lt, H.
  - apply Rinv_0_lt_compat, IZR_lt. reflexivity.
Qed.

Lemma Q2R_micro : Q2R 1e-6 = 1 / 1000000.
Proof. unfold Q2R. cbn. lra. Qed.

End ExactFacts.

(** ** The cumulative table over the reals *)

Section RealTable.
Import Exact JsArray RealProfile.
Local Open Scope R_scope.

Lemma running_sums_real (term : Z -> option R) (rterm : Z -> R) (k : nat) :
  forall (acc : R) (lo : Z),
    (forall i, (lo <= i < lo + Z.of_nat k)%Z -> term i = Some (rterm i)) ->
    running_sums term (Some acc) lo k = map Some (real_sums rterm acc lo k).
Proof.
  induction k as [|k IH]; intros acc lo H; [reflexivity|].
  cbn [running_sums real_sums map]. rewrite (H lo) by lia.
  cbn [num_add number lift2]. f_equal.
  apply IH. intros i Hi. apply H. lia.
Qed.

Lemma real_sums_length (term : Z -> R) (acc : R) (i : Z) (k : nat) :
  length (real_sums term acc i k) = k.
Proof.
  revert acc i. induction k as [|k IH]; intros acc i; cbn; [|rewrite IH];
    reflexivity.
Qed.

Lemma nondecreasing_cons (a b : R) (l : list R) :
  a <= b -> nondecreasing (b :: l) -> nondecreasing (a :: b :: l).
Proof.
  intros Hab Hl i j Hij. destruct i as [|i], j as [|j]; cbn [nth].
  - lra.
  - apply Rle_trans with b; [exact Hab|].
    apply (Hl O j). cbn [length] in *. lia.
  - lia.
  - apply (Hl i j). cbn [length] in *. lia.
Qed.

Lemma real_sums_nondecreasing (term : Z -> R) (k : nat) :
  forall (acc : R) (lo : Z),
    (forall i, (lo <= i < lo + Z.of_nat k)%Z -> 0 <= term i) ->
    nondecreasing (acc :: real_sums term acc lo k).
Proof.
  induction k as [|k IH]; intros acc lo H.
  - intros i j Hij. cbn [real_sums length] in *.
    replace j with i by lia. lra.
  - cbn [real_sums]. apply nondecreasing_cons.
    + specialize (H lo). lapply H; [lra | lia].
    + apply IH. intros i Hi. apply H. lia.
Qed.

Lemma real_table_length (len rho : R) (areas : list R) (n : Z) :
  (1 <= n)%Z -> Z.of_nat (length (real_table len rho areas n)) = n.
Proof.
  intros H. unfold real_table. cbn [length]. rewrite real_sums_length. lia.
Qed.

Lemma resistance_term_real (p : AreaProfile.t) (len rho : R)
    (areas : list R) (i : Z) :
  real_profile p len areas ->
  Forall (fun a => 0 < a) areas ->
  (1 <= i < AreaProfile.samples p)%Z ->
  resistance_term p (Some rho) i
  = Some (real_term len rho areas (AreaProfile.samples p) i).
Proof.
  intros [Hlen Harea Hn Hdx] Hpos Hi.
  unfold resistance_term, real_term.
  rewrite Hdx, Hlen, Harea.
  rewrite <- (app_nil_r (map Some areas)), get_real by lia.
  assert (Ha : 0 < nth (Z.to_nat i) areas 0).
  { rewrite Forall_forall in Hpos. apply Hpos, nth_In. lia. }
  cbn [lit of_Z number]. rewrite Q2R_micro.
  rewrite (div_real len (IZR (AreaProfile.samples p - 1))).
  2:{ apply not_0_IZR. lia. }
  cbn [num_mul number lift2].
  rewrite div_real by nra.
  reflexivity.
Qed.

Lemma cumulative_table_real (p : AreaProfile.t) (len rho : R)
    (areas : list R) (c : list (option R)) :
  real_profile p len areas ->
  Forall (fun a => 0 < a) areas ->
  cumulative_table p (Some rho) c
  = map Some (real_table len rho areas (AreaProfile.samples p))
      ++ skipn (Z.to_nat (AreaProfile.samples p - 1)) (tl c).
Proof.
  intros Hp Hpos. unfold cumulative_table, real_table.
  cbn [map app]. cbn [of_Z number]. f_equal. f_equal.
  apply running_sums_real. intros i Hi.
  apply resistance_term_real; auto. lia.
Qed.

Lemma real_table_nondecreasing (len rho : R) (areas : list R) (n : Z) :
  Z.of_nat (length areas) = n ->
  Forall (fun a => 0 < a) areas -> 0 <= rho -> 0 <= len ->
  nondecreasing (real_table len rho areas n).
Proof.
  intros Hn Hpos Hrho Hlen. unfold real_table.
  apply real_sums_nondecreasing. intros i Hi. unfold real_term.
  assert (Ha : 0 < nth (Z.to_nat i) areas 0).
  { rewrite Forall_forall in Hpos. apply Hpos, nth_In. lia. }
  assert (Hd : 0 < IZR (n - 1)) by (apply IZR_lt; lia).
  apply Rmult_le_pos.
  - apply Rmult_le_pos; [exact Hrho|].
    apply Rlt_le, Rinv_0_lt_compat. nra.
  - apply Rmult_le_pos; [exact Hlen|].
    apply Rlt_le, Rinv_0_lt_compat, Hd.
Qed.

End RealTable.

(** ** Interpolation over the reals *)

Section Interpolation.
Import Exact JsArray RealProfile.
Local Open Scope R_scope.

Lemma Rmin_IZR (a b : Z) : Rmin (IZR a) (IZR b) = IZR (Z.min a b).
Proof.
  destruct (Z.le_gt_cases a b) as [H|H].
  - rewrite Z.min_l by lia. apply Rmin_left, IZR_le, H.
  - rewrite Z.min_r by lia. apply Rmin_right, IZR_le. lia.
Qed.

Lemma clamp01_bounds (t : R) : 0 <= clamp01 t <= 1.
Proof.
  unfold clamp01. split.
  - apply Rmax_r.
  - apply Rmax_lub; [apply Rmin_r | lra].
Qed.

Lemma clamp01_inside (t : R) : 0 <= t <= 1 -> clamp01 t = t.
Proof.
  intros H. unfold clamp01. rewrite Rmin_left by lra. apply Rmax_left. lra.
Qed.

Lemma clamp01_below (t : R) : t <= 0 -> clamp01 t = 0.
Proof.
  intros H. unfold clamp01. rewrite Rmin_left by lra. apply Rmax_right. lra.
Qed.

Lemma clamp01_above (t : R) : 1 <= t -> clamp01 t = 1.
Proof.
  intros H. unfold clamp01. rewrite Rmin_right by lra. apply Rmax_left. lra.
Qed.

Lemma clamp01_monotone (s t : R) : s <= t -> clamp01 s <= clamp01 t.
Proof.
  intros H. unfold clamp01.
  apply Rle_max_compat_r, Rle_min_compat_r, H.
Qed.

Lemma Int_part_index (n : Z) (idx : R) :
  0 <= idx <= IZR (n - 1) -> (0 <= Int_part idx <= n - 1)%Z.
Proof.
  intros H. split.
  - rewrite <- (Int_part_IZR 0). apply Int_part_le. lra.
  - rewrite <- (Int_part_IZR (n - 1)). apply Int_part_le. lra.
Qed.

(** What the last five lines of [areaAt] and [resistanceUpTo] compute on a
    table whose first [n] entries are the reals [cs]. *)
Lemma lerp_lookup_real (tbl rest : list (option R)) (cs : list R) (n : Z)
    (idx : R) :
  tbl = map Some cs ++ rest ->
  Z.of_nat (length cs) = n ->
  0 <= idx <= IZR (n - 1) ->
  P5.lerp (get_num tbl (Math_floor (Some idx)))
          (get_num tbl (Math_min (of_Z (n - 1))
                                 (Math_floor (Some idx) + of_Z 1)%num))
          (Some idx - Math_floor (Some idx))%num
  = Some (interpolate cs idx).
Proof.
  intros -> Hn Hidx.
  pose proof (Int_part_index _ _ Hidx) as Hi0.
  cbn [Math_floor Math_min of_Z num_add num_sub number lift1 lift2].
  rewrite <- plus_IZR, Rmin_IZR.
  rewrite !get_num_real by lia.
  unfold P5.lerp, interpolate. cbn [num_add num_sub num_mul number lift2].
  rewrite Hn. reflexivity.
Qed.

Lemma interpolate_between (cs : list R) (idx : R) :
  nondecreasing cs ->
  0 <= idx <= IZR (Z.of_nat (length cs) - 1) ->
  nth (Z.to_nat (Int_part idx)) cs 0 <= interpolate cs idx
  /\ interpolate cs idx
     <= nth (Z.to_nat (Z.min (Z.of_nat (length cs) - 1) (Int_part idx + 1)))
            cs 0.
Proof.
  intros Hcs Hidx.
  pose proof (Int_part_index _ _ Hidx) as Hi0.
  pose proof (Int_part_bounds idx) as Hf.
  unfold interpolate.
  set (i0 := Int_part idx) in *.
  set (i1 := Z.min (Z.of_nat (length cs) - 1) (i0 + 1)).
  assert (Hle : nth (Z.to_nat i0) cs 0 <= nth (Z.to_nat i1) cs 0).
  { apply Hcs. unfold i1. lia. }
  split; nra.
Qed.

Lemma interpolate_monotone (cs : list R) (u w : R) :
  nondecreasing cs ->
  0 <= u -> u <= w -> w <= IZR (Z.of_nat (length cs) - 1) ->
  interpolate cs u <= interpolate cs w.
Proof.
  intros Hcs Hu Huw Hw.
  assert (Hu' : 0 <= u <= IZR (Z.of_nat (length cs) - 1)) by lra.
  assert (Hw' : 0 <= w <= IZR (Z.of_nat (length cs) - 1)) by lra.
  pose proof (Int_part_index _ _ Hu') as Hiu.
  pose proof (Int_part_index _ _ Hw') as Hiw.
  pose proof (Int_part_le _ _ Huw) as Hij.
  destruct (Z.eq_dec (Int_part u) (Int_part w)) as [Heq|Hne].
  - unfold interpolate. rewrite <- Heq.
    set (i0 := Int_part u) in *.
    set (i1 := Z.min (Z.of_nat (length cs) - 1) (i0 + 1)).
    assert (Hle : nth (Z.to_nat i0) cs 0 <= nth (Z.to_nat i1) cs 0).
    { apply Hcs. unfold i1. lia. }
    nra.
  - destruct (interpolate_between _ _ Hcs Hu') as [_ Hup].
    destruct (interpolate_between _ _ Hcs Hw') as [Hlow _].
    apply Rle_trans with (2 := Hlow).
    apply Rle_trans with (1 := Hup).
    apply Hcs. lia.
Qed.

Lemma resistanceUpTo_real (p : AreaProfile.t) (len : R) (cs : list R)
    (rest : list (option R)) (x0 : R) :
  AreaProfile.length p = Some len -> len <> 0 ->
  AreaProfile.cumulative p = map Some cs ++ rest ->
  Z.of_nat (length cs) = AreaProfile.samples p ->
  (1 <= AreaProfile.samples p)%Z ->
  AreaProfile.resistanceUpTo p (Some x0)
  = Some (interpolate cs
            (clamp01 (x0 / len) * IZR (AreaProfile.samples p - 1))).
Proof.
  intros Hlen Hl Hc Hn HN. unfold AreaProfile.resistanceUpTo.
  rewrite Hlen, div_real by exact Hl.
  unfold P5.constrain.
  cbn [Math_min Math_max of_Z num_mul number lift2].
  fold (clamp01 (x0 / len)).
  apply lerp_lookup_real with (rest := rest); auto.
  pose proof (clamp01_bounds (x0 / len)).
  assert (0 <= IZR (AreaProfile.samples p - 1)) by (apply IZR_le; lia).
  nra.
Qed.

Lemma areaAt_real (p : AreaProfile.t) (len : R) (areas : list R) (x0 : R) :
  real_profile p len areas -> len <> 0 ->
  (1 <= AreaProfile.samples p)%Z ->
  AreaProfile.areaAt p (Some x0)
  = Some (interpolate areas
            (clamp01 (x0 / len) * IZR (AreaProfile.samples p - 1))).
Proof.
  intros [Hlen Harea Hn Hdx] Hl HN. unfold AreaProfile.areaAt.
  rewrite Hlen, div_real by exact Hl.
  unfold P5.constrain.
  cbn [Math_min Math_max of_Z num_mul number lift2].
  fold (clamp01 (x0 / len)).
  apply lerp_lookup_real with (rest := []); auto.
  - rewrite app_nil_r. exact Harea.
  - pose proof (clamp01_bounds (x0 / len)).
    assert (0 <= IZR (AreaProfile.samples p - 1)) by (apply IZR_le; lia).
    nra.
Qed.

End Interpolation.

(** ** Claims about [precompute], [areaAt] and [resistanceUpTo] *)

Section ProfileClaims.
Import Exact JsArray RealProfile.
Local Open Scope R_scope.

Lemma demo_profile_real : real_profile demo_profile 1 [1; 2; 1].
Proof. split; reflexivity. Qed.

Lemma precompute_real (p : AreaProfile.t) (len rho : R) (areas : list R) :
  real_profile p len areas ->
  (1 <= AreaProfile.samples p)%Z ->
  Forall (fun a => 0 < a) areas ->
  let p' := AreaProfile.precompute p (Some (Some rho)) in
  let cs := real_table len rho areas (AreaProfile.samples p) in
  AreaProfile.length p' = Some len
  /\ AreaProfile.samples p' = AreaProfile.samples p
  /\ Z.of_nat (length cs) = AreaProfile.samples p
  /\ (exists rest, AreaProfile.cumulative p' = map Some cs ++ rest)
  /\ AreaProfile.totalR p'
     = Some (nth (Z.to_nat (AreaProfile.samples p - 1)) cs 0).
Proof.
  intros Hp HN Hpos p' cs. subst p'.
  rewrite precompute_unfold. cbv zeta. cbn [nullish].
  unfold AreaProfile.with_cumulative.
  cbn [AreaProfile.length AreaProfile.samples AreaProfile.cumulative
       AreaProfile.totalR].
  rewrite (cumulative_table_real _ _ rho _ _ Hp Hpos). fold cs.
  assert (Hlen : Z.of_nat (length cs) = AreaProfile.samples p)
    by (apply real_table_length; lia).
  repeat split.
  - apply Hp.
  - exact Hlen.
  - eexists. reflexivity.
  - apply get_real. lia.
Qed.

(** Interpolation in a non-decreasing table never decreases. *)
Lemma monotone_queries (p : AreaProfile.t) (len : R) (cs : list R)
    (rest : list (option R)) (x1 x2 : R) :
  AreaProfile.length p = Some len ->
  AreaProfile.cumulative p = map Some cs ++ rest ->
  Z.of_nat (length cs) = AreaProfile.samples p ->
  (1 <= AreaProfile.samples p)%Z ->
  nondecreasing cs ->
  0 <= x1 -> x1 < x2 -> x2 <= len ->
  exists r1 r2 : R,
    AreaProfile.resistanceUpTo p (Some x1) = Some r1
    /\ AreaProfile.resistanceUpTo p (Some x2) = Some r2
    /\ r1 <= r2.
Proof.
  intros Hlen Hcum Hcs HN Hnd Hx1 Hx12 Hx2.
  assert (Hl : len <> 0) by lra.
  do 2 eexists.
  rewrite !(resistanceUpTo_real _ _ _ _ _ Hlen Hl Hcum Hcs HN).
  split; [reflexivity|]. split; [reflexivity|].
  assert (Hd : 0 <= IZR (AreaProfile.samples p - 1)) by (apply IZR_le; lia).
  assert (Hq : x1 / len <= x2 / len).
  { apply Rmult_le_compat_r; [|lra]. apply Rlt_le, Rinv_0_lt_compat. lra. }
  pose proof (clamp01_monotone _ _ Hq) as Hc.
  pose proof (clamp01_bounds (x1 / len)) as Hb1.
  pose proof (clamp01_bounds (x2 / len)) as Hb2.
  apply interpolate_monotone; [exact Hnd | nra | nra | rewrite Hcs; nra].
Qed.

(** C1: for a profile of at least one sample with positive area values,
    once [precompute(rho)] has filled the cumulative table with [rho > 0],
    the table is non-decreasing, and [resistanceUpTo] returns real numbers
    and never decreases between two positions [x1 < x2] of [[0, L]]. *)
Theorem resistanceUpTo_monotone (p : AreaProfile.t) (len rho : R)
    (areas : list R) (x1 x2 : R) :
  real_profile p len areas ->
  (1 <= AreaProfile.samples p)%Z ->
  Forall (fun a => 0 < a) areas ->
  0 < rho ->
  0 <= x1 -> x1 < x2 -> x2 <= len ->
  let p' := AreaProfile.precompute p (Some (Some rho)) in
  (forall i j : Z,
     (0 <= i <= j)%Z -> (j < AreaProfile.samples p)%Z ->
     exists ci cj : R,
       get (AreaProfile.cumulative p') i = Some ci
       /\ get (AreaProfile.cumulative p') j = Some cj
       /\ ci <= cj)
  /\ exists r1 r2 : R,
       AreaProfile.resistanceUpTo p' (Some x1) = Some r1
       /\ AreaProfile.resistanceUpTo p' (Some x2) = Some r2
       /\ r1 <= r2.
Proof.
  intros Hp HN Hpos Hrho Hx1 Hx12 Hx2 p'.
  destruct (precompute_real _ _ rho _ Hp HN Hpos)
    as (Hlen & Hsam & Hcs & [rest Hcum] & _).
  fold p' in Hlen, Hsam, Hcum.
  set (cs := real_table len rho areas (AreaProfile.samples p)) in *.
  assert (Hnd : nondecreasing cs).
  { apply real_table_nondecreasing; try lra; auto. apply (rp_samples Hp). }
  split.
  - intros i j Hij Hj. exists (nth (Z.to_nat i) cs 0), (nth (Z.to_nat j) cs 0).
    rewrite Hcum, !get_real by lia.
    split; [reflexivity|]. split; [reflexivity|].
    apply Hnd. lia.
  - apply (monotone_queries p' len cs rest x1 x2); auto; lia.
Qed.

Lemma resistanceUpTo_monotone_witness :
  exists r1 r2 : R,
    AreaProfile.resistanceUpTo
      (AreaProfile.precompute demo_profile (Some (Some 1))) (Some (1 / 4))
    = Some r1
    /\ AreaProfile.resistanceUpTo
         (AreaProfile.precompute demo_profile (Some (Some 1))) (Some (3 / 4))
       = Some r2
    /\ r1 <= r2.
Proof.
  apply (resistanceUpTo_monotone demo_profile 1 1 [1; 2; 1] (1 / 4) (3 / 4)).
  - exact demo_profile_real.
  - cbn. lia.
  - repeat constructor; lra.
  - lra.
  - lra.
  - lra.
  - lra.
Defined.

Lemma interpolate_at_zero (cs : list R) : interpolate cs 0 = nth 0 cs 0.
Proof.
  unfold interpolate. rewrite (Int_part_IZR 0). cbn [Z.to_nat]. lra.
Qed.

Lemma interpolate_at_end (cs : list R) :
  (1 <= length cs)%nat ->
  interpolate cs (IZR (Z.of_nat (length cs) - 1))
  = nth (Z.to_nat (Z.of_nat (length cs) - 1)) cs 0.
Proof.
  intros H. unfold interpolate. rewrite Int_part_IZR.
  rewrite Z.min_l by lia. lra.
Qed.

(** C2: after [precompute(rho)] on a profile of [N >= 1] samples over a
    length [L > 0] ([dx = L / (N - 1)]), the first [N] entries of the
    cumulative table are reals [cs] with [cs[0] = 0] and
    [cs[i] = cs[i - 1] + rho * dx / A_i], the area [A_i] converted from mm^2
    to m^2; [totalR] is [cs[N - 1]]; [resistanceUpTo(0)] is 0 and
    [resistanceUpTo(L)] is [totalR]. *)
Theorem precompute_cumulative (p : AreaProfile.t) (len rho : R)
    (areas : list R) :
  real_profile p len areas ->
  (1 <= AreaProfile.samples p)%Z ->
  Forall (fun a => 0 < a) areas ->
  0 < len ->
  let p' := AreaProfile.precompute p (Some (Some rho)) in
  let n := AreaProfile.samples p in
  let dx := len / IZR (n - 1) in
  exists cs : list R,
    Z.of_nat (length cs) = n
    /\ (forall i, (0 <= i < n)%Z ->
          get (AreaProfile.cumulative p') i = Some (nth (Z.to_nat i) cs 0))
    /\ nth 0 cs 0 = 0
    /\ (forall i, (1 <= i < n)%Z ->
          nth (Z.to_nat i) cs 0
          = nth (Z.to_nat (i - 1)) cs 0
            + rho * dx / (nth (Z.to_nat i) areas 0 * (1 / 1000000)))
    /\ AreaProfile.totalR p' = Some (nth (Z.to_nat (n - 1)) cs 0)
    /\ AreaProfile.resistanceUpTo p' (Some 0) = Some 0
    /\ AreaProfile.resistanceUpTo p' (Some len) = AreaProfile.totalR p'.
Proof.
  intros Hp HN Hpos Hlen0 p' n dx.
  destruct (precompute_real _ _ rho _ Hp HN Hpos)
    as (Hlen & Hsam & Hcs & [rest Hcum] & Htot).
  fold p' in Hlen, Hsam, Hcum, Htot. fold n in Hcs, Htot, Hsam, Hcum.
  set (cs := real_table len rho areas n) in *.
  assert (Hl : len <> 0) by lra.
  assert (HN' : (1 <= AreaProfile.samples p')%Z) by lia.
  assert (Hcs' : Z.of_nat (length cs) = AreaProfile.samples p') by lia.
  assert (Hget : forall i, (0 <= i < n)%Z ->
            get (AreaProfile.cumulative p') i = Some (nth (Z.to_nat i) cs 0)).
  { intros i Hi. rewrite Hcum. apply get_real. lia. }
  exists cs.
  split; [exact Hcs|]. split; [exact Hget|]. split; [reflexivity|].
  split; [|split; [|split]].
  - intros i Hi.
    assert (Hstep : get (AreaProfile.cumulative p') i
              = (get (AreaProfile.cumulative p') (i - 1)
                 + resistance_term p (Some rho) i)%num).
    { unfold p'. rewrite precompute_unfold. cbv zeta. cbn [nullish].
      cbn [AreaProfile.with_cumulative AreaProfile.cumulative].
      apply cumulative_table_step. exact Hi. }
    rewrite !Hget in Hstep by lia.
    rewrite (resistance_term_real p len rho areas i Hp Hpos Hi) in Hstep.
    cbn [num_add number lift2] in Hstep.
    apply (f_equal (fun o : option R => o ?? 0)) in Hstep.
    cbn [nullish] in Hstep.
    rewrite Hstep. unfold real_term, dx. fold n.
    assert (Ha : 0 < nth (Z.to_nat i) areas 0).
    { rewrite Forall_forall in Hpos. apply Hpos, nth_In.
      pose proof (rp_samples Hp). lia. }
    assert (Hd : IZR (n - 1) <> 0) by (apply not_0_IZR; lia).
    field. split; lra.
  - exact Htot.
  - rewrite (resistanceUpTo_real _ _ _ _ _ Hlen Hl Hcum Hcs' HN').
    f_equal. unfold Rdiv. rewrite Rmult_0_l, (clamp01_inside 0) by lra.
    rewrite Rmult_0_l. apply interpolate_at_zero.
  - rewrite (resistanceUpTo_real _ _ _ _ _ Hlen Hl Hcum Hcs' HN'), Htot.
    f_equal. replace (len / len) with 1 by (field; exact Hl).
    rewrite (clamp01_inside 1), Rmult_1_l by lra.
    rewrite Hsam. fold n. rewrite <- Hcs.
    apply interpolate_at_end. lia.
Qed.

(** [areaAt] and [resistanceUpTo] read the position only through
    [t = constrain(x / this.length, 0, 1)]. *)
Lemma query_reads_t {NUM : Number} (p : AreaProfile.t) (x1 x2 : num) :
  P5.constrain (x1 / AreaProfile.length p)%num (of_Z 0) (of_Z 1)
  = P5.constrain (x2 / AreaProfile.length p)%num (of_Z 0) (of_Z 1) ->
  AreaProfile.areaAt p x1 = AreaProfile.areaAt p x2
  /\ AreaProfile.resistanceUpTo p x1 = AreaProfile.resistanceUpTo p x2.
Proof.
  intros H. unfold AreaProfile.areaAt, AreaProfile.resistanceUpTo.
  cbv zeta. rewrite H. split; reflexivity.
Qed.

(** C6: on a profile of length [L > 0], a position [x] outside [[0, L]] is
    answered by [areaAt] and by [resistanceUpTo] exactly as
    [constrain(x, 0, L)] is; both are total functions, no error is raised. *)
Theorem out_of_range_clamped (p : AreaProfile.t) (len x0 : R) :
  AreaProfile.length p = Some len ->
  0 < len ->
  x0 < 0 \/ len < x0 ->
  AreaProfile.areaAt p (Some x0)
  = AreaProfile.areaAt p (P5.constrain (Some x0) (of_Z 0) (Some len))
  /\ AreaProfile.resistanceUpTo p (Some x0)
     = AreaProfile.resistanceUpTo p
         (P5.constrain (Some x0) (of_Z 0) (Some len)).
Proof.
  intros Hlen Hpos Hout. apply query_reads_t. rewrite Hlen.
  unfold P5.constrain at 3.
  cbn [Math_min Math_max of_Z number lift2].
  rewrite !div_real by lra.
  unfold P5.constrain. cbn [Math_min Math_max of_Z number lift2].
  f_equal.
  change (clamp01 (x0 / len) = clamp01 (Rmax (Rmin x0 len) 0 / len)).
  assert (Hinv : 0 < / len) by (apply Rinv_0_lt_compat; exact Hpos).
  destruct Hout as [Hlow|Hhigh].
  - rewrite Rmin_left, Rmax_right by lra.
    unfold Rdiv. rewrite Rmult_0_l, (clamp01_inside 0) by lra.
    apply clamp01_below. unfold Rdiv. nra.
  - rewrite Rmin_right, Rmax_left by lra.
    replace (len / len) with 1 by (field; lra).
    rewrite (clamp01_inside 1) by lra.
    apply clamp01_above.
    apply Rmult_le_reg_r with len; [exact Hpos|].
    unfold Rdiv. rewrite Rmult_assoc, Rinv_l by lra. lra.
Qed.

Lemma out_of_range_clamped_witness :
  AreaProfile.areaAt demo_profile (Some 2)
  = AreaProfile.areaAt demo_profile (P5.constrain (Some 2) (of_Z 0) (Some 1))
  /\ AreaProfile.resistanceUpTo demo_profile (Some 2)
     = AreaProfile.resistanceUpTo demo_profile
         (P5.constrain (Some 2) (of_Z 0) (Some 1)).
Proof.
  apply (out_of_range_clamped demo_profile 1 2).
  - reflexivity.
  - lra.
  - right. lra.
Defined.

End ProfileClaims.

(** C10: whatever the number model, the profile and [rho], a second
    [precompute(rho)] changes nothing: the profile after two calls is the
    profile after one, and [precompute] leaves the area samples, [dx] and
    every field but [cumulative] and [totalR] as they were. *)
Theorem precompute_idempotent {NUM : Number} (p : AreaProfile.t)
    (rho : option num) :
  AreaProfile.precompute (AreaProfile.precompute p rho) rho
  = AreaProfile.precompute p rho
  /\ AreaProfile.precompute p rho
     = AreaProfile.with_cumulative p
         (AreaProfile.cumulative (AreaProfile.precompute p rho))
         (AreaProfile.totalR (AreaProfile.precompute p rho)).
Proof.
  split.
  - rewrite (precompute_unfold (AreaProfile.precompute p rho)).
    rewrite (precompute_unfold p rho). cbv zeta.
    unfold AreaProfile.with_cumulative.
    cbn [AreaProfile.length AreaProfile.samples AreaProfile.minArea
         AreaProfile.maxArea AreaProfile.rng AreaProfile.area AreaProfile.dx
         AreaProfile.cumulative AreaProfile.totalR].
    set (c := cumulative_table p (rho ?? lit 1.7e-8) (AreaProfile.cumulative p)).
    change (cumulative_table _ (rho ?? lit 1.7e-8) c)
      with (cumulative_table p (rho ?? lit 1.7e-8) c).
    unfold c. rewrite cumulative_table_again. reflexivity.
  - reflexivity.
Qed.

(** ** What [generate] computes *)

Section GenerateFacts.
Context {NUM : Number}.
Import JsArray.

Lemma next_generator (g : Mulberry32.t) :
  snd (Mulberry32.next g) = Mulberry32.advance 1 g.
Proof. unfold Mulberry32.next. cbn. destruct (Mulberry32.next_int g). reflexivity. Qed.

Lemma next_value (g : Mulberry32.t) :
  fst (Mulberry32.next g)
  = (of_Z (fst (Mulberry32.next_int g)) / of_Z 4294967296)%num.
Proof. unfold Mulberry32.next. destruct (Mulberry32.next_int g). reflexivity. Qed.

Lemma advance_add (a b : nat) (g : Mulberry32.t) :
  Mulberry32.advance (a + b) g = Mulberry32.advance b (Mulberry32.advance a g).
Proof.
  revert g. induction a as [|a IH]; intros g; [reflexivity|].
  cbn [Nat.add Mulberry32.advance]. apply IH.
Qed.

Lemma next_int_range (g : Mulberry32.t) :
  0 <= fst (Mulberry32.next_int g) < 4294967296.
Proof.
  unfold Mulberry32.next_int, Mulberry32.output. cbn [fst].
  unfold Int32.to_uint32 at 1. apply Z.mod_pos_bound. reflexivity.
Qed.

Lemma add_lobes_generator (k : nat) :
  forall (xNorm val : num) (g : Mulberry32.t),
    snd (AreaProfile.add_lobes k xNorm val g) = Mulberry32.advance (2 * k) g.
Proof.
  induction k as [|k IH]; intros xNorm val g; [reflexivity|].
  cbn [AreaProfile.add_lobes].
  destruct (Mulberry32.next g) as [u1 g1] eqn:E1.
  destruct (Mulberry32.next g1) as [u2 g2] eqn:E2.
  rewrite IH.
  assert (H1 : g1 = Mulberry32.advance 1 g)
    by (rewrite <- next_generator, E1; reflexivity).
  assert (H2 : g2 = Mulberry32.advance 1 g1)
    by (rewrite <- next_generator, E2; reflexivity).
  rewrite H2, H1, <- !advance_add. f_equal. lia.
Qed.

Lemma sample_value_generator (p : AreaProfile.t) (lobes : num) (i : Z)
    (g : Mulberry32.t) :
  snd (AreaProfile.sample_value p lobes i g)
  = Mulberry32.advance (2 * AreaProfile.iterations lobes + 1) g.
Proof.
  unfold AreaProfile.sample_value.
  pose proof (add_lobes_generator (AreaProfile.iterations lobes)
                (of_Z i / of_Z (AreaProfile.samples p - 1))%num (lit 1.4) g)
    as Hg.
  destruct (AreaProfile.add_lobes _ _ _ g) as [val g1]. cbn [snd] in Hg.
  destruct (Mulberry32.next g1) as [u g2] eqn:E. cbn [snd].
  assert (H2 : g2 = Mulberry32.advance 1 g1)
    by (rewrite <- next_generator, E; reflexivity).
  rewrite H2, Hg, <- advance_add. reflexivity.
Qed.

Lemma skipn_tl {A : Type} (m : nat) (a : list A) :
  tl (skipn m a) = skipn (S m) a.
Proof.
  revert a. induction m as [|m IH]; intros [|x a]; cbn [skipn tl];
    try reflexivity.
  rewrite IH. reflexivity.
Qed.

(** The outer loop of [generate] after [m] passes. *)
Lemma generate_loop (p : AreaProfile.t) (lobes : num) (a0 : list num)
    (g : Mulberry32.t) (m : nat) :
  let d := (2 * AreaProfile.iterations lobes + 1)%nat in
  fold_left (AreaProfile.generate_step p lobes) (range 0 (0 + Z.of_nat m))
    (a0, g)
  = (map (fun i => fst (AreaProfile.sample_value p lobes i
                          (Mulberry32.advance (Z.to_nat i * d) g)))
         (range 0 (0 + Z.of_nat m))
     ++ skipn m a0,
     Mulberry32.advance (m * d) g).
Proof.
  intros d. induction m as [|m IH].
  - rewrite range_empty by lia. reflexivity.
  - rewrite range_snoc, fold_left_app, IH. cbn [fold_left].
    unfold AreaProfile.generate_step at 1. cbn [fst snd].
    pose proof (sample_value_generator p lobes (0 + Z.of_nat m)
                  (Mulberry32.advance (m * d) g)) as Hg.
    destruct (AreaProfile.sample_value p lobes (0 + Z.of_nat m)
                (Mulberry32.advance (m * d) g)) as [val g'] eqn:E.
    cbn [snd] in Hg. fold d in Hg.
    rewrite map_app. cbn [map].
    replace (Z.to_nat (0 + Z.of_nat m)) with m by lia.
    rewrite E. cbn [fst].
    f_equal.
    + set (vals := map _ (range 0 (0 + Z.of_nat m))).
      assert (Hlen : length vals = m).
      { unfold vals. rewrite length_map, range_length. lia. }
      replace (0 + Z.of_nat m) with (Z.of_nat (length vals)) by lia.
      rewrite set_after, skipn_tl, <- app_assoc. reflexivity.
    + rewrite Hg, <- advance_add. f_equal. lia.
Qed.

Lemma generate_unfold (p : AreaProfile.t) :
  AreaProfile.generate p
  = AreaProfile.with_area p
      (map (generated_sample p) (range 0 (AreaProfile.samples p))
       ++ skipn (Z.to_nat (AreaProfile.samples p)) (AreaProfile.area p))
      (Mulberry32.advance
         (1 + Z.to_nat (AreaProfile.samples p) * draws_per_sample p)
         (AreaProfile.rng p)).
Proof.
  unfold AreaProfile.generate.
  pose proof (next_generator (AreaProfile.rng p)) as Hg.
  assert (Hl : (of_Z 2 + Math_floor (fst (Mulberry32.next (AreaProfile.rng p))
                                   * of_Z 3))%num = drawn_lobes p)
    by reflexivity.
  destruct (Mulberry32.next (AreaProfile.rng p)) as [u g]. cbn [fst snd] in *.
  rewrite Hl, Hg. clear Hl Hg.
  rewrite range_as_count, generate_loop.
  replace (Z.to_nat (AreaProfile.samples p - 0))
    with (Z.to_nat (AreaProfile.samples p)) by lia.
  fold (draws_per_sample p).
  reflexivity.
Qed.

End GenerateFacts.

(** ** Claims about the constructor and [generate] *)

Section ConstructorClaims.
Context {NUM : Number}.
Import JsArray.

Lemma generated_sample_reads (p q : AreaProfile.t) (i : Z) :
  AreaProfile.samples p = AreaProfile.samples q ->
  AreaProfile.minArea p = AreaProfile.minArea q ->
  AreaProfile.maxArea p = AreaProfile.maxArea q ->
  AreaProfile.rng p = AreaProfile.rng q ->
  generated_sample p i = generated_sample q i.
Proof.
  destruct p, q. cbn. intros -> -> -> ->. reflexivity.
Qed.

Lemma new_filled_ok (n : Z) (v0 : num) :
  0 <= n <= max_length -> new_filled n v0 = Ok (repeat v0 (Z.to_nat n)).
Proof.
  intros H. unfold new_filled.
  destruct (Z.leb_spec 0 n); [|lia].
  destruct (Z.leb_spec n max_length); [|lia]. reflexivity.
Qed.

Lemma new_filled_throws (n : Z) (v0 : num) :
  n < 0 \/ max_length < n -> new_filled n v0 = Throw RangeError.
Proof.
  intros H. unfold new_filled.
  destruct (Z.leb_spec 0 n); [|reflexivity].
  destruct (Z.leb_spec n max_length); [lia|]. reflexivity.
Qed.

(** The constructor in closed form, for a sample count that is a valid
    array length. *)
Lemma new_unfold (o : AreaProfile.opts) (r : Z) :
  let n := AreaProfile.opt_samples o ?? 512 in
  let p0 :=
    AreaProfile.mk (AreaProfile.opt_length o ?? of_Z 1) n
      (AreaProfile.opt_minArea o ?? lit 0.6)
      (AreaProfile.opt_maxArea o ?? lit 3.2)
      (Mulberry32.new (AreaProfile.opt_seed o ?? r))
      (repeat (of_Z 1) (Z.to_nat n))
      ((AreaProfile.opt_length o ?? of_Z 1) / of_Z (n - 1))%num
      (repeat (of_Z 0) (Z.to_nat n)) (of_Z 1) in
  0 <= n <= max_length ->
  AreaProfile.new o r
  = Ok (AreaProfile.with_area p0
          (map (generated_sample p0) (range 0 n))
          (Mulberry32.advance (1 + Z.to_nat n * draws_per_sample p0)
             (Mulberry32.new (AreaProfile.opt_seed o ?? r)))).
Proof.
  intros n p0 Hn. unfold AreaProfile.new. fold n.
  rewrite !new_filled_ok by exact Hn.
  fold p0. rewrite generate_unfold. f_equal. f_equal.
  cbn [AreaProfile.area AreaProfile.samples p0].
  rewrite skipn_all2 by (rewrite repeat_length; lia).
  apply app_nil_r.
Qed.

End ConstructorClaims.

(** C5: two constructions with the same sample count, the same area bounds
    and the same seed give the same area samples and leave the generator in
    the same state, whatever the lengths and whatever [Math.random] would
    have returned; and [next()] is a function of the generator state alone,
    returning [u / 2^32] for an integer [0 <= u < 2^32]. *)
Theorem same_seed_same_area {NUM : Number} (o1 o2 : AreaProfile.opts)
    (seed r1 r2 : Z) :
  AreaProfile.opt_samples o1 = AreaProfile.opt_samples o2 ->
  AreaProfile.opt_minArea o1 = AreaProfile.opt_minArea o2 ->
  AreaProfile.opt_maxArea o1 = AreaProfile.opt_maxArea o2 ->
  AreaProfile.opt_seed o1 = Some seed ->
  AreaProfile.opt_seed o2 = Some seed ->
  match AreaProfile.new o1 r1, AreaProfile.new o2 r2 with
  | JsArray.Ok p1, JsArray.Ok p2 =>
      AreaProfile.area p1 = AreaProfile.area p2
      /\ AreaProfile.rng p1 = AreaProfile.rng p2
  | JsArray.Throw e1, JsArray.Throw e2 => e1 = e2
  | _, _ => False
  end
  /\ (forall g : Mulberry32.t,
        0 <= fst (Mulberry32.next_int g) < 4294967296
        /\ Mulberry32.next g
           = ((of_Z (fst (Mulberry32.next_int g)) / of_Z 4294967296)%num,
              Mulberry32.advance 1 g)).
Proof.
  intros Hs Hmin Hmax Hseed1 Hseed2. split.
  - set (n := AreaProfile.opt_samples o1 ?? 512).
    destruct (Z_le_dec 0 n) as [H0|H0];
      [destruct (Z_le_dec n JsArray.max_length) as [H1|H1]|].
    + rewrite (new_unfold o1 r1) by (fold n; lia).
      rewrite (new_unfold o2 r2) by (rewrite <- Hs; fold n; lia).
      rewrite <- Hs, <- Hmin, <- Hmax, Hseed1, Hseed2. fold n.
      cbn [nullish AreaProfile.with_area AreaProfile.area AreaProfile.rng].
      split.
      * apply map_ext. intros i. apply generated_sample_reads; reflexivity.
      * reflexivity.
    + unfold AreaProfile.new. rewrite <- Hs. fold n.
      rewrite !new_filled_throws by lia. reflexivity.
    + unfold AreaProfile.new. rewrite <- Hs. fold n.
      rewrite !new_filled_throws by lia. reflexivity.
  - intros g. split; [apply next_int_range|].
    rewrite (surjective_pairing (Mulberry32.next g)).
    rewrite next_value, next_generator. reflexivity.
Qed.

Lemma same_seed_same_area_witness :
  match
    AreaProfile.new
      (@AreaProfile.mkOpts Exact.number (Some (Exact.real 1)) (Some 3) None None
         (Some 42)) 7,
    AreaProfile.new
      (@AreaProfile.mkOpts Exact.number (Some (Exact.real 2)) (Some 3) None None
         (Some 42)) 9
  with
  | JsArray.Ok p1, JsArray.Ok p2 =>
      AreaProfile.area p1 = AreaProfile.area p2
      /\ AreaProfile.rng p1 = AreaProfile.rng p2
  | JsArray.Throw e1, JsArray.Throw e2 => e1 = e2
  | _, _ => False
  end.
Proof.
  exact (proj1 (@same_seed_same_area Exact.number
                  (AreaProfile.mkOpts (Some (Exact.real 1)) (Some 3) None None
                     (Some 42))
                  (AreaProfile.mkOpts (Some (Exact.real 2)) (Some 3) None None
                     (Some 42))
                  42 7 9 eq_refl eq_refl eq_refl eq_refl eq_refl)).
Defined.

Section ExactGenerate.
Import Exact JsArray.
Local Open Scope R_scope.

Lemma lift2_none_r (f : R -> R -> R) (a : option R) : lift2 f a None = None.
Proof. destruct a; reflexivity. Qed.

(** Over the reals the number of lobes is an integer from 2 to 4. *)
Lemma drawn_lobes_real (p : @AreaProfile.t Exact.number) :
  exists k : Z,
    (2 <= k <= 4)%Z
    /\ drawn_lobes p = Some (IZR k)
    /\ AreaProfile.iterations (drawn_lobes p) = Z.to_nat k.
Proof.
  unfold drawn_lobes. rewrite next_value.
  pose proof (next_int_range (AreaProfile.rng p)) as Hu.
  set (u := fst (Mulberry32.next_int (AreaProfile.rng p))) in *.
  cbn [of_Z number]. rewrite div_real by lra.
  cbn [num_add num_mul Math_floor number lift1 lift2].
  set (q := IZR u / 4294967296 * 3).
  assert (Hq : 0 <= q < 3).
  { unfold q. assert (0 <= IZR u) by (apply IZR_le; lia).
    assert (IZR u < 4294967296) by (apply IZR_lt; lia). lra. }
  pose proof (Int_part_bounds q) as Hb.
  assert (Hz : (0 <= Int_part q <= 2)%Z).
  { split.
    - rewrite <- (Int_part_IZR 0). apply Int_part_le. lra.
    - assert (IZR (Int_part q) < 3) by lra.
      apply lt_IZR in H. lia. }
  exists (2 + Int_part q)%Z. split; [lia|].
  rewrite <- plus_IZR. split; [reflexivity|].
  unfold AreaProfile.iterations. cbn [to_index number index].
  rewrite integer_IZR. reflexivity.
Qed.

Lemma add_lobes_not_a_number (k : nat) (val : option R) (g : Mulberry32.t) :
  (1 <= k)%nat -> fst (AreaProfile.add_lobes k None val g) = None.
Proof.
  assert (Hnone : forall k' v' g', v' = None ->
            fst (AreaProfile.add_lobes k' None v' g') = None).
  { induction k' as [|k' IH]; intros v' g' ->; [reflexivity|].
    cbn [AreaProfile.add_lobes].
    destruct (Mulberry32.next g') as [u1 g1].
    destruct (Mulberry32.next g1) as [u2 g2].
    apply IH. reflexivity. }
  intros Hk. destruct k as [|k]; [lia|].
  cbn [AreaProfile.add_lobes].
  destruct (Mulberry32.next g) as [u1 g1].
  destruct (Mulberry32.next g1) as [u2 g2].
  apply Hnone.
  cbn [num_add num_mul Math_sin number].
  rewrite (lift2_none_r Rmult). cbn [lift2 lift1].
  rewrite (lift2_none_r Rmult). apply lift2_none_r.
Qed.

End ExactGenerate.

(** C9, as the code has it: the constructor has no guard.  For every sample
    count [N] that is a valid array length, so for [N = 0], [N = 1] and for
    every length [L], it returns a profile of [N] area samples whose [dx] is
    the quotient [L / (N - 1)] as the division gives it; for a negative [N]
    it throws a RangeError; and for [N = 1], in exact arithmetic, the one
    area sample is not a number: nothing clamps it. *)
Theorem constructor_unguarded :
  (forall (NUM : Number) (o : AreaProfile.opts) (r : Z),
     let n := AreaProfile.opt_samples o ?? 512 in
     let len := AreaProfile.opt_length o ?? of_Z 1 in
     (0 <= n <= JsArray.max_length ->
      exists p : AreaProfile.t,
        AreaProfile.new o r = JsArray.Ok p
        /\ AreaProfile.samples p = n
        /\ AreaProfile.length p = len
        /\ Z.of_nat (length (AreaProfile.area p)) = n
        /\ AreaProfile.dx p = (len / of_Z (n - 1))%num)
     /\ (n < 0 -> AreaProfile.new o r = JsArray.Throw JsArray.RangeError))
  /\ (forall (o : @AreaProfile.opts Exact.number) (r : Z),
        AreaProfile.opt_samples o = Some 1 ->
        exists p : AreaProfile.t,
          AreaProfile.new o r = JsArray.Ok p
          /\ AreaProfile.area p = [nan]).
Proof.
  split.
  - intros NUM o r n len. split.
    + intros Hn. eexists. split; [apply new_unfold; exact Hn|].
      cbn [AreaProfile.with_area AreaProfile.samples AreaProfile.length
           AreaProfile.area AreaProfile.dx].
      repeat split. rewrite length_map, range_length. lia.
    + intros Hn. unfold AreaProfile.new. fold n.
      rewrite new_filled_throws by lia. reflexivity.
  - intros o r Hs. eexists. split.
    + apply new_unfold. rewrite Hs. cbn. unfold JsArray.max_length. lia.
    + cbn [AreaProfile.with_area AreaProfile.area]. rewrite Hs.
      cbn [nullish]. change (range 0 1) with [0]. cbn [map]. f_equal.
      unfold generated_sample, AreaProfile.sample_value.
      cbn [AreaProfile.samples AreaProfile.rng].
      set (p0 := AreaProfile.mk _ _ _ _ _ _ _ _ _).
      destruct (drawn_lobes_real p0) as (k & Hk & _ & Hit).
      rewrite Hit.
      replace (of_Z 0 / of_Z (1 - 1))%num with (@nan Exact.number).
      2:{ cbn. unfold Exact.div. destruct (Req_dec_T 0 0); congruence. }
      pose proof (add_lobes_not_a_number (Z.to_nat k) (@lit Exact.number 1.4)
                    (Mulberry32.advance (1 + Z.to_nat 0 * draws_per_sample p0)
                       (AreaProfile.rng p0))) as Hnan.
      destruct (AreaProfile.add_lobes _ _ _ _) as [val g1].
      cbn [fst] in Hnan. rewrite Hnan by lia.
      destruct (Mulberry32.next g1) as [u g2]. cbn [fst].
      cbn [num_add Math_min Math_max Exact.number Exact.lift2].
      rewrite !lift2_none_r. reflexivity.
Qed.

Lemma constructor_unguarded_witness :
  exists p : AreaProfile.t,
    AreaProfile.new
      (@AreaProfile.mkOpts Exact.number (Some (Exact.real 0)) (Some 1) None
         None (Some 42)) 0
    = JsArray.Ok p
    /\ AreaProfile.area p = [nan].
Proof.
  exact (proj2 constructor_unguarded
           (@AreaProfile.mkOpts Exact.number (Some (Exact.real 0)) (Some 1)
              None None (Some 42))
           0 eq_refl).
Defined.

(** C9, as the claim has it, fails: a sample count of -1 is below 2 and the
    constructor throws. *)
Lemma constructor_throws :
  AreaProfile.new
    (@AreaProfile.mkOpts Exact.number None (Some (-1)) None None None) 0
  = JsArray.Throw JsArray.RangeError.
Proof. reflexivity. Qed.

(** C3, on the code: [generate] draws the phase and the frequency of every
    lobe anew for every sample.  With [samples = 2] and [seed = 42] it
    chooses 3 lobes; sample 0 is computed from the generator after 1 draw and
    sample 1 from the generator after 8 draws, so the phase of the first lobe
    comes from the draw 1925393290 / 2^32 for sample 0 and from the draw
    3717185310 / 2^32 for sample 1. *)
Theorem generate_redraws_per_sample :
  AreaProfile.new
    (@AreaProfile.mkOpts Exact.number None (Some 2) None None (Some 42)) 0
  = JsArray.Ok (AreaProfile.generate seed42_profile)
  /\ AreaProfile.iterations (drawn_lobes seed42_profile) = 3%nat
  /\ AreaProfile.area (AreaProfile.generate seed42_profile)
     = [generated_sample seed42_profile 0; generated_sample seed42_profile 1]
  /\ generated_sample seed42_profile 0
     = fst (AreaProfile.sample_value seed42_profile
              (drawn_lobes seed42_profile) 0
              (Mulberry32.advance 1 (AreaProfile.rng seed42_profile)))
  /\ generated_sample seed42_profile 1
     = fst (AreaProfile.sample_value seed42_profile
              (drawn_lobes seed42_profile) 1
              (Mulberry32.advance 8 (AreaProfile.rng seed42_profile)))
  /\ fst (Mulberry32.next_int
            (Mulberry32.advance 1 (AreaProfile.rng seed42_profile)))
     = 1925393290
  /\ fst (Mulberry32.next_int
            (Mulberry32.advance 8 (AreaProfile.rng seed42_profile)))
     = 3717185310.
Proof.
  assert (Hit : AreaProfile.iterations (drawn_lobes seed42_profile) = 3%nat).
  { unfold drawn_lobes. rewrite next_value.
    replace (fst (Mulberry32.next_int (AreaProfile.rng seed42_profile)))
      with 2581720956 by (vm_compute; reflexivity).
    cbn [of_Z Exact.number]. rewrite div_real by lra.
    cbn [num_add num_mul Math_floor Exact.number Exact.lift1 Exact.lift2].
    rewrite (Int_part_unique (2581720956 / 4294967296 * 3) 1) by lra.
    rewrite <- plus_IZR. unfold AreaProfile.iterations.
    cbn [to_index Exact.number Exact.index]. rewrite integer_IZR.
    reflexivity. }
  assert (Hd : draws_per_sample seed42_profile = 7%nat).
  { unfold draws_per_sample. rewrite Hit. reflexivity. }
  split; [reflexivity|]. split; [exact Hit|].
  split.
  { rewrite generate_unfold. reflexivity. }
  unfold generated_sample. rewrite Hd.
  split; [reflexivity|]. split; [reflexivity|].
  split; vm_compute; reflexivity.
Qed.

(** ** The generated samples over the reals *)

Section GenerateReal.
Import Exact JsArray RealProfile.
Local Open Scope R_scope.

Lemma next_real (g : Mulberry32.t) :
  exists u : R,
    0 <= u < 1
    /\ Mulberry32.next g = (Some u, Mulberry32.advance 1 g).
Proof.
  pose proof (next_int_range g) as Hu.
  exists (IZR (fst (Mulberry32.next_int g)) / 4294967296). split.
  - assert (0 <= IZR (fst (Mulberry32.next_int g))) by (apply IZR_le; lia).
    assert (IZR (fst (Mulberry32.next_int g)) < 4294967296)
      by (apply IZR_lt; lia).
    lra.
  - rewrite (surjective_pairing (Mulberry32.next g)).
    rewrite next_value, next_generator.
    cbn [of_Z number]. rewrite div_real by lra. reflexivity.
Qed.

Lemma add_lobes_real (k : nat) :
  forall (xn val : R) (g : Mulberry32.t),
    exists val' : R,
      fst (AreaProfile.add_lobes k (Some xn) (Some val) g) = Some val'.
Proof.
  induction k as [|k IH]; intros xn val g.
  - exists val. reflexivity.
  - cbn [AreaProfile.add_lobes].
    destruct (next_real g) as (u1 & _ & ->).
    destruct (next_real (Mulberry32.advance 1 g)) as (u2 & _ & ->).
    cbn [lit of_Z num_add num_mul Math_sin Math_PI number lift1 lift2].
    apply IH.
Qed.

(** Every sample [generate] stores is a real between the bounds. *)
Lemma sample_value_real (p : AreaProfile.t) (lobes : @num Exact.number)
    (i : Z)
    (g : Mulberry32.t) (lo hi : R) :
  AreaProfile.minArea p = Some lo ->
  AreaProfile.maxArea p = Some hi ->
  lo <= hi ->
  (2 <= AreaProfile.samples p)%Z ->
  exists a : R,
    fst (AreaProfile.sample_value p lobes i g) = Some a /\ lo <= a <= hi.
Proof.
  intros Hlo Hhi Hle HN. unfold AreaProfile.sample_value.
  cbn [of_Z number]. rewrite div_real by (apply not_0_IZR; lia).
  cbn [lit number].
  destruct (add_lobes_real (AreaProfile.iterations lobes)
              (IZR i / IZR (AreaProfile.samples p - 1)) (Q2R 1.4) g)
    as (val & Hval).
  destruct (AreaProfile.add_lobes _ _ _ g) as [val0 g1].
  cbn [fst] in Hval. subst val0.
  destruct (next_real g1) as (u & _ & ->).
  rewrite Hlo, Hhi. cbn [fst num_add num_sub num_mul Math_min Math_max
                         number lift2].
  eexists. split; [reflexivity|].
  split.
  - apply Rmin_glb; [exact Hle | apply Rmax_l].
  - apply Rmin_l.
Qed.

(** The profile the constructor returns for real options: its area samples
    are reals between [minArea] and [maxArea]. *)
Lemma new_real_profile (o : AreaProfile.opts) (r : Z) (len lo hi : R) :
  AreaProfile.opt_length o ?? of_Z 1 = Some len ->
  AreaProfile.opt_minArea o ?? lit 0.6 = Some lo ->
  AreaProfile.opt_maxArea o ?? lit 3.2 = Some hi ->
  lo <= hi ->
  (2 <= AreaProfile.opt_samples o ?? 512 <= max_length)%Z ->
  exists (p : AreaProfile.t) (areas : list R),
    AreaProfile.new o r = Ok p
    /\ AreaProfile.samples p = AreaProfile.opt_samples o ?? 512%Z
    /\ real_profile p len areas
    /\ Forall (fun a => lo <= a <= hi) areas.
Proof.
  intros Hlen Hlo Hhi Hle HN.
  pose proof (new_unfold o r) as Hnew. cbv zeta in Hnew.
  specialize (Hnew ltac:(lia)).
  set (n := AreaProfile.opt_samples o ?? 512%Z) in *.
  set (p0 := AreaProfile.mk _ _ _ _ _ _ _ _ _) in Hnew.
  assert (Hs : forall i, exists a : R,
             generated_sample p0 i = Some a /\ lo <= a <= hi).
  { intros i. unfold generated_sample.
    apply sample_value_real; [exact Hlo | exact Hhi | exact Hle|].
    cbn [AreaProfile.samples p0]. lia. }
  set (areas := map (fun i => generated_sample p0 i ?? 0) (range 0 n)).
  assert (Hareas : map (generated_sample p0) (range 0 n) = map Some areas).
  { unfold areas. rewrite map_map. apply map_ext. intros i.
    destruct (Hs i) as (a & -> & _). reflexivity. }
  eexists. exists areas. split; [exact Hnew|].
  cbn [AreaProfile.with_area AreaProfile.samples p0].
  split; [reflexivity|]. split.
  - split.
    + exact Hlen.
    + exact Hareas.
    + unfold areas. cbn [AreaProfile.samples AreaProfile.with_area p0].
      rewrite length_map, range_length. lia.
    + reflexivity.
  - unfold areas. rewrite Forall_forall. intros a Ha.
    apply in_map_iff in Ha. destruct Ha as (i & <- & _).
    destruct (Hs i) as (a & -> & Hb). exact Hb.
Qed.

End GenerateReal.

(** ** Constructed profiles *)

Section ConstructedProfiles.
Import Exact JsArray RealProfile.
Local Open Scope R_scope.

(** X1: a profile constructed with at least two samples, a positive length and
    bounds [0 < minArea <= maxArea] has a resistance that never decreases
    along the bar once [precompute(rho)] has run with [rho > 0]. *)
Theorem constructed_profile_monotone (o : AreaProfile.opts) (r : Z)
    (len lo hi rho x1 x2 : R) :
  AreaProfile.opt_length o ?? of_Z 1 = Some len ->
  AreaProfile.opt_minArea o ?? lit 0.6 = Some lo ->
  AreaProfile.opt_maxArea o ?? lit 3.2 = Some hi ->
  0 < lo -> lo <= hi ->
  (2 <= AreaProfile.opt_samples o ?? 512 <= max_length)%Z ->
  0 < rho ->
  0 <= x1 -> x1 < x2 -> x2 <= len ->
  exists p : AreaProfile.t,
    AreaProfile.new o r = Ok p
    /\ exists r1 r2 : R,
         AreaProfile.resistanceUpTo
           (AreaProfile.precompute p (Some (Some rho))) (Some x1) = Some r1
         /\ AreaProfile.resistanceUpTo
              (AreaProfile.precompute p (Some (Some rho))) (Some x2) = Some r2
         /\ r1 <= r2.
Proof.
  intros Hlen Hlo Hhi Hpos Hle HN Hrho Hx1 Hx12 Hx2.
  destruct (new_real_profile o r len lo hi Hlen Hlo Hhi Hle HN)
    as (p & areas & Hnew & Hs & Hp & Hb).
  assert (Hareas : Forall (fun a => 0 < a) areas).
  { rewrite Forall_forall in *. intros a Ha. specialize (Hb a Ha). lra. }
  assert (HN1 : (1 <= AreaProfile.samples p)%Z) by lia.
  destruct (precompute_real _ _ rho _ Hp HN1 Hareas)
    as (Hlen' & Hsam & Hcs & [rest Hcum] & _).
  exists p. split; [exact Hnew|].
  apply (monotone_queries _ len _ rest x1 x2 Hlen' Hcum); try lra; try lia.
  apply real_table_nondecreasing; try lra; auto. apply (rp_samples Hp).
Qed.

Lemma constructed_profile_monotone_witness :
  exists p : AreaProfile.t,
    AreaProfile.new
      (AreaProfile.mkOpts (Some (Exact.real 1)) (Some 3%Z) None None
         (Some 42%Z)) 0
    = Ok p
    /\ exists r1 r2 : R,
         AreaProfile.resistanceUpTo
           (AreaProfile.precompute p (Some (Some 1))) (Some (1 / 4)) = Some r1
         /\ AreaProfile.resistanceUpTo
              (AreaProfile.precompute p (Some (Some 1))) (Some (3 / 4))
            = Some r2
         /\ r1 <= r2.
Proof.
  apply (constructed_profile_monotone
           (AreaProfile.mkOpts (Some (Exact.real 1)) (Some 3%Z) None None
              (Some 42%Z))
           0 1 (Q2R 0.6) (Q2R 3.2) 1 (1 / 4) (3 / 4)).
  - reflexivity.
  - reflexivity.
  - reflexivity.
  - apply Q2R_pos. reflexivity.
  - unfold Q2R. cbn [Qnum Qden]. lra.
  - cbn. unfold max_length. lia.
  - lra.
  - lra.
  - lra.
  - lra.
Defined.

(** The specification's example: [L = 1.0], [rho = 1.7e-8],
    [minArea = 0.6], [maxArea = 3.2], [seed = 42]. *)
Lemma precompute_cumulative_witness :
  exists p : AreaProfile.t,
    AreaProfile.new
      (AreaProfile.mkOpts (Some (Exact.real 1)) None (Some (lit 0.6))
         (Some (lit 3.2)) (Some 42%Z)) 0
    = Ok p
    /\ AreaProfile.resistanceUpTo
         (AreaProfile.precompute p (Some (lit 1.7e-8))) (Some 0)
       = Some 0
    /\ AreaProfile.resistanceUpTo
         (AreaProfile.precompute p (Some (lit 1.7e-8))) (Some 1)
       = AreaProfile.totalR (AreaProfile.precompute p (Some (lit 1.7e-8))).
Proof.
  destruct (new_real_profile
              (AreaProfile.mkOpts (Some (Exact.real 1)) None (Some (lit 0.6))
                 (Some (lit 3.2)) (Some 42%Z))
              0 1 (Q2R 0.6) (Q2R 3.2) eq_refl eq_refl eq_refl)
    as (p & areas & Hnew & Hs & Hp & Hb).
  - unfold Q2R. cbn [Qnum Qden]. lra.
  - cbn. unfold max_length. lia.
  - assert (Hlo : 0 < Q2R 0.6) by (apply Q2R_pos; reflexivity).
    destruct (precompute_cumulative p 1 (Q2R 1.7e-8) areas)
      as (cs & _ & _ & _ & _ & _ & H0 & H1).
    + exact Hp.
    + rewrite Hs. cbn. lia.
    + rewrite Forall_forall in *. intros a Ha. specialize (Hb a Ha). lra.
    + lra.
    + exists p. split; [exact Hnew|]. split; [exact H0 | exact H1].
Defined.

End ConstructedProfiles.

(** ** Claims about [MeasurementLog] and [measureVoltage] *)

Section ScanFacts.
Context {NUM : Number}.
Variable S : Type.
Variable fn : num -> S -> num * S.

Lemma scan_loop (step : num) (ixs : list Z) :
  forall (d : list MeasurementLog.sample) (s : S),
    fold_left (MeasurementLog.scan_step fn step) ixs (MeasurementLog.mk d, s)
    = (MeasurementLog.mk
         (d ++ fst (call_each fn (map (fun i => (of_Z i * step)%num) ixs) s)),
       snd (call_each fn (map (fun i => (of_Z i * step)%num) ixs) s)).
Proof.
  induction ixs as [|i ixs IH]; intros d s.
  - cbn. rewrite app_nil_r. reflexivity.
  - cbn [fold_left map call_each].
    unfold MeasurementLog.scan_step at 2. cbn [fst snd].
    destruct (fn (of_Z i * step)%num s) as [v0 s1].
    unfold MeasurementLog.add. cbn [MeasurementLog.data].
    rewrite IH.
    destruct (call_each fn (map (fun i0 => (of_Z i0 * step)%num) ixs) s1)
      as [rest s2].
    cbn [fst snd]. rewrite <- app_assoc. reflexivity.
Qed.

Lemma autoScan_unfold (l : MeasurementLog.t) (len : num) (count : option Z)
    (s : S) :
  MeasurementLog.autoScan fn l len count s
  = (MeasurementLog.mk (fst (call_each fn (positions len (count ?? 24)) s)),
     snd (call_each fn (positions len (count ?? 24)) s)).
Proof.
  unfold MeasurementLog.autoScan, MeasurementLog.clear. cbv zeta.
  rewrite scan_loop. reflexivity.
Qed.

Lemma call_each_positions (xs : list num) :
  forall s : S, map (@MeasurementLog.x NUM) (fst (call_each fn xs s)) = xs.
Proof.
  induction xs as [|x0 xs IH]; intros s; [reflexivity|].
  cbn [call_each]. destruct (fn x0 s) as [v0 s1].
  specialize (IH s1). destruct (call_each fn xs s1) as [rest s2].
  cbn [fst map MeasurementLog.x] in *. rewrite IH. reflexivity.
Qed.

End ScanFacts.

Lemma call_each_trace {NUM : Number} (f : num -> num) (xs : list num) :
  forall trace : list num,
    snd (call_each (fun x0 tr => (f x0, tr ++ [x0])) xs trace) = trace ++ xs.
Proof.
  induction xs as [|x0 xs IH]; intros trace.
  - cbn. rewrite app_nil_r. reflexivity.
  - cbn [call_each]. specialize (IH (trace ++ [x0])).
    destruct (call_each _ xs (trace ++ [x0])) as [rest s2].
    cbn [snd] in *. rewrite IH, <- app_assoc. reflexivity.
Qed.

Lemma range_nth (lo hi : Z) (i : nat) (d : Z) :
  (i < Z.to_nat (hi - lo))%nat -> nth i (range lo hi) d = lo + Z.of_nat i.
Proof.
  intros H. unfold range.
  rewrite (nth_indep _ d ((fun k => lo + Z.of_nat k) O))
    by (rewrite length_map, length_seq; exact H).
  rewrite (map_nth (fun k => lo + Z.of_nat k)), seq_nth by exact H.
  reflexivity.
Qed.

Section RealScan.
Import Exact.
Local Open Scope R_scope.

Lemma positions_real (len : R) (n : Z) :
  (2 <= n)%Z ->
  positions (Some len) n = map Some (real_positions len n).
Proof.
  intros Hn. unfold positions, real_positions. rewrite map_map.
  apply map_ext. intros i. cbn [of_Z number].
  rewrite div_real by (apply not_0_IZR; lia). reflexivity.
Qed.

Lemma real_positions_nth (len : R) (n i : Z) :
  (0 <= i < n)%Z ->
  nth (Z.to_nat i) (real_positions len n) 0 = IZR i * (len / IZR (n - 1)).
Proof.
  intros Hi. unfold real_positions.
  rewrite (nth_indep _ 0 ((fun j => IZR j * (len / IZR (n - 1))) 0%Z))
    by (rewrite length_map, range_length; lia).
  rewrite (map_nth (fun j => IZR j * (len / IZR (n - 1)))).
  rewrite range_nth by lia. f_equal. f_equal. lia.
Qed.

End RealScan.

(** C8: [autoScan(length, fn, count)] forgets what the log held and logs one
    sample per position [i * length / (count - 1)], [i = 0 .. count - 1], in
    this order, with one call of [fn] per position: [count] samples (24 when
    [count] is 24 or left out).  Over the reals, for [count >= 2] and
    [length > 0], the positions start at 0, end at [length], are evenly
    spaced and increase. *)
Theorem autoScan_samples :
  (forall (NUM : Number) (S : Type) (fn : num -> S -> num * S)
          (l : MeasurementLog.t) (len : num) (count : option Z) (s : S),
     let n := count ?? 24 in
     let r := MeasurementLog.autoScan fn l len count s in
     r = (MeasurementLog.mk (fst (call_each fn (positions len n) s)),
          snd (call_each fn (positions len n) s))
     /\ map (@MeasurementLog.x NUM) (MeasurementLog.data (fst r))
        = positions len n
     /\ length (MeasurementLog.data (fst r)) = Z.to_nat n
     /\ (n = 24 -> length (MeasurementLog.data (fst r)) = 24%nat))
  /\ (forall (NUM : Number) (f : num -> num) (l : MeasurementLog.t)
             (len : num) (count : option Z) (trace : list num),
        snd (MeasurementLog.autoScan (fun x0 tr => (f x0, tr ++ [x0]))
               l len count trace)
        = trace ++ positions len (count ?? 24))
  /\ (forall (len : R) (n : Z),
        2 <= n -> (0 < len)%R ->
        @positions Exact.number (Some len) n = map Some (real_positions len n)
        /\ Z.of_nat (length (real_positions len n)) = n
        /\ nth 0 (real_positions len n) 0%R = 0%R
        /\ nth (Z.to_nat (n - 1)) (real_positions len n) 0%R = len
        /\ (forall i, 0 <= i < n - 1 ->
              (nth (Z.to_nat (i + 1)) (real_positions len n) 0
               - nth (Z.to_nat i) (real_positions len n) 0
               = len / IZR (n - 1))%R)
        /\ (forall i j, 0 <= i < j -> j < n ->
              (nth (Z.to_nat i) (real_positions len n) 0
               < nth (Z.to_nat j) (real_positions len n) 0)%R)).
Proof.
  split; [|split].
  - intros NUM S fn l len count s n r. subst r.
    rewrite autoScan_unfold. fold n. cbn [fst MeasurementLog.data].
    assert (Hlen : length (fst (call_each fn (positions len n) s))
                   = Z.to_nat n).
    { rewrite <- (length_map (@MeasurementLog.x NUM)), call_each_positions.
      unfold positions. rewrite length_map, range_length. f_equal. lia. }
    split; [reflexivity|]. split; [apply call_each_positions|].
    split; [exact Hlen|]. intros H24. rewrite Hlen, H24. reflexivity.
  - intros NUM f l len count trace. rewrite autoScan_unfold. cbn [snd].
    apply call_each_trace.
  - intros len n Hn Hlen.
    assert (Hd : (0 < IZR (n - 1))%R) by (apply IZR_lt; lia).
    assert (Hstep : (0 < len / IZR (n - 1))%R)
      by (apply Rdiv_lt_0_compat; assumption).
    split; [apply positions_real; exact Hn|].
    split; [unfold real_positions; rewrite length_map, range_length; lia|].
    split.
    { pose proof (real_positions_nth len n 0 ltac:(lia)) as H0.
      cbn [Z.to_nat] in H0. rewrite H0. lra. }
    split.
    { rewrite real_positions_nth by lia. field. lra. }
    split.
    + intros i Hi. rewrite !real_positions_nth by lia.
      rewrite plus_IZR. lra.
    + intros i j Hij Hj. rewrite !real_positions_nth by lia.
      apply Rmult_lt_compat_r; [exact Hstep|]. apply IZR_lt. lia.
Qed.

Lemma autoScan_samples_witness :
  @positions Exact.number (Some 1%R) 24 = map Some (real_positions 1 24)
  /\ nth (Z.to_nat (24 - 1)) (real_positions 1 24) 0%R = 1%R.
Proof.
  destruct (proj2 (proj2 autoScan_samples) 1%R 24 ltac:(lia) ltac:(lra))
    as (H1 & _ & _ & H4 & _).
  split; [exact H1 | exact H4].
Defined.

(** C7: [measureVoltage(x)] returns
    [currentA * resistanceUpTo(x) + noiseStd * z] for the one draw [z] it
    takes from [randomGaussian], and changes nothing but the position of
    the source of draws; two calls that are handed the same draw return the
    same value; and in exact arithmetic a zero [noiseStd] or a zero draw
    leaves exactly [currentA * resistanceUpTo(x)]. *)
Theorem measureVoltage_reading :
  (forall (NUM : Number) (e : VarAreaExperiment.t) (x0 : num)
          (g : P5.Gaussian),
     VarAreaExperiment.measureVoltage e x0 g
     = ((VarAreaExperiment.currentA e
         * AreaProfile.resistanceUpTo (VarAreaExperiment.areaProfile e) x0
         + VarAreaExperiment.noiseStd e * P5.draws g (P5.taken g))%num,
        P5.mkGaussian (P5.draws g) (S (P5.taken g))))
  /\ (forall (NUM : Number) (e : VarAreaExperiment.t) (x0 : num)
             (g1 g2 : P5.Gaussian),
        P5.draws g1 (P5.taken g1) = P5.draws g2 (P5.taken g2) ->
        fst (VarAreaExperiment.measureVoltage e x0 g1)
        = fst (VarAreaExperiment.measureVoltage e x0 g2))
  /\ (forall (e : @VarAreaExperiment.t Exact.number)
             (x0 : @num Exact.number) (g : @P5.Gaussian Exact.number)
             (sigma z : R),
        VarAreaExperiment.noiseStd e = Some sigma ->
        P5.draws g (P5.taken g) = Some z ->
        sigma = 0%R \/ z = 0%R ->
        fst (VarAreaExperiment.measureVoltage e x0 g)
        = (VarAreaExperiment.currentA e
           * AreaProfile.resistanceUpTo (VarAreaExperiment.areaProfile e) x0)
          %num).
Proof.
  split; [|split].
  - intros NUM e x0 g. reflexivity.
  - intros NUM e x0 g1 g2 H. unfold VarAreaExperiment.measureVoltage.
    cbn [P5.randomGaussian fst]. rewrite H. reflexivity.
  - intros e x0 g sigma z Hs Hz H0.
    unfold VarAreaExperiment.measureVoltage. cbn [P5.randomGaussian fst].
    rewrite Hs, Hz.
    cbn [num_add num_mul Exact.number Exact.lift2].
    replace (sigma * z)%R with 0%R by (destruct H0; subst; ring).
    destruct (Exact.lift2 Rmult _ _) as [v0|]; [|reflexivity].
    cbn [Exact.lift2]. f_equal. ring.
Qed.

(** The specification's example: [I = 0.25], [sigma = 0], a draw fixed to
    zero. *)
Lemma measureVoltage_reading_witness :
  fst (VarAreaExperiment.measureVoltage quiet_experiment
         (Exact.real (1 / 2)) zero_draws)
  = (VarAreaExperiment.currentA quiet_experiment
     * AreaProfile.resistanceUpTo
         (VarAreaExperiment.areaProfile quiet_experiment)
         (Exact.real (1 / 2)))%num.
Proof.
  exact (proj2 (proj2 measureVoltage_reading) quiet_experiment
           (Exact.real (1 / 2)) zero_draws 0%R 0%R eq_refl eq_refl
           (or_introl eq_refl)).
Defined.

(** ** Claims about the Johnson-noise sketch *)

Section TaperFacts.
Context {NUM : Number}.
Import JsArray.

Lemma integrate_step_shape (e : TaperExperiment.t) (c : list num) (i : Z) :
  TaperExperiment.integrate_step e c i
  = set c i (get c (i - 1) + taper_dR e i)%num.
Proof. reflexivity. Qed.

(** The constructor in closed form. *)
Lemma taper_new (seed : Z) :
  TaperExperiment.new seed
  = Ok (TaperExperiment.with_cumulative (taper_blank seed)
          (of_Z 0
           :: running_sums (taper_dR (taper_blank seed)) (of_Z 0) 1 511)).
Proof.
  change (TaperExperiment.new seed)
    with (Ok (TaperExperiment.with_cumulative (taper_blank seed)
                (fold_left (TaperExperiment.integrate_step (taper_blank seed))
                   (range 1 512) (repeat (of_Z 0) 512)))).
  apply f_equal. apply f_equal.
  pose proof (accumulate_loop (taper_dR (taper_blank seed))
                (TaperExperiment.integrate_step (taper_blank seed))
                (integrate_step_shape (taper_blank seed))
                511 [] (repeat (of_Z 0) 511) (of_Z 0)) as H.
  rewrite skipn_all2, app_nil_r in H by (rewrite repeat_length; lia).
  exact H.
Qed.

(** The table the constructor leaves obeys the recurrence of its loop. *)
Lemma taper_table_recurrence (seed : Z) (i : Z) :
  1 <= i <= 511 ->
  let c := of_Z 0
           :: running_sums (taper_dR (taper_blank seed)) (of_Z 0) 1 511 in
  get c i = (get c (i - 1) + taper_dR (taper_blank seed) i)%num.
Proof.
  intros Hi c. unfold c.
  set (sums := running_sums (taper_dR (taper_blank seed)) (of_Z 0) 1 511).
  replace i with (Z.of_nat (S (Z.to_nat (i - 1)))) at 1 by lia.
  replace (i - 1) with (Z.of_nat (Z.to_nat (i - 1))) at 2 by lia.
  rewrite !get_nth.
  set (j := Z.to_nat (i - 1)).
  change (nth (S j) (of_Z 0 :: sums) nan) with (nth j sums nan).
  unfold sums at 1. rewrite running_sums_nth by lia. fold sums.
  replace (1 + Z.of_nat j) with i by lia.
  reflexivity.
Qed.

End TaperFacts.

Section TaperExact.
Import Exact JsArray RealProfile TaperReals.
Local Open Scope R_scope.

Lemma taper_constants :
  0 < len /\ 0 < dx /\ 0 < ell /\ 0 < r0 /\ 0 < rho /\ 0 < k_b /\ 0 < ampStd.
Proof.
  assert (Hlen : 0 < len) by (apply Q2R_pos; vm_compute; reflexivity).
  assert (Hdx : 0 < dx) by (unfold dx; lra).
  repeat split; try assumption; apply Q2R_pos; vm_compute; reflexivity.
Qed.

Lemma taper_radius_pos (i : Z) :
  0 < r0 * Rtrigo_def.exp (- (IZR i * dx) / ell).
Proof.
  destruct taper_constants as (_ & _ & _ & Hr & _).
  apply Rmult_lt_0_compat; [exact Hr | apply exp_pos].
Qed.

Lemma taper_area_pos (i : Z) :
  0 < Rtrigo1.PI * powerRZ (r0 * Rtrigo_def.exp (- (IZR i * dx) / ell)) 2.
Proof.
  apply Rmult_lt_0_compat; [apply PI_RGT_0|].
  apply powerRZ_lt, taper_radius_pos.
Qed.

Lemma taper_term_pos (i : Z) : 0 < taper_term i.
Proof.
  destruct taper_constants as (_ & Hdx & _ & _ & Hrho & _).
  unfold taper_term. apply Rdiv_lt_0_compat; [|apply taper_area_pos].
  apply Rmult_lt_0_compat; assumption.
Qed.

Lemma pow_square (r : R) : Math_pow (Some r) (of_Z 2) = Some (powerRZ r 2).
Proof.
  cbn [Math_pow of_Z number]. unfold pow. rewrite integer_IZR. reflexivity.
Qed.

Lemma taper_dx_real : (lit 0.01 / of_Z (512 - 1))%num = Some dx.
Proof.
  cbn [lit of_Z number]. rewrite div_real; [reflexivity|].
  apply not_0_IZR. lia.
Qed.

Lemma taper_dR_real (seed : Z) (i : Z) :
  taper_dR (taper_blank seed) i = Some (taper_term i).
Proof.
  destruct taper_constants as (Hlen & Hdx0 & Hell0 & Hr00 & Hrho0 & _).
  unfold taper_dR, TaperExperiment.areaAt, TaperExperiment.radiusAt.
  cbn [taper_blank TaperExperiment.rho TaperExperiment.dx
       TaperExperiment.ell TaperExperiment.r0].
  rewrite taper_dx_real.
  cbn [lit of_Z num_mul num_neg Math_exp Math_PI number lift1 lift2].
  fold ell r0 rho.
  rewrite (div_real (- (IZR i * dx)) ell) by lra.
  cbn [lift1 lift2]. rewrite pow_square. cbn [lift2].
  rewrite div_real by (pose proof (taper_area_pos i); lra).
  reflexivity.
Qed.

(** The state the constructor returns, over the reals. *)
Lemma taper_new_real (seed : Z) :
  exists e : TaperExperiment.t,
    TaperExperiment.new seed = Ok e
    /\ TaperExperiment.cumulative e = map Some taper_table
    /\ TaperExperiment.L e = Some len
    /\ TaperExperiment.samples e = 512%Z
    /\ TaperExperiment.dx e = Some dx
    /\ TaperExperiment.currentA e = Some (Q2R 0.25)
    /\ TaperExperiment.k_b e = Some k_b
    /\ TaperExperiment.tempK e = Some 300
    /\ TaperExperiment.noiseBW e = Some 9000000000
    /\ TaperExperiment.readings e = [].
Proof.
  eexists. split; [apply taper_new|].
  split.
  { cbn [TaperExperiment.with_cumulative TaperExperiment.cumulative].
    unfold taper_table. rewrite map_cons.
    change (@of_Z Exact.number 0) with (@Some R 0).
    rewrite (running_sums_real
               (@taper_dR Exact.number (taper_blank seed)) taper_term 511
               0 1 (fun i _ => taper_dR_real seed i)).
    reflexivity. }
  split; [reflexivity|]. split; [reflexivity|].
  split; [exact taper_dx_real|].
  repeat split.
Qed.

Lemma taper_table_length : length taper_table = 512%nat.
Proof. unfold taper_table. cbn [length]. rewrite real_sums_length. reflexivity. Qed.

Lemma taper_table_nondecreasing : nondecreasing taper_table.
Proof.
  unfold taper_table. apply real_sums_nondecreasing.
  intros i _. apply Rlt_le, taper_term_pos.
Qed.

Lemma taper_table_nonneg (i : nat) :
  (i < 512)%nat -> 0 <= nth i taper_table 0.
Proof.
  intros H. change 0 with (nth 0 taper_table 0) at 1.
  apply taper_table_nondecreasing. rewrite taper_table_length. lia.
Qed.

Lemma Rmax_IZR (a b : Z) : Rmax (IZR a) (IZR b) = IZR (Z.max a b).
Proof.
  destruct (Z.le_gt_cases a b) as [H|H].
  - rewrite Z.max_r by lia. apply Rmax_right, IZR_le, H.
  - rewrite Z.max_l by lia. apply Rmax_left, IZR_le. lia.
Qed.

(** The table entry the handler reads for a probe at the real [x0], in
    exact arithmetic: its index is the floor of the exact quotient [x0 / dx],
    clamped.  The doubles of the program floor the rounded quotient, which
    within one rounding of a sample position [i * dx] may be [i - 1] where
    the exact floor is [i], or the reverse; what follows uses this lemma
    only for what holds whichever of the two entries is read, or at a
    position in the middle of a cell. *)
Lemma res_curr_real (e : TaperExperiment.t) (x0 : R) :
  TaperExperiment.cumulative e = map Some taper_table ->
  TaperExperiment.dx e = Some dx ->
  TaperExperiment.probeX e = Some x0 ->
  TaperExperiment.res_curr e
  = Some (nth (Z.to_nat (Z.max (Z.min (Int_part (x0 / dx)) 511) 0))
            taper_table 0).
Proof.
  intros Hcum Hdx Hx. unfold TaperExperiment.res_curr.
  destruct taper_constants as (_ & Hdx0 & _).
  rewrite Hcum, Hdx, Hx, length_map, taper_table_length.
  rewrite div_real by lra.
  unfold P5.constrain.
  cbn [Math_floor Math_min Math_max of_Z number lift1 lift2].
  change (Z.of_nat 512 - 1)%Z with 511%Z.
  rewrite Rmin_IZR, Rmax_IZR.
  rewrite <- (app_nil_r (map Some taper_table)).
  apply get_num_real. rewrite taper_table_length. lia.
Qed.

(** The handler reads one of the 512 entries of the table. *)
Lemma res_curr_entry (e : TaperExperiment.t) (x0 : R) :
  TaperExperiment.cumulative e = map Some taper_table ->
  TaperExperiment.dx e = Some dx ->
  TaperExperiment.probeX e = Some x0 ->
  exists k : Z,
    (0 <= k <= 511)%Z
    /\ TaperExperiment.res_curr e = Some (nth (Z.to_nat k) taper_table 0).
Proof.
  intros Hcum Hdx Hx.
  exists (Z.max (Z.min (Int_part (x0 / dx)) 511) 0). split; [lia|].
  apply res_curr_real; assumption.
Qed.

Lemma total_std_defined (r : R) :
  0 <= r ->
  Math_sqrt
    (Math_sqrt (of_Z 4 * Some k_b * Some 300 * Some r * Some 9000000000)%num
     * Math_sqrt (of_Z 4 * Some k_b * Some 300 * Some r * Some 9000000000)%num
     + lit 0.003 * lit 0.003)%num
  = Some (total_std r).
Proof.
  intros Hr. destruct taper_constants as (_ & _ & _ & _ & _ & Hk & Ha).
  cbn [of_Z lit num_add num_mul number lift2].
  assert (H1 : 0 <= 4 * k_b * 300 * r * 9000000000).
  { apply Rmult_le_pos; [apply Rmult_le_pos; [apply Rmult_le_pos;
      [apply Rmult_le_pos|]|]|]; lra. }
  rewrite !sqrt_real by exact H1.
  cbn [num_add num_mul number lift2]. fold ampStd.
  rewrite sqrt_real.
  - reflexivity.
  - apply Rplus_le_le_0_compat.
    + apply Rmult_le_pos; apply sqrt_pos.
    + apply Rmult_le_pos; lra.
Qed.

End TaperExact.

Section TaperReading.
Import Exact JsArray RealProfile TaperReals.
Local Open Scope R_scope.

Lemma real_sums_nth (term : Z -> R) (k : nat) :
  forall (acc : R) (lo : Z) (j : nat) (d : R),
    (j < k)%nat ->
    nth j (real_sums term acc lo k) d
    = nth j (acc :: real_sums term acc lo k) d + term (lo + Z.of_nat j)%Z.
Proof.
  induction k as [|k IH]; intros acc lo j d Hj; [lia|].
  destruct j as [|j].
  - cbn. replace (lo + 0)%Z with lo by lia. reflexivity.
  - cbn [real_sums nth]. rewrite IH by lia.
    cbn [nth]. do 2 f_equal. lia.
Qed.

Lemma nth_succ_cons (a : R) (l : list R) (d : R) (j : nat) :
  nth (S j) (a :: l) d = nth j l d.
Proof. reflexivity. Qed.

Lemma taper_table_step (j : nat) :
  (j < 511)%nat ->
  nth (S j) taper_table 0
  = nth j taper_table 0 + taper_term (1 + Z.of_nat j).
Proof.
  intros H. unfold taper_table.
  rewrite (nth_succ_cons 0 (real_sums taper_term 0 1 511) 0 j).
  apply real_sums_nth. exact H.
Qed.

(** The value both readings give the voltage from a resistance [r], a
    current [i0] and a draw [z]. *)
Lemma noisy_reading_real (i0 r z : R) :
  0 <= r ->
  (Some i0 * Some r
   + Math_sqrt
       (Math_sqrt (of_Z 4 * Some k_b * Some 300 * Some r * Some 9000000000)
        * Math_sqrt (of_Z 4 * Some k_b * Some 300 * Some r * Some 9000000000)
        + lit 0.003 * lit 0.003)
     * Some z)%num
  = Some (i0 * r + total_std r * z).
Proof.
  intros Hr. rewrite (total_std_defined r Hr). reflexivity.
Qed.

(** C4, as the code has it: the [Add Reading] handler measures
    [I * R + totalStd * z] for the draw [z], where [R] is the entry of the
    cumulative table at the index
    [constrain(floor(probeX / dx), 0, cumulative.length - 1)], the quotient
    and its floor being the ones the number model computes, read as it
    stands and not interpolated,
    [johnsonStd = sqrt(4 * k_b * T * R * BW)] and
    [totalStd = sqrt(johnsonStd^2 + 0.003^2)]; the reading is appended to
    [readings] with the probe position.  This holds for every number model,
    and so for the doubles of the program.  The table is the one the
    constructor builds: 512 entries, the first 0, each next one adding
    [rho * dx / areaAt(i * dx)].  In exact arithmetic [R] is a real that is
    not negative, one of the 512 entries, and the reading is a real. *)
Theorem taper_measure_reading :
  (forall (NUM : Number) (e : TaperExperiment.t) (g : P5.Gaussian),
     let idx :=
       P5.constrain
         (Math_floor (TaperExperiment.probeX e / TaperExperiment.dx e)%num)
         (of_Z 0)
         (of_Z (Z.of_nat (length (TaperExperiment.cumulative e)) - 1)) in
     let r := get_num (TaperExperiment.cumulative e) idx in
     let johnsonStd :=
       Math_sqrt (of_Z 4 * TaperExperiment.k_b e * TaperExperiment.tempK e
                  * r * TaperExperiment.noiseBW e)%num in
     let totalStd :=
       Math_sqrt (johnsonStd * johnsonStd + lit 0.003 * lit 0.003)%num in
     let vMeas :=
       (TaperExperiment.currentA e * r
        + totalStd * P5.draws g (P5.taken g))%num in
     TaperExperiment.res_curr e = r
     /\ TaperExperiment.measure e g
        = (vMeas, P5.mkGaussian (P5.draws g) (S (P5.taken g)))
     /\ TaperExperiment.addReading e g
        = (TaperExperiment.with_readings e
             (TaperExperiment.readings e
              ++ [(TaperExperiment.probeX e, vMeas)]),
           P5.mkGaussian (P5.draws g) (S (P5.taken g))))
  /\ (forall (NUM : Number) (seed : Z),
        exists e0 : TaperExperiment.t,
          TaperExperiment.new seed = Ok e0
          /\ length (TaperExperiment.cumulative e0) = 512%nat
          /\ get (TaperExperiment.cumulative e0) 0 = of_Z 0
          /\ (forall i : Z,
                (1 <= i <= 511)%Z ->
                get (TaperExperiment.cumulative e0) i
                = (get (TaperExperiment.cumulative e0) (i - 1)
                   + TaperExperiment.rho e0 * TaperExperiment.dx e0
                     / TaperExperiment.areaAt e0
                         (of_Z i * TaperExperiment.dx e0))%num)
          /\ TaperExperiment.dx e0 = (lit 0.01 / of_Z 511)%num
          /\ TaperExperiment.k_b e0 = lit 1.380649e-23
          /\ TaperExperiment.tempK e0 = of_Z 300
          /\ TaperExperiment.noiseBW e0 = of_Z 9000000000
          /\ TaperExperiment.readings e0 = [])
  /\ (forall (seed : Z) (x0 i0 z : R) (g : @P5.Gaussian Exact.number),
        P5.draws g (P5.taken g) = Some z ->
        exists (e0 : TaperExperiment.t) (k : Z) (r : R),
          TaperExperiment.new seed = Ok e0
          /\ (0 <= k <= 511)%Z
          /\ get (TaperExperiment.cumulative e0) k = Some r
          /\ 0 <= r
          /\ let e :=
               TaperExperiment.with_currentA
                 (TaperExperiment.with_probeX e0 (Some x0)) (Some i0) in
             TaperExperiment.res_curr e = Some r
             /\ TaperExperiment.measure e g
                = (Some (i0 * r + total_std r * z),
                   P5.mkGaussian (P5.draws g) (S (P5.taken g)))
             /\ TaperExperiment.readings
                  (fst (TaperExperiment.addReading e g))
                = [(Some x0, Some (i0 * r + total_std r * z))]).
Proof.
  split; [|split].
  - intros NUM e g idx r johnsonStd totalStd vMeas.
    split; [reflexivity|].
    assert (Hm : TaperExperiment.measure e g
                 = (vMeas, P5.mkGaussian (P5.draws g) (S (P5.taken g))))
      by reflexivity.
    split; [exact Hm|].
    unfold TaperExperiment.addReading. rewrite Hm. reflexivity.
  - intros NUM seed. eexists. split; [apply taper_new|].
    cbn [TaperExperiment.with_cumulative TaperExperiment.cumulative].
    split.
    { cbn [length]. rewrite running_sums_length. reflexivity. }
    split; [reflexivity|]. split.
    { intros i Hi. apply (taper_table_recurrence seed i Hi). }
    repeat split.
  - intros seed x0 i0 z g Hz.
    destruct (taper_new_real seed)
      as (e0 & Hnew & Hcum & HL & Hn & Hdx & HI & Hk & HT & HBW & Hread).
    set (e := TaperExperiment.with_currentA
                (TaperExperiment.with_probeX e0 (Some x0)) (Some i0)).
    destruct (res_curr_entry e x0 Hcum Hdx eq_refl) as (k & Hk511 & Hres).
    set (r := nth (Z.to_nat k) taper_table 0) in *.
    exists e0, k, r. split; [exact Hnew|]. split; [exact Hk511|].
    assert (Hr : 0 <= r) by (apply taper_table_nonneg; lia).
    split.
    { rewrite Hcum, <- (app_nil_r (map Some taper_table)).
      apply get_real. rewrite taper_table_length. lia. }
    split; [exact Hr|]. fold e.
    assert (Hm : TaperExperiment.measure e g
                 = (Some (i0 * r + total_std r * z),
                    P5.mkGaussian (P5.draws g) (S (P5.taken g)))).
    { unfold TaperExperiment.measure. rewrite Hres.
      cbn [P5.randomGaussian]. rewrite Hz.
      cbn [TaperExperiment.currentA TaperExperiment.k_b TaperExperiment.tempK
           TaperExperiment.noiseBW TaperExperiment.with_currentA
           TaperExperiment.with_probeX e].
      rewrite Hk, HT, HBW.
      rewrite (noisy_reading_real i0 r z Hr). reflexivity. }
    split; [exact Hres|]. split; [exact Hm|].
    unfold TaperExperiment.addReading. rewrite Hm.
    cbn [fst TaperExperiment.with_readings TaperExperiment.readings
         TaperExperiment.probeX TaperExperiment.with_currentA
         TaperExperiment.with_probeX e].
    rewrite Hread. reflexivity.
Qed.

End TaperReading.

Section TaperCounterexample.
Import Exact JsArray RealProfile TaperReals.
Local Open Scope R_scope.

Lemma taper_measure_reading_witness :
  P5.draws negative_draws (P5.taken negative_draws) = Some (-1)
  /\ exists (e0 : TaperExperiment.t) (k : Z) (r : R),
       TaperExperiment.new 0 = Ok e0
       /\ (0 <= k <= 511)%Z
       /\ get (TaperExperiment.cumulative e0) k = Some r
       /\ 0 <= r
       /\ TaperExperiment.measure
            (TaperExperiment.with_currentA
               (TaperExperiment.with_probeX e0 (Some (3 / 2 * dx)))
               (Some (1 / 4)))
            negative_draws
          = (Some (1 / 4 * r + total_std r * -1),
             P5.mkGaussian (P5.draws negative_draws)
               (S (P5.taken negative_draws))).
Proof.
  split; [reflexivity|].
  destruct (proj2 (proj2 taper_measure_reading) 0%Z (3 / 2 * dx) (1 / 4)
              (-1) negative_draws eq_refl)
    as (e0 & k & r & Hnew & Hk & Hget & Hr & _ & Hm & _).
  exists e0, k, r.
  split; [exact Hnew|]. split; [exact Hk|]. split; [exact Hget|].
  split; [exact Hr | exact Hm].
Defined.

(** C4, as the claim has it, fails: with the probe halfway between the
    samples 1 and 2 and a draw that is zero, the handler measures
    [I * cumulative[1]], and the interpolated reading is larger. *)
Lemma reading_not_interpolated :
  exists e0 : TaperExperiment.t,
    TaperExperiment.new 0 = Ok e0
    /\ fst (TaperExperiment.measure
              (TaperExperiment.with_probeX e0 (Some (3 / 2 * dx))) zero_draws)
       <> fst (spec_measure
                 (TaperExperiment.with_probeX e0 (Some (3 / 2 * dx)))
                 zero_draws).
Proof.
  destruct (taper_new_real 0)
    as (e0 & Hnew & Hcum & HL & Hn & Hdx & HI & Hk & HT & HBW & Hread).
  destruct taper_constants as (Hlen & Hdx0 & _).
  exists e0. split; [exact Hnew|].
  set (e := TaperExperiment.with_probeX e0 (Some (3 / 2 * dx))).
  set (c1 := nth 1 taper_table 0).
  set (c2 := nth 2 taper_table 0).
  assert (Hc1 : 0 <= c1) by (apply taper_table_nonneg; lia).
  assert (Hc2 : c2 = c1 + taper_term 2).
  { unfold c1, c2. apply (taper_table_step 1). lia. }
  pose proof (taper_term_pos 2) as Ht.
  (* the handler *)
  assert (Hidx : Int_part (3 / 2 * dx / dx) = 1%Z).
  { apply Int_part_unique.
    - replace (3 / 2 * dx / dx) with (3 / 2) by (field; lra). lra.
    - replace (3 / 2 * dx / dx) with (3 / 2) by (field; lra). lra. }
  assert (Hres : TaperExperiment.res_curr e = Some c1).
  { unfold e. rewrite (res_curr_real _ (3 / 2 * dx)); auto.
    rewrite Hidx. reflexivity. }
  assert (Hm : fst (TaperExperiment.measure e zero_draws)
               = Some (Q2R 0.25 * c1 + total_std c1 * 0)).
  { unfold TaperExperiment.measure. rewrite Hres.
    cbn [P5.randomGaussian zero_draws P5.draws P5.taken fst].
    cbn [TaperExperiment.currentA TaperExperiment.k_b TaperExperiment.tempK
         TaperExperiment.noiseBW TaperExperiment.with_probeX e].
    rewrite HI, Hk, HT, HBW. unfold real.
    apply (noisy_reading_real (Q2R 0.25) c1 0 Hc1). }
  (* the interpolated reading *)
  assert (HnE : TaperExperiment.samples e = 512%Z) by exact Hn.
  assert (HLE : TaperExperiment.L e = Some len) by exact HL.
  assert (HcE : TaperExperiment.cumulative e = map Some taper_table)
    by exact Hcum.
  assert (Hr : interpolated_resistance e = Some (c1 + (c2 - c1) / 2)).
  { unfold interpolated_resistance.
    rewrite (resistanceUpTo_real _ len taper_table [] (3 / 2 * dx)).
    - f_equal. cbn [AreaProfile.samples]. rewrite HnE.
      change (512 - 1)%Z with 511%Z.
      replace (3 / 2 * dx / len) with (3 / 1022) by (unfold dx; field; lra).
      rewrite clamp01_inside by lra.
      replace (3 / 1022 * 511) with (3 / 2) by lra.
      unfold interpolate. rewrite (Int_part_unique (3 / 2) 1) by lra.
      rewrite taper_table_length.
      change (Z.to_nat (Z.min (Z.of_nat 512 - 1) (1 + 1))) with 2%nat.
      change (Z.to_nat 1) with 1%nat. fold c1 c2. lra.
    - exact HLE.
    - lra.
    - cbn [AreaProfile.cumulative]. rewrite app_nil_r. exact HcE.
    - cbn [AreaProfile.samples]. rewrite taper_table_length, HnE.
      reflexivity.
    - cbn [AreaProfile.samples]. rewrite HnE. lia. }
  assert (Hs : fst (spec_measure e zero_draws)
               = Some (Q2R 0.25 * (c1 + (c2 - c1) / 2)
                       + total_std (c1 + (c2 - c1) / 2) * 0)).
  { unfold spec_measure. rewrite Hr.
    cbn [P5.randomGaussian zero_draws P5.draws P5.taken fst].
    cbn [TaperExperiment.currentA TaperExperiment.k_b TaperExperiment.tempK
         TaperExperiment.noiseBW TaperExperiment.with_probeX e].
    rewrite HI, Hk, HT, HBW. unfold real.
    apply (noisy_reading_real (Q2R 0.25) (c1 + (c2 - c1) / 2) 0). lra. }
  rewrite Hm, Hs. intros Heq.
  apply (f_equal (fun o : option R => o ?? 0)) in Heq. cbn [nullish] in Heq.
  assert (HQ : Q2R 0.25 = 1 / 4) by (unfold Q2R; cbn; lra).
  rewrite HQ in Heq. lra.
Qed.

End TaperCounterexample.

(** ** The taper *)

Section TaperArea.
Import Exact JsArray RealProfile TaperReals.
Local Open Scope R_scope.

Lemma powerRZ_square (x0 : R) : powerRZ x0 2 = x0 * x0.
Proof. unfold powerRZ. simpl. ring. Qed.

(** The cross-section of the experiment the constructor returns, over the
    reals. *)
Lemma taper_areaAt_real (seed : Z) (x0 : R) :
  exists e : TaperExperiment.t,
    TaperExperiment.new seed = Ok e
    /\ TaperExperiment.areaAt e (Some x0)
       = Some (Rtrigo1.PI
               * ((r0 * Rtrigo_def.exp (- x0 / ell))
                  * (r0 * Rtrigo_def.exp (- x0 / ell)))).
Proof.
  destruct taper_constants as (_ & _ & Hell & _).
  eexists. split; [apply taper_new|].
  unfold TaperExperiment.areaAt, TaperExperiment.radiusAt.
  cbn [taper_blank TaperExperiment.with_cumulative TaperExperiment.ell
       TaperExperiment.r0].
  cbn [lit of_Z num_neg Math_PI number lift1]. fold ell r0.
  rewrite div_real by lra.
  cbn [num_mul Math_exp number lift1 lift2]. rewrite pow_square.
  cbn [lift2]. rewrite powerRZ_square. reflexivity.
Qed.

(** X2: the bar tapers: for every seed the experiment's cross-section
    [areaAt(x) = PI * (r0 * exp(-x / ell))^2] is a positive real at every
    real position and strictly smaller at the larger of two positions. *)
Theorem taper_area_decreases (seed : Z) :
  exists e : TaperExperiment.t,
    TaperExperiment.new seed = Ok e
    /\ forall x1 x2 : R,
         x1 < x2 ->
         exists a1 a2 : R,
           TaperExperiment.areaAt e (Some x1) = Some a1
           /\ TaperExperiment.areaAt e (Some x2) = Some a2
           /\ 0 < a2 < a1.
Proof.
  destruct taper_constants as (_ & _ & Hell & Hr0 & _).
  destruct (taper_areaAt_real seed 0) as (e & Hnew & _).
  exists e. split; [exact Hnew|]. intros x1 x2 Hx.
  destruct (taper_areaAt_real seed x1) as (e1 & Hnew1 & Ha1).
  destruct (taper_areaAt_real seed x2) as (e2 & Hnew2 & Ha2).
  rewrite Hnew in Hnew1, Hnew2.
  injection Hnew1 as <-. injection Hnew2 as <-.
  do 2 eexists. split; [exact Ha1|]. split; [exact Ha2|].
  assert (Hexp : Rtrigo_def.exp (- x2 / ell) < Rtrigo_def.exp (- x1 / ell)).
  { apply exp_increasing. unfold Rdiv.
    assert (0 < / ell) by (apply Rinv_0_lt_compat; exact Hell). nra. }
  pose proof (exp_pos (- x2 / ell)) as Hpos2.
  pose proof PI_RGT_0 as Hpi.
  set (u2 := Rtrigo_def.exp (- x2 / ell)) in *.
  set (u1 := Rtrigo_def.exp (- x1 / ell)) in *.
  assert (Hr2 : 0 < r0 * u2) by (apply Rmult_lt_0_compat; assumption).
  assert (Hr : r0 * u2 < r0 * u1) by (apply Rmult_lt_compat_l; assumption).
  split.
  - apply Rmult_lt_0_compat; [exact Hpi|].
    apply Rmult_lt_0_compat; exact Hr2.
  - apply Rmult_lt_compat_l; [exact Hpi|].
    apply Rmult_le_0_lt_compat; lra.
Qed.

End TaperArea.

(** ** The generator *)

Section GeneratorState.

Lemma round_int_exact (z : Z) : z < Double.two53 -> Double.round_int z = z.
Proof.
  intros H. unfold Double.round_int.
  destruct (z <? Double.two53) eqn:E; [reflexivity|].
  apply Z.ltb_ge in E. lia.
Qed.

Lemma advance_state (n : nat) :
  forall g : Mulberry32.t,
    0 <= Mulberry32.state g ->
    Mulberry32.state g + Z.of_nat n * 0x6D2B79F5 < Double.two53 ->
    Mulberry32.state (Mulberry32.advance n g)
    = Mulberry32.state g + Z.of_nat n * 0x6D2B79F5.
Proof.
  induction n as [|n IH]; intros g H0 Hb.
  - cbn [Mulberry32.advance]. lia.
  - cbn [Mulberry32.advance]. rewrite IH.
    + unfold Mulberry32.next_int. cbn [snd Mulberry32.state].
      rewrite round_int_exact by lia. lia.
    + unfold Mulberry32.next_int. cbn [snd Mulberry32.state].
      rewrite round_int_exact by lia. lia.
    + unfold Mulberry32.next_int. cbn [snd Mulberry32.state].
      rewrite round_int_exact by lia. lia.
Qed.

Lemma to_int32_mod (z : Z) :
  Int32.to_int32 (z mod Int32.two32) = Int32.to_int32 z.
Proof.
  unfold Int32.to_int32. rewrite Z.mod_mod; [reflexivity|].
  unfold Int32.two32. lia.
Qed.

Lemma to_uint32_mod (z : Z) :
  Int32.to_uint32 (z mod Int32.two32) = Int32.to_uint32 z.
Proof.
  unfold Int32.to_uint32. apply Z.mod_mod. unfold Int32.two32. lia.
Qed.

Lemma output_low_bits (s : Z) :
  Mulberry32.output (Int32.to_uint32 s) = Mulberry32.output s.
Proof.
  unfold Mulberry32.output. cbv zeta.
  assert (Hx : forall b, Int32.xor (Int32.to_uint32 s) b = Int32.xor s b).
  { intros b. unfold Int32.xor, Int32.to_uint32. rewrite to_int32_mod.
    reflexivity. }
  assert (Ho : forall b, Int32.or (Int32.to_uint32 s) b = Int32.or s b).
  { intros b. unfold Int32.or, Int32.to_uint32. rewrite to_int32_mod.
    reflexivity. }
  assert (Hs : forall n, Int32.ushr (Int32.to_uint32 s) n = Int32.ushr s n).
  { intros n. unfold Int32.ushr, Int32.to_uint32.
    rewrite Z.mod_mod by (unfold Int32.two32; lia). reflexivity. }
  rewrite !Hx, !Ho, !Hs. reflexivity.
Qed.

Lemma new_state_range (seed : Z) :
  0 <= Mulberry32.state (Mulberry32.new seed) < Int32.two32.
Proof.
  unfold Mulberry32.new, Int32.to_uint32. cbn [Mulberry32.state].
  apply Z.mod_pos_bound. unfold Int32.two32. lia.
Qed.

(** X3: the state of the generator is never cut back to 32 bits: for the
    first 4.9 million calls after [new Mulberry32(seed)] it is the seed, as an
    unsigned 32-bit integer, plus one increment per call, and the value of
    each call is the one Mulberry32 computes from the low 32 bits of that
    sum. *)
Theorem state_never_wraps (seed : Z) (n : nat) :
  Z.of_nat n <= 4900000 ->
  let g := Mulberry32.advance n (Mulberry32.new seed) in
  Mulberry32.state g = Int32.to_uint32 seed + Z.of_nat n * 0x6D2B79F5
  /\ fst (Mulberry32.next_int g)
     = Mulberry32.output
         (Int32.to_uint32 (seed + (Z.of_nat n + 1) * 0x6D2B79F5)).
Proof.
  intros Hn g.
  pose proof (new_state_range seed) as Hr. unfold Int32.two32 in Hr.
  assert (Hs : Mulberry32.state g
               = Int32.to_uint32 seed + Z.of_nat n * 0x6D2B79F5).
  { unfold g. rewrite advance_state.
    - reflexivity.
    - lia.
    - unfold Double.two53. lia. }
  split; [exact Hs|].
  unfold Mulberry32.next_int. cbn [fst]. rewrite Hs.
  rewrite round_int_exact.
  - rewrite <- output_low_bits. f_equal.
    unfold Int32.to_uint32.
    rewrite <- Z.add_assoc, Zplus_mod_idemp_l. f_equal. lia.
  - change (Mulberry32.state (Mulberry32.new seed))
      with (Int32.to_uint32 seed) in Hr.
    unfold Double.two53. lia.
Qed.

Lemma state_never_wraps_witness :
  Z.of_nat 2 <= 4900000
  /\ Mulberry32.state (Mulberry32.advance 2 (Mulberry32.new (-1)))
     = Int32.to_uint32 (-1) + Z.of_nat 2 * 0x6D2B79F5
  /\ fst (Mulberry32.next_int (Mulberry32.advance 2 (Mulberry32.new (-1))))
     = Mulberry32.output
         (Int32.to_uint32 (-1 + (Z.of_nat 2 + 1) * 0x6D2B79F5)).
Proof.
  assert (H : Z.of_nat 2 <= 4900000) by (vm_compute; discriminate).
  split; [exact H|].
  exact (state_never_wraps (-1) 2 H).
Defined.

(** X4: once the incremented state reaches 2^53 it is no longer exact: the
    addition [this.state += 0x6D2B79F5] rounds it to a double, which is then
    a multiple of [2^(log2 z - 52)] where [z] is the exact sum, so an even
    number, and it is at most half that power of two away from [z]. *)
Theorem state_rounds_above_two53 (g : Mulberry32.t) :
  Double.two53 <= Mulberry32.state g + 0x6D2B79F5 ->
  let z := Mulberry32.state g + 0x6D2B79F5 in
  let e := Z.log2 z - 52 in
  let s' := Mulberry32.state (Mulberry32.advance 1 g) in
  1 <= e
  /\ s' mod 2 ^ e = 0
  /\ Z.even s' = true
  /\ 2 * Z.abs (s' - z) <= 2 ^ e.
Proof.
  intros Hz z e s'.
  assert (He : 1 <= e).
  { unfold e. assert (53 <= Z.log2 z); [|lia].
    change 53 with (Z.log2 Double.two53). apply Z.log2_le_mono. exact Hz. }
  assert (Hs : s' = Double.round_int z) by reflexivity.
  unfold Double.round_int in Hs.
  destruct (z <? Double.two53) eqn:E; [apply Z.ltb_lt in E; unfold z in E; lia|].
  fold e in Hs. cbv zeta in Hs.
  set (q := Z.shiftr z e) in Hs.
  set (r := z - Z.shiftl q e) in Hs.
  set (half := Z.shiftl 1 (e - 1)) in Hs.
  assert (Hp : 0 < 2 ^ e) by (apply Z.pow_pos_nonneg; lia).
  assert (Hq : q = z / 2 ^ e) by (unfold q; apply Z.shiftr_div_pow2; lia).
  assert (Hr : r = z mod 2 ^ e).
  { unfold r. rewrite Z.shiftl_mul_pow2 by lia. rewrite Hq.
    pose proof (Z.div_mod z (2 ^ e)). lia. }
  assert (Hh : 2 * half = 2 ^ e).
  { unfold half. rewrite Z.shiftl_mul_pow2 by lia.
    replace e with (1 + (e - 1)) at 2 by lia.
    rewrite Z.pow_add_r by lia. lia. }
  assert (Hrb : 0 <= r < 2 ^ e) by (rewrite Hr; apply Z.mod_pos_bound; exact Hp).
  assert (Hzq : z = q * 2 ^ e + r).
  { rewrite Hq, Hr. pose proof (Z.div_mod z (2 ^ e)). lia. }
  set (q' := if r <? half then q
             else if half <? r then q + 1
             else if Z.even q then q else q + 1) in Hs.
  rewrite Z.shiftl_mul_pow2 in Hs by lia.
  assert (Hq' : (q' = q /\ r <= half) \/ (q' = q + 1 /\ half <= r)).
  { unfold q'. destruct (r <? half) eqn:E1.
    - apply Z.ltb_lt in E1. left. lia.
    - apply Z.ltb_ge in E1. destruct (half <? r) eqn:E2.
      + apply Z.ltb_lt in E2. right. lia.
      + apply Z.ltb_ge in E2. destruct (Z.even q); [left|right]; lia. }
  split; [exact He|]. split; [|split].
  - rewrite Hs. apply Z.mod_mul. lia.
  - rewrite Hs, Z.even_mul, Z.even_pow by lia. apply orb_true_r.
  - rewrite Hs. destruct Hq' as [[-> Hle]|[-> Hle]]; nia.
Qed.

Lemma state_rounds_above_two53_witness :
  Double.two53 <= Mulberry32.state (Mulberry32.mk Double.two53) + 0x6D2B79F5
  /\ Z.even (Mulberry32.state
               (Mulberry32.advance 1 (Mulberry32.mk Double.two53)))
     = true.
Proof.
  assert (H : Double.two53
              <= Mulberry32.state (Mulberry32.mk Double.two53) + 0x6D2B79F5)
    by (vm_compute; discriminate).
  split; [exact H|].
  exact (proj1 (proj2 (proj2 (state_rounds_above_two53 _ H)))).
Defined.

End GeneratorState.

(** ** Queries of a profile *)

Section ProfileQueries.
Import Exact JsArray RealProfile.
Local Open Scope R_scope.

Lemma interpolate_at_index (cs : list R) (i : Z) :
  interpolate cs (IZR i) = nth (Z.to_nat i) cs 0.
Proof.
  unfold interpolate. rewrite Int_part_IZR. lra.
Qed.

Lemma interpolate_within (cs : list R) (idx lo hi : R) :
  Forall (fun a => lo <= a <= hi) cs ->
  0 <= idx <= IZR (Z.of_nat (length cs) - 1) ->
  lo <= interpolate cs idx <= hi.
Proof.
  intros Hb Hidx.
  pose proof (Int_part_index _ _ Hidx) as Hi0.
  pose proof (Int_part_bounds idx) as Hf.
  rewrite Forall_forall in Hb.
  unfold interpolate.
  set (i0 := Int_part idx) in *.
  set (i1 := Z.min (Z.of_nat (length cs) - 1) (i0 + 1)).
  assert (H0 : lo <= nth (Z.to_nat i0) cs 0 <= hi).
  { apply Hb, nth_In. lia. }
  assert (H1 : lo <= nth (Z.to_nat i1) cs 0 <= hi).
  { apply Hb, nth_In. unfold i1. lia. }
  split; nra.
Qed.

Lemma precompute_keeps_profile (p : AreaProfile.t) (rho : option num)
    (len : R) (areas : list R) :
  real_profile p len areas ->
  real_profile (AreaProfile.precompute p rho) len areas.
Proof.
  intros [Hlen Harea Hn Hdx]. rewrite precompute_unfold. cbv zeta.
  split; assumption.
Qed.

(** The position of the sample [i], [i * dx], over the reals. *)
Lemma sample_position_real (p : AreaProfile.t) (len : R) (areas : list R)
    (i : Z) :
  real_profile p len areas ->
  (2 <= AreaProfile.samples p)%Z ->
  (of_Z i * AreaProfile.dx p)%num
  = Some (IZR i * (len / IZR (AreaProfile.samples p - 1))).
Proof.
  intros [Hlen Harea Hn Hdx] HN. rewrite Hdx, Hlen.
  cbn [of_Z number]. rewrite div_real by (apply not_0_IZR; lia).
  reflexivity.
Qed.

Lemma sample_index_real (len : R) (n i : Z) :
  len <> 0 -> (2 <= n)%Z -> (0 <= i < n)%Z ->
  clamp01 (IZR i * (len / IZR (n - 1)) / len) * IZR (n - 1) = IZR i.
Proof.
  intros Hl Hn Hi.
  assert (Hd : 0 < IZR (n - 1)) by (apply IZR_lt; lia).
  assert (Hi0 : 0 <= IZR i) by (apply IZR_le; lia).
  assert (Hi1 : IZR i <= IZR (n - 1)) by (apply IZR_le; lia).
  replace (IZR i * (len / IZR (n - 1)) / len) with (IZR i / IZR (n - 1))
    by (field; split; lra).
  rewrite clamp01_inside.
  - field. lra.
  - split.
    + apply Rmult_le_pos; [exact Hi0|]. apply Rlt_le, Rinv_0_lt_compat, Hd.
    + apply Rmult_le_reg_r with (IZR (n - 1)); [exact Hd|].
      unfold Rdiv. rewrite Rmult_assoc, Rinv_l by lra. lra.
Qed.

(** X5: at the position [i * dx] of the sample [i], [areaAt] returns
    [area[i]] and [resistanceUpTo] returns [cumulative[i]], for a profile of
    at least two samples once [precompute] has run. *)
Theorem queries_at_samples (p : AreaProfile.t) (len rho : R)
    (areas : list R) (i : Z) :
  real_profile p len areas ->
  (2 <= AreaProfile.samples p)%Z ->
  Forall (fun a => 0 < a) areas ->
  len <> 0 ->
  (0 <= i < AreaProfile.samples p)%Z ->
  let p' := AreaProfile.precompute p (Some (Some rho)) in
  let x0 := (of_Z i * AreaProfile.dx p')%num in
  (exists a c : R,
     get (AreaProfile.area p') i = Some a
     /\ get (AreaProfile.cumulative p') i = Some c)
  /\ AreaProfile.areaAt p' x0 = get (AreaProfile.area p') i
  /\ AreaProfile.resistanceUpTo p' x0 = get (AreaProfile.cumulative p') i.
Proof.
  intros Hp HN Hpos Hl Hi p' x0.
  assert (HN1 : (1 <= AreaProfile.samples p)%Z) by lia.
  destruct (precompute_real _ _ rho _ Hp HN1 Hpos)
    as (Hlen & Hsam & Hcs & [rest Hcum] & _).
  fold p' in Hlen, Hsam, Hcum.
  pose proof (precompute_keeps_profile p (Some (Some rho)) len areas Hp) as Hp'.
  fold p' in Hp'.
  set (cs := real_table len rho areas (AreaProfile.samples p)) in *.
  assert (Hx : x0 = Some (IZR i * (len / IZR (AreaProfile.samples p' - 1)))).
  { unfold x0. apply (sample_position_real p' len areas i Hp'). lia. }
  assert (Ha : get (AreaProfile.area p') i = Some (nth (Z.to_nat i) areas 0)).
  { rewrite (rp_area Hp'), <- (app_nil_r (map Some areas)).
    apply get_real. rewrite (rp_samples Hp'). lia. }
  assert (Hc : get (AreaProfile.cumulative p') i
               = Some (nth (Z.to_nat i) cs 0)).
  { rewrite Hcum. apply get_real. lia. }
  split; [|split].
  - do 2 eexists. split; [exact Ha | exact Hc].
  - rewrite Hx, Ha.
    rewrite (areaAt_real p' len areas _ Hp' Hl) by lia.
    rewrite (sample_index_real len _ i Hl) by lia.
    rewrite interpolate_at_index. reflexivity.
  - rewrite Hx, Hc.
    rewrite (resistanceUpTo_real p' len cs rest _ Hlen Hl Hcum) by lia.
    rewrite (sample_index_real len _ i Hl) by lia.
    rewrite interpolate_at_index. reflexivity.
Qed.

Lemma queries_at_samples_witness :
  let p' := AreaProfile.precompute demo_profile (Some (Some 1)) in
  AreaProfile.areaAt p' (of_Z 1 * AreaProfile.dx p')%num
  = get (AreaProfile.area p') 1
  /\ AreaProfile.resistanceUpTo p' (of_Z 1 * AreaProfile.dx p')%num
     = get (AreaProfile.cumulative p') 1.
Proof.
  apply (queries_at_samples demo_profile 1 1 [1; 2; 1] 1).
  - exact demo_profile_real.
  - cbn. lia.
  - repeat constructor; lra.
  - lra.
  - cbn. lia.
Defined.

(** X6: a profile constructed with at least two samples, a real length other
    than 0 and bounds [minArea <= maxArea] has every area sample within
    [[minArea, maxArea]], and [areaAt(x)] is a real number within these
    bounds for every real [x], inside [[0, L]] or not. *)
Theorem constructed_area_within_bounds (o : AreaProfile.opts) (r : Z)
    (len lo hi : R) :
  AreaProfile.opt_length o ?? of_Z 1 = Some len ->
  AreaProfile.opt_minArea o ?? lit 0.6 = Some lo ->
  AreaProfile.opt_maxArea o ?? lit 3.2 = Some hi ->
  lo <= hi ->
  len <> 0 ->
  (2 <= AreaProfile.opt_samples o ?? 512 <= max_length)%Z ->
  exists p : AreaProfile.t,
    AreaProfile.new o r = Ok p
    /\ (forall i : Z,
          (0 <= i < AreaProfile.samples p)%Z ->
          exists a : R, get (AreaProfile.area p) i = Some a /\ lo <= a <= hi)
    /\ (forall x0 : R,
          exists a : R,
            AreaProfile.areaAt p (Some x0) = Some a /\ lo <= a <= hi).
Proof.
  intros Hlen Hlo Hhi Hle Hl HN.
  destruct (new_real_profile o r len lo hi Hlen Hlo Hhi Hle HN)
    as (p & areas & Hnew & Hs & Hp & Hb).
  exists p. split; [exact Hnew|]. split.
  - intros i Hi. exists (nth (Z.to_nat i) areas 0). split.
    + rewrite (rp_area Hp), <- (app_nil_r (map Some areas)).
      apply get_real. rewrite (rp_samples Hp). lia.
    + rewrite Forall_forall in Hb. apply Hb, nth_In.
      pose proof (rp_samples Hp). lia.
  - intros x0. eexists. split.
    + apply (areaAt_real p len areas x0 Hp Hl). lia.
    + apply interpolate_within; [exact Hb|].
      rewrite (rp_samples Hp).
      pose proof (clamp01_bounds (x0 / len)).
      assert (0 <= IZR (AreaProfile.samples p - 1)) by (apply IZR_le; lia).
      nra.
Qed.

Lemma constructed_area_within_bounds_witness :
  exists p : AreaProfile.t,
    AreaProfile.new
      (AreaProfile.mkOpts (Some (Exact.real (-2))) (Some 3%Z)
         (Some (Exact.real 1)) (Some (Exact.real 2)) (Some 42%Z)) 0
    = Ok p
    /\ (forall i : Z,
          (0 <= i < AreaProfile.samples p)%Z ->
          exists a : R, get (AreaProfile.area p) i = Some a /\ 1 <= a <= 2)
    /\ (forall x0 : R,
          exists a : R,
            AreaProfile.areaAt p (Some x0) = Some a /\ 1 <= a <= 2).
Proof.
  apply (constructed_area_within_bounds
           (AreaProfile.mkOpts (Some (Exact.real (-2))) (Some 3%Z)
              (Some (Exact.real 1)) (Some (Exact.real 2)) (Some 42%Z))
           0 (-2) 1 2).
  - reflexivity.
  - reflexivity.
  - reflexivity.
  - lra.
  - lra.
  - cbn. unfold max_length. lia.
Defined.

Lemma interpolate_range (cs : list R) (idx : R) :
  nondecreasing cs ->
  0 <= idx <= IZR (Z.of_nat (length cs) - 1) ->
  nth 0 cs 0 <= interpolate cs idx
  <= nth (Z.to_nat (Z.of_nat (length cs) - 1)) cs 0.
Proof.
  intros Hnd Hidx.
  pose proof (Int_part_index _ _ Hidx) as Hi0.
  destruct (interpolate_between cs idx Hnd Hidx) as [Hlow Hup].
  split.
  - apply Rle_trans with (2 := Hlow). apply Hnd. lia.
  - apply Rle_trans with (1 := Hup). apply Hnd. lia.
Qed.

(** X7: after [precompute(rho)] with [rho > 0] on a profile of positive area
    values and positive length, [resistanceUpTo(x)] lies between 0 and
    [totalR] for every real [x]. *)
Theorem resistanceUpTo_bounds (p : AreaProfile.t) (len rho : R)
    (areas : list R) (x0 : R) :
  real_profile p len areas ->
  (1 <= AreaProfile.samples p)%Z ->
  Forall (fun a => 0 < a) areas ->
  0 < rho -> 0 < len ->
  let p' := AreaProfile.precompute p (Some (Some rho)) in
  exists r tot : R,
    AreaProfile.resistanceUpTo p' (Some x0) = Some r
    /\ AreaProfile.totalR p' = Some tot
    /\ 0 <= r <= tot.
Proof.
  intros Hp HN Hpos Hrho Hlen0 p'.
  destruct (precompute_real _ _ rho _ Hp HN Hpos)
    as (Hlen & Hsam & Hcs & [rest Hcum] & Htot).
  fold p' in Hlen, Hsam, Hcum, Htot.
  set (cs := real_table len rho areas (AreaProfile.samples p)) in *.
  assert (Hl : len <> 0) by lra.
  assert (Hnd : nondecreasing cs).
  { apply real_table_nondecreasing; try lra; auto. apply (rp_samples Hp). }
  do 2 eexists. split; [|split; [exact Htot|]].
  - apply (resistanceUpTo_real p' len cs rest x0 Hlen Hl Hcum); lia.
  - rewrite Hsam.
    set (idx := clamp01 (x0 / len) * IZR (AreaProfile.samples p - 1)).
    assert (Hidx : 0 <= idx <= IZR (Z.of_nat (length cs) - 1)).
    { rewrite Hcs. unfold idx.
      pose proof (clamp01_bounds (x0 / len)).
      assert (0 <= IZR (AreaProfile.samples p - 1)) by (apply IZR_le; lia).
      nra. }
    pose proof (interpolate_range cs idx Hnd Hidx) as Hr.
    rewrite Hcs in Hr. exact Hr.
Qed.

Lemma resistanceUpTo_bounds_witness :
  exists r tot : R,
    AreaProfile.resistanceUpTo
      (AreaProfile.precompute demo_profile (Some (Some 1))) (Some 5)
    = Some r
    /\ AreaProfile.totalR (AreaProfile.precompute demo_profile (Some (Some 1)))
       = Some tot
    /\ 0 <= r <= tot.
Proof.
  apply (resistanceUpTo_bounds demo_profile 1 1 [1; 2; 1] 5).
  - exact demo_profile_real.
  - cbn. lia.
  - repeat constructor; lra.
  - lra.
  - lra.
Defined.

Lemma strictly_increasing_cons (a b : R) (l : list R) :
  a < b -> strictly_increasing (b :: l) -> strictly_increasing (a :: b :: l).
Proof.
  intros Hab Hl i j Hij. destruct i as [|i], j as [|j]; cbn [nth].
  - lia.
  - destruct j as [|j]; [exact Hab|].
    apply Rlt_trans with b; [exact Hab|].
    apply (Hl O (S j)). cbn [length] in *. lia.
  - lia.
  - apply (Hl i j). cbn [length] in *. lia.
Qed.

Lemma real_sums_increasing (term : Z -> R) (k : nat) :
  forall (acc : R) (lo : Z),
    (forall i, (lo <= i < lo + Z.of_nat k)%Z -> 0 < term i) ->
    strictly_increasing (acc :: real_sums term acc lo k).
Proof.
  induction k as [|k IH]; intros acc lo H.
  - intros i j Hij. cbn [real_sums length] in *. lia.
  - cbn [real_sums]. apply strictly_increasing_cons.
    + specialize (H lo). lapply H; [lra | lia].
    + apply IH. intros i Hi. apply H. lia.
Qed.

Lemma real_term_pos (len rho : R) (areas : list R) (n i : Z) :
  Z.of_nat (length areas) = n ->
  Forall (fun a => 0 < a) areas -> 0 < rho -> 0 < len ->
  (1 <= i < n)%Z ->
  0 < real_term len rho areas n i.
Proof.
  intros Hn Hpos Hrho Hlen Hi. unfold real_term.
  assert (Ha : 0 < nth (Z.to_nat i) areas 0).
  { rewrite Forall_forall in Hpos. apply Hpos, nth_In. lia. }
  assert (Hd : 0 < IZR (n - 1)) by (apply IZR_lt; lia).
  apply Rmult_lt_0_compat.
  - apply Rmult_lt_0_compat; [exact Hrho|].
    apply Rinv_0_lt_compat. nra.
  - apply Rmult_lt_0_compat; [exact Hlen|].
    apply Rinv_0_lt_compat, Hd.
Qed.

Lemma real_table_increasing (len rho : R) (areas : list R) (n : Z) :
  Z.of_nat (length areas) = n ->
  Forall (fun a => 0 < a) areas -> 0 < rho -> 0 < len ->
  strictly_increasing (real_table len rho areas n).
Proof.
  intros Hn Hpos Hrho Hlen. unfold real_table.
  apply real_sums_increasing. intros i Hi.
  apply real_term_pos; auto. lia.
Qed.

Lemma increasing_nondecreasing (cs : list R) :
  strictly_increasing cs -> nondecreasing cs.
Proof.
  intros H i j Hij. destruct (Nat.eq_dec i j) as [->|Hne]; [lra|].
  apply Rlt_le, H. lia.
Qed.

Lemma interpolate_increasing (cs : list R) (u w : R) :
  strictly_increasing cs ->
  0 <= u -> u < w -> w <= IZR (Z.of_nat (length cs) - 1) ->
  interpolate cs u < interpolate cs w.
Proof.
  intros Hcs Hu Huw Hw.
  assert (Hnd : nondecreasing cs) by (apply increasing_nondecreasing, Hcs).
  assert (Hu' : 0 <= u <= IZR (Z.of_nat (length cs) - 1)) by lra.
  assert (Hw' : 0 <= w <= IZR (Z.of_nat (length cs) - 1)) by lra.
  pose proof (Int_part_index _ _ Hu') as Hiu.
  pose proof (Int_part_index _ _ Hw') as Hiw.
  pose proof (Int_part_le u w (Rlt_le _ _ Huw)) as Hij.
  pose proof (Int_part_bounds u) as Hfu.
  pose proof (Int_part_bounds w) as Hfw.
  assert (Hlast : (Int_part u + 1 <= Z.of_nat (length cs) - 1)%Z).
  { assert (Hlt : IZR (Int_part u) < IZR (Z.of_nat (length cs) - 1)) by lra.
    apply lt_IZR in Hlt. lia. }
  assert (Hstep : nth (Z.to_nat (Int_part u)) cs 0
                  < nth (Z.to_nat (Int_part u + 1)) cs 0).
  { apply Hcs. lia. }
  destruct (Z.eq_dec (Int_part u) (Int_part w)) as [Heq|Hne].
  - unfold interpolate. rewrite <- Heq.
    rewrite Z.min_r by lia. nra.
  - destruct (interpolate_between _ _ Hnd Hw') as [Hlow _].
    apply Rlt_le_trans with (2 := Hlow).
    apply Rlt_le_trans with (nth (Z.to_nat (Int_part u + 1)) cs 0).
    + unfold interpolate. rewrite Z.min_r by lia. nra.
    + apply Hnd. lia.
Qed.

(** X8: with positive area values, [rho > 0] and at least two samples the
    resistance strictly increases along the bar: [resistanceUpTo(x1)] is
    below [resistanceUpTo(x2)] for [0 <= x1 < x2 <= L], so a noise-free
    voltage determines the position. *)
Theorem resistanceUpTo_strictly_increasing (p : AreaProfile.t)
    (len rho : R) (areas : list R) (x1 x2 : R) :
  real_profile p len areas ->
  (2 <= AreaProfile.samples p)%Z ->
  Forall (fun a => 0 < a) areas ->
  0 < rho ->
  0 <= x1 -> x1 < x2 -> x2 <= len ->
  let p' := AreaProfile.precompute p (Some (Some rho)) in
  exists r1 r2 : R,
    AreaProfile.resistanceUpTo p' (Some x1) = Some r1
    /\ AreaProfile.resistanceUpTo p' (Some x2) = Some r2
    /\ r1 < r2.
Proof.
  intros Hp HN Hpos Hrho Hx1 Hx12 Hx2 p'.
  assert (HN1 : (1 <= AreaProfile.samples p)%Z) by lia.
  destruct (precompute_real _ _ rho _ Hp HN1 Hpos)
    as (Hlen & Hsam & Hcs & [rest Hcum] & _).
  fold p' in Hlen, Hsam, Hcum.
  set (cs := real_table len rho areas (AreaProfile.samples p)) in *.
  assert (Hlen0 : 0 < len) by lra.
  assert (Hl : len <> 0) by lra.
  assert (Hinc : strictly_increasing cs).
  { apply real_table_increasing; auto. apply (rp_samples Hp). }
  do 2 eexists.
  rewrite !(resistanceUpTo_real p' len cs rest _ Hlen Hl Hcum) by lia.
  split; [reflexivity|]. split; [reflexivity|].
  assert (Hd : 0 < IZR (AreaProfile.samples p' - 1)) by (apply IZR_lt; lia).
  assert (Hinv : 0 < / len) by (apply Rinv_0_lt_compat, Hlen0).
  assert (Hq1 : 0 <= x1 / len <= 1).
  { split; [unfold Rdiv; nra|].
    apply Rmult_le_reg_r with len; [exact Hlen0|].
    unfold Rdiv. rewrite Rmult_assoc, Rinv_l by lra. lra. }
  assert (Hq2 : 0 <= x2 / len <= 1).
  { split; [unfold Rdiv; nra|].
    apply Rmult_le_reg_r with len; [exact Hlen0|].
    unfold Rdiv. rewrite Rmult_assoc, Rinv_l by lra. lra. }
  assert (Hq : x1 / len < x2 / len).
  { unfold Rdiv. apply Rmult_lt_compat_r; assumption. }
  rewrite !clamp01_inside by assumption.
  apply interpolate_increasing; [exact Hinc | nra | nra |].
  rewrite Hcs, <- Hsam. nra.
Qed.

Lemma resistanceUpTo_strictly_increasing_witness :
  exists r1 r2 : R,
    AreaProfile.resistanceUpTo
      (AreaProfile.precompute demo_profile (Some (Some 1))) (Some (1 / 4))
    = Some r1
    /\ AreaProfile.resistanceUpTo
         (AreaProfile.precompute demo_profile (Some (Some 1))) (Some (3 / 4))
       = Some r2
    /\ r1 < r2.
Proof.
  apply (resistanceUpTo_strictly_increasing demo_profile 1 1 [1; 2; 1]
           (1 / 4) (3 / 4)).
  - exact demo_profile_real.
  - cbn. lia.
  - repeat constructor; lra.
  - lra.
  - lra.
  - lra.
  - lra.
Defined.

Lemma real_sums_last_bounds (term : Z -> R) (a b : R) (k : nat) :
  forall (acc : R) (lo : Z),
    (forall i, (lo <= i < lo + Z.of_nat k)%Z -> a <= term i <= b) ->
    acc + INR k * a <= nth k (acc :: real_sums term acc lo k) 0
    <= acc + INR k * b.
Proof.
  induction k as [|k IH]; intros acc lo H.
  - cbn [nth real_sums INR]. lra.
  - rewrite S_INR. cbn [real_sums].
    change (nth (S k) (acc :: ?l) 0) with (nth k l 0).
    assert (Hlo : a <= term lo <= b) by (apply H; lia).
    specialize (IH (acc + term lo) (lo + 1)%Z).
    lapply IH; [|intros i Hi; apply H; lia].
    intros [IH1 IH2]. split; lra.
Qed.

Lemma real_term_bounds (len rho : R) (areas : list R) (n i : Z) (lo hi : R) :
  Z.of_nat (length areas) = n ->
  Forall (fun a => lo <= a <= hi) areas ->
  0 < lo -> 0 < rho -> 0 < len ->
  (1 <= i < n)%Z ->
  rho * len / (hi * (1 / 1000000)) / IZR (n - 1)
  <= real_term len rho areas n i
  <= rho * len / (lo * (1 / 1000000)) / IZR (n - 1).
Proof.
  intros Hn Hb Hlo Hrho Hlen Hi. unfold real_term.
  assert (Ha : lo <= nth (Z.to_nat i) areas 0 <= hi).
  { rewrite Forall_forall in Hb. apply Hb, nth_In. lia. }
  set (a := nth (Z.to_nat i) areas 0) in *.
  assert (Hd : 0 < IZR (n - 1)) by (apply IZR_lt; lia).
  assert (Hk : 0 < rho * len / IZR (n - 1)).
  { apply Rdiv_lt_0_compat; [nra | exact Hd]. }
  replace (rho / (a * (1 / 1000000)) * (len / IZR (n - 1)))
    with (rho * len / IZR (n - 1) * (1000000 / a)) by (field; lra).
  replace (rho * len / (hi * (1 / 1000000)) / IZR (n - 1))
    with (rho * len / IZR (n - 1) * (1000000 / hi)) by (field; lra).
  replace (rho * len / (lo * (1 / 1000000)) / IZR (n - 1))
    with (rho * len / IZR (n - 1) * (1000000 / lo)) by (field; lra).
  assert (H1 : 1000000 / hi <= 1000000 / a).
  { unfold Rdiv. apply Rmult_le_compat_l; [lra|].
    apply Rinv_le_contravar; lra. }
  assert (H2 : 1000000 / a <= 1000000 / lo).
  { unfold Rdiv. apply Rmult_le_compat_l; [lra|].
    apply Rinv_le_contravar; lra. }
  split; apply Rmult_le_compat_l; lra.
Qed.

Lemma real_table_last_bounds (len rho : R) (areas : list R) (n : Z)
    (lo hi : R) :
  Z.of_nat (length areas) = n ->
  (2 <= n)%Z ->
  Forall (fun a => lo <= a <= hi) areas ->
  0 < lo -> 0 < rho -> 0 < len ->
  rho * len / (hi * (1 / 1000000))
  <= nth (Z.to_nat (n - 1)) (real_table len rho areas n) 0
  <= rho * len / (lo * (1 / 1000000)).
Proof.
  intros Hn HN Hb Hlo Hrho Hlen0. unfold real_table.
  pose proof (real_sums_last_bounds (real_term len rho areas n)
                (rho * len / (hi * (1 / 1000000)) / IZR (n - 1))
                (rho * len / (lo * (1 / 1000000)) / IZR (n - 1))
                (Z.to_nat (n - 1)) 0 1%Z) as H.
  lapply H.
  - clear H. intros H.
    rewrite INR_IZR_INZ, Z2Nat.id in H by lia.
    assert (Hd : 0 < IZR (n - 1)) by (apply IZR_lt; lia).
    assert (Hhi : 0 < hi).
    { assert (Hin : In (nth 0 areas 0) areas) by (apply nth_In; lia).
      rewrite Forall_forall in Hb. specialize (Hb _ Hin). lra. }
    replace (0 + IZR (n - 1)
                 * (rho * len / (hi * (1 / 1000000)) / IZR (n - 1)))
      with (rho * len / (hi * (1 / 1000000))) in H by (field; lra).
    replace (0 + IZR (n - 1)
                 * (rho * len / (lo * (1 / 1000000)) / IZR (n - 1)))
      with (rho * len / (lo * (1 / 1000000))) in H by (field; lra).
    exact H.
  - intros i Hi. apply real_term_bounds; auto. lia.
Qed.

(** X9: [totalR] lies between the resistance of a uniform bar of the
    largest area and that of a uniform bar of the smallest: with every area
    sample within [[lo, hi]] mm^2, [lo > 0], at least two samples, a length
    [L > 0] and [rho > 0],
    [rho * L / (hi * 1e-6) <= totalR <= rho * L / (lo * 1e-6)]. *)
Theorem totalR_bounds (p : AreaProfile.t) (len rho : R) (areas : list R)
    (lo hi : R) :
  real_profile p len areas ->
  (2 <= AreaProfile.samples p)%Z ->
  Forall (fun a => lo <= a <= hi) areas ->
  0 < lo -> 0 < rho -> 0 < len ->
  let p' := AreaProfile.precompute p (Some (Some rho)) in
  exists tot : R,
    AreaProfile.totalR p' = Some tot
    /\ rho * len / (hi * (1 / 1000000)) <= tot
       <= rho * len / (lo * (1 / 1000000)).
Proof.
  intros Hp HN Hb Hlo Hrho Hlen0 p'.
  assert (Hpos : Forall (fun a => 0 < a) areas).
  { rewrite Forall_forall in *. intros a Ha. specialize (Hb a Ha). lra. }
  assert (HN1 : (1 <= AreaProfile.samples p)%Z) by lia.
  destruct (precompute_real _ _ rho _ Hp HN1 Hpos)
    as (_ & _ & _ & _ & Htot).
  fold p' in Htot.
  eexists. split; [exact Htot|].
  apply real_table_last_bounds; auto. apply (rp_samples Hp).
Qed.

Lemma totalR_bounds_witness :
  exists tot : R,
    AreaProfile.totalR (AreaProfile.precompute demo_profile (Some (Some 1)))
    = Some tot
    /\ 1 * 1 / (2 * (1 / 1000000)) <= tot <= 1 * 1 / (1 * (1 / 1000000)).
Proof.
  apply (totalR_bounds demo_profile 1 1 [1; 2; 1] 1 2).
  - exact demo_profile_real.
  - cbn. lia.
  - repeat constructor; lra.
  - lra.
  - lra.
  - lra.
Defined.

Lemma real_sums_scale (term : Z -> R) (k : R) (n : nat) :
  forall (acc : R) (lo : Z),
    real_sums (fun i => k * term i) (k * acc) lo n
    = map (Rmult k) (real_sums term acc lo n).
Proof.
  induction n as [|n IH]; intros acc lo; [reflexivity|].
  cbn [real_sums map]. rewrite <- Rmult_plus_distr_l, IH. reflexivity.
Qed.

Lemma real_sums_ext (f g : Z -> R) (n : nat) :
  forall (acc : R) (lo : Z),
    (forall i, f i = g i) -> real_sums f acc lo n = real_sums g acc lo n.
Proof.
  induction n as [|n IH]; intros acc lo H; [reflexivity|].
  cbn [real_sums]. rewrite H, (IH _ _ H). reflexivity.
Qed.

Lemma real_table_scale (len rho k : R) (areas : list R) (n : Z) :
  real_table len (k * rho) areas n = map (Rmult k) (real_table len rho areas n).
Proof.
  unfold real_table. cbn [map]. rewrite Rmult_0_r. f_equal.
  rewrite <- (Rmult_0_r k) at 1. rewrite <- real_sums_scale.
  apply real_sums_ext. intros i. unfold real_term, Rdiv. ring.
Qed.

Lemma nth_scale (k : R) (cs : list R) (i : nat) :
  nth i (map (Rmult k) cs) 0 = k * nth i cs 0.
Proof.
  rewrite <- (Rmult_0_r k) at 1. apply map_nth.
Qed.

Lemma interpolate_scale (k : R) (cs : list R) (idx : R) :
  interpolate (map (Rmult k) cs) idx = k * interpolate cs idx.
Proof.
  unfold interpolate. rewrite length_map, !nth_scale. ring.
Qed.

(** X10: the table is linear in the resistivity: after [precompute(k * rho)]
    every [resistanceUpTo(x)] and [totalR] are [k] times what they are after
    [precompute(rho)]. *)
Theorem precompute_linear_in_rho (p : AreaProfile.t) (len rho k : R)
    (areas : list R) (x0 : R) :
  real_profile p len areas ->
  (1 <= AreaProfile.samples p)%Z ->
  Forall (fun a => 0 < a) areas ->
  len <> 0 ->
  exists r tot : R,
    AreaProfile.resistanceUpTo
      (AreaProfile.precompute p (Some (Some rho))) (Some x0) = Some r
    /\ AreaProfile.resistanceUpTo
         (AreaProfile.precompute p (Some (Some (k * rho)))) (Some x0)
       = Some (k * r)
    /\ AreaProfile.totalR (AreaProfile.precompute p (Some (Some rho)))
       = Some tot
    /\ AreaProfile.totalR (AreaProfile.precompute p (Some (Some (k * rho))))
       = Some (k * tot).
Proof.
  intros Hp HN Hpos Hl.
  destruct (precompute_real _ _ rho _ Hp HN Hpos)
    as (Hlen1 & Hsam1 & Hcs1 & [rest1 Hcum1] & Htot1).
  destruct (precompute_real _ _ (k * rho) _ Hp HN Hpos)
    as (Hlen2 & Hsam2 & Hcs2 & [rest2 Hcum2] & Htot2).
  cbv zeta in *.
  do 2 eexists.
  rewrite (resistanceUpTo_real _ len _ rest1 x0 Hlen1 Hl Hcum1) by lia.
  rewrite (resistanceUpTo_real _ len _ rest2 x0 Hlen2 Hl Hcum2) by lia.
  rewrite Htot1, Htot2, Hsam1, Hsam2.
  rewrite real_table_scale, interpolate_scale, nth_scale.
  repeat split; reflexivity.
Qed.

Lemma precompute_linear_in_rho_witness :
  exists r tot : R,
    AreaProfile.resistanceUpTo
      (AreaProfile.precompute demo_profile (Some (Some 1))) (Some (1 / 4))
    = Some r
    /\ AreaProfile.resistanceUpTo
         (AreaProfile.precompute demo_profile (Some (Some (3 * 1))))
         (Some (1 / 4))
       = Some (3 * r)
    /\ AreaProfile.totalR (AreaProfile.precompute demo_profile (Some (Some 1)))
       = Some tot
    /\ AreaProfile.totalR
         (AreaProfile.precompute demo_profile (Some (Some (3 * 1))))
       = Some (3 * tot).
Proof.
  apply (precompute_linear_in_rho demo_profile 1 1 3 [1; 2; 1] (1 / 4)).
  - exact demo_profile_real.
  - cbn. lia.
  - repeat constructor; lra.
  - lra.
Defined.

End ProfileQueries.

Section PrecomputeAgain.
Context {NUM : Number}.
Import JsArray.

Lemma cumulative_table_over (p q : AreaProfile.t) (rho1 rho2 : num)
    (c : list num) :
  AreaProfile.samples q = AreaProfile.samples p ->
  AreaProfile.area q = AreaProfile.area p ->
  AreaProfile.dx q = AreaProfile.dx p ->
  cumulative_table q rho2 (cumulative_table p rho1 c)
  = cumulative_table p rho2 c.
Proof.
  intros Hs Ha Hd. unfold cumulative_table. rewrite Hs. cbn [tl].
  f_equal. f_equal.
  - unfold resistance_term. rewrite Ha, Hd. reflexivity.
  - rewrite skipn_app, running_sums_length, Nat.sub_diag, skipn_all2
      by (rewrite running_sums_length; lia).
    reflexivity.
Qed.

(** X11: [precompute] forgets what an earlier call computed: whatever the
    number model, the profile after [precompute(rho1)] and then
    [precompute(rho2)] is the profile after [precompute(rho2)] alone. *)
Theorem precompute_overwrites (p : AreaProfile.t) (rho1 rho2 : option num) :
  AreaProfile.precompute (AreaProfile.precompute p rho1) rho2
  = AreaProfile.precompute p rho2.
Proof.
  rewrite (precompute_unfold (AreaProfile.precompute p rho1)).
  rewrite (precompute_unfold p rho1), (precompute_unfold p rho2). cbv zeta.
  unfold AreaProfile.with_cumulative.
  cbn [AreaProfile.length AreaProfile.samples AreaProfile.minArea
       AreaProfile.maxArea AreaProfile.rng AreaProfile.area AreaProfile.dx
       AreaProfile.cumulative AreaProfile.totalR].
  rewrite (cumulative_table_over p _ (rho1 ?? lit 1.7e-8)
             (rho2 ?? lit 1.7e-8) (AreaProfile.cumulative p))
    by reflexivity.
  reflexivity.
Qed.

End PrecomputeAgain.

(** ** What the constructor generates *)

Section GeneratedProfiles.
Import Exact JsArray RealProfile.
Local Open Scope R_scope.

Lemma sample_value_inverted (p : AreaProfile.t) (lobes : @num Exact.number)
    (i : Z) (g : Mulberry32.t) (lo hi : R) :
  AreaProfile.minArea p = Some lo ->
  AreaProfile.maxArea p = Some hi ->
  hi <= lo ->
  (2 <= AreaProfile.samples p)%Z ->
  fst (AreaProfile.sample_value p lobes i g) = Some hi.
Proof.
  intros Hlo Hhi Hle HN. unfold AreaProfile.sample_value.
  cbn [of_Z number]. rewrite div_real by (apply not_0_IZR; lia).
  cbn [lit number].
  destruct (add_lobes_real (AreaProfile.iterations lobes)
              (IZR i / IZR (AreaProfile.samples p - 1)) (Q2R 1.4) g)
    as (val & Hval).
  destruct (AreaProfile.add_lobes _ _ _ g) as [val0 g1].
  cbn [fst] in Hval. subst val0.
  destruct (next_real g1) as (u & _ & ->).
  rewrite Hlo, Hhi. cbn [fst num_add num_sub num_mul Math_min Math_max
                         number lift2].
  f_equal. apply Rmin_left.
  apply Rle_trans with lo; [exact Hle | apply Rmax_l].
Qed.

(** X12: bounds given the wrong way round flatten the profile: constructed
    with [minArea >= maxArea] and at least two samples, every area sample is
    [maxArea]. *)
Theorem inverted_bounds_flat (o : AreaProfile.opts) (r : Z) (lo hi : R) :
  AreaProfile.opt_minArea o ?? lit 0.6 = Some lo ->
  AreaProfile.opt_maxArea o ?? lit 3.2 = Some hi ->
  hi <= lo ->
  (2 <= AreaProfile.opt_samples o ?? 512 <= max_length)%Z ->
  exists p : AreaProfile.t,
    AreaProfile.new o r = Ok p
    /\ AreaProfile.area p
       = repeat (Some hi) (Z.to_nat (AreaProfile.opt_samples o ?? 512%Z)).
Proof.
  intros Hlo Hhi Hle HN.
  pose proof (new_unfold o r) as Hnew. cbv zeta in Hnew.
  specialize (Hnew ltac:(lia)).
  set (n := AreaProfile.opt_samples o ?? 512%Z) in *.
  set (p0 := AreaProfile.mk _ _ _ _ _ _ _ _ _) in Hnew.
  eexists. split; [exact Hnew|].
  cbn [AreaProfile.with_area AreaProfile.area].
  replace (Z.to_nat n) with (length (range 0 n))
    by (rewrite range_length; f_equal; lia).
  rewrite <- (map_const (Some hi) (range 0 n)).
  apply map_ext. intros i. unfold generated_sample.
  apply (sample_value_inverted p0 _ i _ lo hi); [exact Hlo | exact Hhi
                                                | exact Hle |].
  cbn [AreaProfile.samples p0]. lia.
Qed.

Lemma inverted_bounds_flat_witness :
  exists p : AreaProfile.t,
    AreaProfile.new
      (AreaProfile.mkOpts None (Some 3%Z) (Some (Exact.real 5))
         (Some (Exact.real 2)) (Some 42%Z)) 0
    = Ok p
    /\ AreaProfile.area p = [Some 2; Some 2; Some 2].
Proof.
  apply (inverted_bounds_flat
           (AreaProfile.mkOpts None (Some 3%Z) (Some (Exact.real 5))
              (Some (Exact.real 2)) (Some 42%Z)) 0 5 2).
  - reflexivity.
  - reflexivity.
  - lra.
  - cbn. unfold max_length. lia.
Defined.

(** X13: the constructor consumes [1 + N * (2 * k + 1)] values of the
    generator, where [N] is the sample count and [k], the number of lobes, is
    2, 3 or 4: one draw for [k], and for every sample two draws per lobe and
    one for the jitter.  Up to 500000 samples the state it leaves is the
    seed, as an unsigned 32-bit integer, plus that many increments. *)
Theorem generate_draw_count (o : @AreaProfile.opts Exact.number) (r : Z) :
  (0 <= AreaProfile.opt_samples o ?? 512 <= max_length)%Z ->
  let n := AreaProfile.opt_samples o ?? 512%Z in
  let seed := AreaProfile.opt_seed o ?? r in
  exists (p : AreaProfile.t) (k : Z),
    AreaProfile.new o r = Ok p
    /\ (2 <= k <= 4)%Z
    /\ AreaProfile.rng p
       = Mulberry32.advance (Z.to_nat (1 + n * (2 * k + 1)))
           (Mulberry32.new seed)
    /\ ((n <= 500000)%Z ->
        Mulberry32.state (AreaProfile.rng p)
        = (Int32.to_uint32 seed + (1 + n * (2 * k + 1)) * 0x6D2B79F5)%Z).
Proof.
  intros HN n seed.
  pose proof (new_unfold o r) as Hnew. cbv zeta in Hnew.
  specialize (Hnew HN). fold n seed in Hnew.
  set (p0 := AreaProfile.mk _ _ _ _ _ _ _ _ _) in Hnew.
  destruct (drawn_lobes_real p0) as (k & Hk & _ & Hit).
  assert (Hd : (1 + Z.to_nat n * draws_per_sample p0)%nat
               = Z.to_nat (1 + n * (2 * k + 1))).
  { unfold draws_per_sample. rewrite Hit. fold n in HN. nia. }
  rewrite Hd in Hnew.
  eexists. exists k. split; [exact Hnew|]. split; [exact Hk|].
  cbn [AreaProfile.with_area AreaProfile.rng].
  split; [reflexivity|].
  intros Hsmall. fold n in HN.
  pose proof (new_state_range seed) as Hr. unfold Int32.two32 in Hr.
  rewrite advance_state.
  - rewrite Z2Nat.id by nia. reflexivity.
  - lia.
  - rewrite Z2Nat.id by nia. unfold Double.two53. nia.
Qed.

Lemma generate_draw_count_witness :
  exists (p : AreaProfile.t) (k : Z),
    AreaProfile.new
      (@AreaProfile.mkOpts Exact.number None (Some 2%Z) None None
         (Some 42%Z)) 0
    = Ok p
    /\ (2 <= k <= 4)%Z
    /\ AreaProfile.rng p
       = Mulberry32.advance (Z.to_nat (1 + 2 * (2 * k + 1)))
           (Mulberry32.new 42)
    /\ ((2 <= 500000)%Z ->
        Mulberry32.state (AreaProfile.rng p)
        = (Int32.to_uint32 42 + (1 + 2 * (2 * k + 1)) * 0x6D2B79F5)%Z).
Proof.
  apply (generate_draw_count
           (@AreaProfile.mkOpts Exact.number None (Some 2%Z) None None
              (Some 42%Z)) 0).
  cbn. unfold max_length. lia.
Defined.

Lemma get_num_empty (n : @num Exact.number) : get_num [] n = None.
Proof.
  unfold get_num. destruct (to_index n) as [i|]; [|reflexivity].
  unfold get. destruct (i <? 0)%Z; [reflexivity|].
  destruct (Z.to_nat i); reflexivity.
Qed.

Lemma get_num_below (c : list (option R)) (a : option R) :
  get_num c (Math_min (Some (IZR (-1))) (Math_floor a + of_Z 1)%num) = None.
Proof.
  destruct a as [a|]; [|reflexivity].
  cbn [Math_min Math_floor of_Z num_add number lift1 lift2].
  rewrite <- plus_IZR, Rmin_IZR.
  unfold get_num. cbn [to_index number index]. rewrite integer_IZR.
  unfold get. destruct (Z.min (-1) (Int_part a + 1) <? 0)%Z eqn:E.
  - reflexivity.
  - apply Z.ltb_ge in E. lia.
Qed.

(** X14: a profile of no samples answers nothing: the constructor accepts
    [samples = 0] and leaves [area] empty; [precompute] then grows the empty
    [cumulative] to the one entry 0 and sets [totalR] to
    [cumulative[-1]], which is undefined; and [areaAt] and [resistanceUpTo]
    return no number, wherever they are asked. *)
Theorem empty_profile_queries (o : @AreaProfile.opts Exact.number) (r : Z)
    (rho : option num) :
  AreaProfile.opt_samples o = Some 0%Z ->
  exists p : AreaProfile.t,
    AreaProfile.new o r = Ok p
    /\ AreaProfile.area p = []
    /\ AreaProfile.cumulative p = []
    /\ AreaProfile.cumulative (AreaProfile.precompute p rho) = [of_Z 0]
    /\ AreaProfile.totalR (AreaProfile.precompute p rho) = nan
    /\ forall x0 : num,
         AreaProfile.areaAt (AreaProfile.precompute p rho) x0 = nan
         /\ AreaProfile.resistanceUpTo (AreaProfile.precompute p rho) x0
            = nan.
Proof.
  intros Hs.
  pose proof (new_unfold o r) as Hnew. cbv zeta in Hnew.
  rewrite Hs in Hnew. cbn [nullish] in Hnew.
  specialize (Hnew ltac:(unfold max_length; lia)).
  eexists. split; [exact Hnew|].
  rewrite precompute_unfold. cbv zeta.
  cbn [AreaProfile.with_area AreaProfile.with_cumulative AreaProfile.area
       AreaProfile.cumulative AreaProfile.totalR AreaProfile.samples].
  split; [reflexivity|]. split; [reflexivity|].
  split; [reflexivity|]. split; [reflexivity|].
  intros x0. split.
  - unfold AreaProfile.areaAt. cbv zeta.
    cbn [AreaProfile.with_cumulative AreaProfile.with_area AreaProfile.area
         AreaProfile.samples range map Z.to_nat Z.sub Z.add Z.opp seq].
    rewrite !get_num_empty. unfold P5.lerp.
    cbn [num_sub num_mul num_add number lift2].
    rewrite lift2_none_r. reflexivity.
  - unfold AreaProfile.resistanceUpTo. cbv zeta.
    cbn [AreaProfile.with_cumulative AreaProfile.with_area
         AreaProfile.cumulative AreaProfile.samples].
    change (of_Z (0 - 1)) with (Some (IZR (-1))).
    rewrite get_num_below. unfold P5.lerp.
    cbn [num_sub num_mul num_add number lift2].
    rewrite lift2_none_r. reflexivity.
Qed.

Lemma empty_profile_queries_witness :
  exists p : AreaProfile.t,
    AreaProfile.new
      (@AreaProfile.mkOpts Exact.number None (Some 0%Z) None None
         (Some 42%Z)) 0
    = Ok p
    /\ AreaProfile.area p = []
    /\ AreaProfile.cumulative p = []
    /\ AreaProfile.cumulative (AreaProfile.precompute p None) = [of_Z 0]
    /\ AreaProfile.totalR (AreaProfile.precompute p None) = nan
    /\ forall x0 : num,
         AreaProfile.areaAt (AreaProfile.precompute p None) x0 = nan
         /\ AreaProfile.resistanceUpTo (AreaProfile.precompute p None) x0
            = nan.
Proof.
  apply (empty_profile_queries
           (@AreaProfile.mkOpts Exact.number None (Some 0%Z) None None
              (Some 42%Z)) 0 None).
  reflexivity.
Defined.

End GeneratedProfiles.

(** ** Scans *)

(** X15: the degenerate counts of [autoScan].  For [count <= 0] the log is
    emptied and [fn] is never called.  For [count = 1] the step is
    [length / 0]: the one position is [0 * (length / 0)], no number, and
    [fn] is called once, with it. *)
Theorem autoScan_degenerate_counts :
  (forall (NUM : Number) (S : Type) (fn : num -> S -> num * S)
          (l : MeasurementLog.t) (len : num) (count : Z) (s : S),
     count <= 0 ->
     MeasurementLog.autoScan fn l len (Some count) s
     = (MeasurementLog.mk [], s))
  /\ (forall (S : Type) (fn : @num Exact.number -> S -> @num Exact.number * S)
             (l : MeasurementLog.t) (len : @num Exact.number) (s : S),
        MeasurementLog.autoScan fn l len (Some 1) s
        = (MeasurementLog.mk [MeasurementLog.mkSample nan (fst (fn nan s))],
           snd (fn nan s))).
Proof.
  split.
  - intros NUM S fn l len count s Hc.
    rewrite autoScan_unfold. cbn [nullish]. unfold positions.
    rewrite range_empty by lia. reflexivity.
  - intros S fn l len s.
    rewrite autoScan_unfold. cbn [nullish].
    assert (Hp : @positions Exact.number len 1 = [nan]).
    { unfold positions. change (range 0 1) with [0%Z]. cbn [map].
      change (1 - 1)%Z with 0%Z. f_equal.
      destruct len as [x0|]; [|reflexivity].
      cbn [of_Z num_div num_mul Exact.number]. unfold Exact.div.
      destruct (Req_dec_T 0 0); [reflexivity | congruence]. }
    rewrite Hp. cbn [call_each].
    destruct (fn nan s) as [v0 s1]. reflexivity.
Qed.

Section QuietScan.
Import Exact JsArray RealProfile.
Local Open Scope R_scope.

Lemma nth_map_real (f : R -> R) (xs : list R) (i : nat) :
  (i < length xs)%nat -> nth i (map f xs) 0 = f (nth i xs 0).
Proof.
  intros H. rewrite (nth_indep _ 0 (f 0)) by (rewrite length_map; exact H).
  apply map_nth.
Qed.

Lemma real_positions_length (len : R) (n : Z) :
  length (real_positions len n) = Z.to_nat n.
Proof.
  unfold real_positions. rewrite length_map, range_length. f_equal. lia.
Qed.

(** What a scan logs when every call of [fn] at a real position [x]
    returns the real [f x]. *)
Lemma call_each_real (S : Type) (fn : @num Exact.number -> S -> num * S)
    (f : R -> R) (xs : list R) :
  (forall x0 s, fst (fn (Some x0) s) = Some (f x0)) ->
  forall s : S,
    fst (call_each fn (map Some xs) s)
    = map (fun x0 => MeasurementLog.mkSample (Some x0) (Some (f x0))) xs.
Proof.
  intros Hfn. induction xs as [|x0 xs IH]; intros s; [reflexivity|].
  cbn [map call_each]. specialize (Hfn x0 s).
  destruct (fn (Some x0) s) as [v0 s1]. cbn [fst] in Hfn. subst v0.
  specialize (IH s1). destruct (call_each fn (map Some xs) s1) as [rest s2].
  cbn [fst] in *. rewrite IH. reflexivity.
Qed.

(** X16: with the noise switched off, [autoScan()] of the experiment logs
    24 voltages [currentA * resistanceUpTo(x)] at the positions
    [i * length / 23] that never decrease along the bar, starting at 0 and
    ending at [currentA * totalR]; here the profile has positive area
    values and was precomputed with [rho > 0], the current is not
    negative, and the draws are real numbers. *)
Theorem quiet_scan_nondecreasing (e : VarAreaExperiment.t)
    (g : P5.Gaussian) (p : AreaProfile.t) (len rho i0 : R)
    (areas : list R) :
  VarAreaExperiment.areaProfile e = AreaProfile.precompute p (Some (Some rho)) ->
  real_profile p len areas ->
  (1 <= AreaProfile.samples p)%Z ->
  Forall (fun a => 0 < a) areas ->
  0 < rho -> 0 < len ->
  VarAreaExperiment.length e = Some len ->
  VarAreaExperiment.currentA e = Some i0 -> 0 <= i0 ->
  VarAreaExperiment.noiseStd e = Some 0 ->
  (forall k : nat, exists z : R, P5.draws g k = Some z) ->
  let data :=
    MeasurementLog.data
      (VarAreaExperiment.log (fst (VarAreaExperiment.autoScan e g))) in
  exists (vs : list R) (tot : R),
    map (@MeasurementLog.x Exact.number) data
    = map Some (real_positions len 24)
    /\ map (@MeasurementLog.v Exact.number) data = map Some vs
    /\ length vs = 24%nat
    /\ (forall k : nat,
          (k < 24)%nat ->
          (VarAreaExperiment.currentA e
           * AreaProfile.resistanceUpTo (VarAreaExperiment.areaProfile e)
               (Some (nth k (real_positions len 24) 0)))%num
          = Some (nth k vs 0))
    /\ nondecreasing vs
    /\ nth 0 vs 0 = 0
    /\ AreaProfile.totalR (VarAreaExperiment.areaProfile e) = Some tot
    /\ nth 23 vs 0 = i0 * tot.
Proof.
  intros Hprof Hp HN Hpos Hrho Hlen0 Hlen HI HI0 Hsig Hdraws data.
  destruct (precompute_real _ _ rho _ Hp HN Hpos)
    as (Hplen & Hsam & Hcs & [rest Hcum] & Htot).
  cbv zeta in Hplen, Hsam, Hcs, Hcum, Htot.
  rewrite <- Hprof in Hplen, Hsam, Hcum, Htot.
  set (cs := real_table len rho areas (AreaProfile.samples p)) in *.
  set (n := AreaProfile.samples p) in *.
  assert (Hl : len <> 0) by lra.
  assert (Hnd : nondecreasing cs).
  { apply real_table_nondecreasing; try lra; auto. apply (rp_samples Hp). }
  set (V := fun x0 : R =>
              i0 * interpolate cs (clamp01 (x0 / len) * IZR (n - 1))).
  assert (HR : forall x0 : R,
             (VarAreaExperiment.currentA e
              * AreaProfile.resistanceUpTo (VarAreaExperiment.areaProfile e)
                  (Some x0))%num
             = Some (V x0)).
  { intros x0. rewrite HI.
    rewrite (resistanceUpTo_real _ len cs rest x0 Hplen Hl Hcum) by lia.
    rewrite Hsam. reflexivity. }
  assert (Hfn : forall x0 g0,
             (forall k : nat, exists z : R, P5.draws g0 k = Some z) ->
             fst (VarAreaExperiment.measureVoltage e (Some x0) g0)
             = Some (V x0)).
  { intros x0 g0 Hg0. unfold VarAreaExperiment.measureVoltage.
    cbv zeta. unfold P5.randomGaussian. cbn [fst].
    rewrite HR, Hsig. destruct (Hg0 (P5.taken g0)) as [z ->].
    cbn [num_add num_mul number lift2]. f_equal. lra. }
  assert (Hgen : forall xs g0,
             (forall k : nat, exists z : R, P5.draws g0 k = Some z) ->
             fst (call_each (VarAreaExperiment.measureVoltage e)
                    (map Some xs) g0)
             = map (fun x0 => MeasurementLog.mkSample (Some x0)
                                (Some (V x0))) xs).
  { induction xs as [|x0 xs IH]; intros g0 Hg0; [reflexivity|].
    cbn [map call_each]. pose proof (Hfn x0 g0 Hg0) as Hv.
    assert (Hg1 : forall k : nat, exists z : R,
                P5.draws (snd (VarAreaExperiment.measureVoltage e (Some x0) g0))
                  k = Some z).
    { intros k. unfold VarAreaExperiment.measureVoltage. cbv zeta.
      unfold P5.randomGaussian. cbn [snd P5.draws]. apply Hg0. }
    destruct (VarAreaExperiment.measureVoltage e (Some x0) g0) as [v0 g1].
    cbn [fst snd] in Hv, Hg1. subst v0.
    specialize (IH g1 Hg1).
    destruct (call_each (VarAreaExperiment.measureVoltage e) (map Some xs) g1)
      as [rest' s2].
    cbn [fst] in *. rewrite IH. reflexivity. }
  assert (Hdata : data
                  = map (fun x0 => MeasurementLog.mkSample (Some x0)
                                     (Some (V x0)))
                      (real_positions len 24)).
  { unfold data, VarAreaExperiment.autoScan.
    rewrite autoScan_unfold. cbn [nullish]. rewrite Hlen.
    rewrite positions_real by lia.
    destruct (call_each (VarAreaExperiment.measureVoltage e)
                (map Some (real_positions len 24)) g) as [l s2] eqn:E.
    cbn [fst VarAreaExperiment.with_log VarAreaExperiment.log
         MeasurementLog.data].
    rewrite <- (Hgen (real_positions len 24) g Hdraws), E. reflexivity. }
  assert (Hxlen : length (real_positions len 24) = 24%nat)
    by (rewrite real_positions_length; reflexivity).
  assert (Hmono : forall a b : R, a <= b -> V a <= V b).
  { intros a b Hab. unfold V. apply Rmult_le_compat_l; [exact HI0|].
    assert (Hq : a / len <= b / len).
    { apply Rmult_le_compat_r; [|exact Hab].
      apply Rlt_le, Rinv_0_lt_compat, Hlen0. }
    pose proof (clamp01_monotone _ _ Hq) as Hc.
    pose proof (clamp01_bounds (a / len)) as Hb1.
    pose proof (clamp01_bounds (b / len)) as Hb2.
    assert (Hd : 0 <= IZR (n - 1)) by (apply IZR_le; lia).
    apply interpolate_monotone; [exact Hnd | nra | nra | rewrite Hcs; nra]. }
  exists (map V (real_positions len 24)),
         (nth (Z.to_nat (n - 1)) cs 0).
  split; [|split; [|split; [|split; [|split; [|split; [|split]]]]]].
  - rewrite Hdata, map_map. reflexivity.
  - rewrite Hdata, !map_map. reflexivity.
  - rewrite length_map. exact Hxlen.
  - intros k Hk. rewrite HR, nth_map_real by lia. reflexivity.
  - intros i j Hij. rewrite length_map, Hxlen in Hij.
    rewrite !nth_map_real by lia. apply Hmono.
    replace i with (Z.to_nat (Z.of_nat i)) by lia.
    replace j with (Z.to_nat (Z.of_nat j)) by lia.
    rewrite !real_positions_nth by lia.
    apply Rmult_le_compat_r.
    + apply Rlt_le, Rdiv_lt_0_compat; [exact Hlen0|]. apply IZR_lt. lia.
    + apply IZR_le. lia.
  - rewrite nth_map_real by lia.
    change O with (Z.to_nat 0). rewrite real_positions_nth by lia.
    unfold V. rewrite Rmult_0_l. unfold Rdiv at 1. rewrite Rmult_0_l.
    rewrite (clamp01_inside 0), Rmult_0_l by lra.
    rewrite interpolate_at_zero. unfold cs, real_table. cbn [nth]. lra.
  - exact Htot.
  - rewrite nth_map_real by lia.
    change 23%nat with (Z.to_nat 23). rewrite real_positions_nth by lia.
    unfold V. f_equal.
    replace (IZR 23 * (len / IZR (24 - 1)) / len) with 1
      by (change (24 - 1)%Z with 23%Z; field; lra).
    rewrite (clamp01_inside 1), Rmult_1_l by lra.
    rewrite <- Hcs. apply interpolate_at_end.
    assert (0 < Z.of_nat (length cs))%Z by lia. lia.
Qed.

Lemma quiet_scan_nondecreasing_witness :
  exists (vs : list R) (tot : R),
    map (@MeasurementLog.v Exact.number)
      (MeasurementLog.data
         (VarAreaExperiment.log
            (fst (VarAreaExperiment.autoScan quiet_precomputed zero_draws))))
    = map Some vs
    /\ nondecreasing vs
    /\ nth 0 vs 0 = 0
    /\ AreaProfile.totalR (VarAreaExperiment.areaProfile quiet_precomputed)
       = Some tot
    /\ nth 23 vs 0 = Q2R 0.25 * tot.
Proof.
  destruct (quiet_scan_nondecreasing quiet_precomputed zero_draws
              demo_profile 1 1 (Q2R 0.25) [1; 2; 1])
    as (vs & tot & _ & Hv & _ & _ & Hnd & H0 & Htot & Hend).
  - reflexivity.
  - exact demo_profile_real.
  - cbn. lia.
  - repeat constructor; lra.
  - lra.
  - lra.
  - reflexivity.
  - reflexivity.
  - apply Rlt_le, Q2R_pos. vm_compute. reflexivity.
  - reflexivity.
  - intros k. exists 0. reflexivity.
  - exists vs, tot. repeat split; assumption.
Defined.

End QuietScan.

(** ** The simple-noise experiment *)

Section ExperimentFacts.
Import Exact JsArray RealProfile.
Local Open Scope R_scope.

Lemma Q2R_reduced (q : Q) (n : Z) (d : positive) :
  Qred q = Qmake n d -> Q2R q = IZR n / IZR (Zpos d).
Proof.
  intros H. rewrite <- (Qeq_eqR _ _ (Qred_correct q)), H. reflexivity.
Qed.

Lemma Q2R_min_area : Q2R 0.6 = 3 / 5.
Proof. apply Q2R_reduced. vm_compute. reflexivity. Qed.

Lemma Q2R_max_area : Q2R 3.2 = 16 / 5.
Proof. apply Q2R_reduced. vm_compute. reflexivity. Qed.

Lemma Q2R_copper : Q2R 1.7e-8 = 17 / 1000000000.
Proof. apply Q2R_reduced. vm_compute. reflexivity. Qed.

(** The profile the constructor and [regenerate] build for a length and a
    resistivity that are positive reals. *)
Lemma fresh_profile_real (len rho : R) (seed : Z) :
  0 < len -> 0 < rho ->
  exists (p : AreaProfile.t) (tot : R),
    VarAreaExperiment.fresh_profile (Exact.real len) (Exact.real rho) seed
    = Ok p
    /\ AreaProfile.samples p = 512%Z
    /\ AreaProfile.length p = Some len
    /\ AreaProfile.totalR p = Some tot
    /\ rho * len * 312500 <= tot <= rho * len * (5000000 / 3).
Proof.
  intros Hlen Hrho. unfold VarAreaExperiment.fresh_profile.
  destruct (new_real_profile
              (@AreaProfile.mkOpts Exact.number (Some (Exact.real len)) None
                 None None None)
              seed len (Q2R 0.6) (Q2R 3.2))
    as (p & areas & Hnew & Hs & Hp & Hb).
  - reflexivity.
  - reflexivity.
  - reflexivity.
  - rewrite Q2R_min_area, Q2R_max_area. lra.
  - cbn. unfold max_length. lia.
  - cbn [AreaProfile.opt_samples nullish] in Hs.
    unfold Exact.real in *.
    rewrite Hnew.
    assert (Hpos : Forall (fun a => 0 < a) areas).
    { rewrite Forall_forall in *. intros a Ha. specialize (Hb a Ha).
      rewrite Q2R_min_area in Hb. lra. }
    destruct (precompute_real p len rho areas Hp ltac:(lia) Hpos)
      as (Hplen & Hsam & _ & _ & Htot).
    cbv zeta in *.
    do 2 eexists. split; [reflexivity|].
    split; [exact (eq_trans Hsam Hs)|].
    split; [exact Hplen|]. split; [exact Htot|].
    pose proof (real_table_last_bounds len rho areas (AreaProfile.samples p)
                  (Q2R 0.6) (Q2R 3.2) (rp_samples Hp) ltac:(lia) Hb) as H.
    rewrite Q2R_min_area, Q2R_max_area in H.
    specialize (H ltac:(lra) Hrho Hlen).
    replace (rho * len / (16 / 5 * (1 / 1000000)))
      with (rho * len * 312500) in H by field.
    replace (rho * len / (3 / 5 * (1 / 1000000)))
      with (rho * len * (5000000 / 3)) in H by field.
    exact H.
Qed.

(** X17: the constructor of the simple-noise experiment always succeeds: it
    returns an experiment with an empty log, the current 0.25 A, and a
    profile of 512 samples whose total resistance lies between
    [17 / 3200] and [17 / 600] ohm, the resistances of a copper bar of 1 m
    with the uniform areas 3.2 mm^2 and 0.6 mm^2. *)
Theorem experiment_constructed (random_seed : Z) :
  exists (e : VarAreaExperiment.t) (tot : R),
    VarAreaExperiment.new random_seed = Ok e
    /\ MeasurementLog.data (VarAreaExperiment.log e) = []
    /\ VarAreaExperiment.currentA e = lit 0.25
    /\ AreaProfile.samples (VarAreaExperiment.areaProfile e) = 512%Z
    /\ AreaProfile.length (VarAreaExperiment.areaProfile e)
       = VarAreaExperiment.length e
    /\ AreaProfile.totalR (VarAreaExperiment.areaProfile e) = Some tot
    /\ 17 / 3200 <= tot <= 17 / 600.
Proof.
  unfold VarAreaExperiment.new. cbv zeta.
  assert (Hrho : 0 < Q2R 1.7e-8) by (rewrite Q2R_copper; lra).
  destruct (fresh_profile_real 1 (Q2R 1.7e-8) random_seed ltac:(lra) Hrho)
    as (p & tot & Hp & Hs & Hl & Htot & Hb).
  change (VarAreaExperiment.fresh_profile (of_Z 1) (lit 1.7e-8) random_seed)
    with (VarAreaExperiment.fresh_profile (Exact.real 1)
            (Exact.real (Q2R 1.7e-8)) random_seed).
  rewrite Hp.
  do 2 eexists. split; [reflexivity|].
  cbn [VarAreaExperiment.log VarAreaExperiment.currentA
       VarAreaExperiment.areaProfile VarAreaExperiment.length].
  split; [reflexivity|]. split; [reflexivity|]. split; [exact Hs|].
  split; [exact Hl|]. split; [exact Htot|].
  rewrite Q2R_copper in Hb. lra.
Qed.

End ExperimentFacts.

(** X18: [regenerate()] rebuilds what the constructor built: on an experiment
    whose length and resistivity are the constructor's, it succeeds exactly
    when the constructor would with the same value of [Math.random], and
    then returns the experiment with the constructor's profile for that
    value and an empty log, the current, the noise level, the probe
    position and the toggles being kept. *)
Theorem regenerate_as_constructed {NUM : Number} (e : VarAreaExperiment.t)
    (random_seed : Z) :
  VarAreaExperiment.length e = of_Z 1 ->
  VarAreaExperiment.rho e = lit 1.7e-8 ->
  VarAreaExperiment.regenerate e random_seed
  = match VarAreaExperiment.new random_seed with
    | JsArray.Throw x => JsArray.Throw x
    | JsArray.Ok e1 =>
        JsArray.Ok
          (VarAreaExperiment.mk (VarAreaExperiment.length e1)
             (VarAreaExperiment.rho e1) (VarAreaExperiment.areaProfile e1)
             (VarAreaExperiment.currentA e) (VarAreaExperiment.noiseStd e)
             (VarAreaExperiment.probeX e) (VarAreaExperiment.log e1)
             (VarAreaExperiment.showTruth e)
             (VarAreaExperiment.autoShowIdeal e))
    end.
Proof.
  intros Hlen Hrho.
  unfold VarAreaExperiment.regenerate, VarAreaExperiment.new. cbv zeta.
  rewrite Hlen, Hrho.
  destruct (VarAreaExperiment.fresh_profile (of_Z 1) (lit 1.7e-8) random_seed)
    as [p|x]; [|reflexivity].
  unfold VarAreaExperiment.with_log, VarAreaExperiment.with_areaProfile,
    MeasurementLog.clear, MeasurementLog.new.
  cbn [VarAreaExperiment.length VarAreaExperiment.rho
       VarAreaExperiment.areaProfile VarAreaExperiment.currentA
       VarAreaExperiment.noiseStd VarAreaExperiment.probeX
       VarAreaExperiment.log VarAreaExperiment.showTruth
       VarAreaExperiment.autoShowIdeal].
  rewrite Hlen, Hrho. reflexivity.
Qed.

Lemma regenerate_as_constructed_witness :
  VarAreaExperiment.regenerate quiet_experiment 7
  = match VarAreaExperiment.new 7 with
    | JsArray.Throw x => JsArray.Throw x
    | JsArray.Ok e1 =>
        JsArray.Ok
          (VarAreaExperiment.mk (VarAreaExperiment.length e1)
             (VarAreaExperiment.rho e1) (VarAreaExperiment.areaProfile e1)
             (VarAreaExperiment.currentA quiet_experiment)
             (VarAreaExperiment.noiseStd quiet_experiment)
             (VarAreaExperiment.probeX quiet_experiment)
             (VarAreaExperiment.log e1)
             (VarAreaExperiment.showTruth quiet_experiment)
             (VarAreaExperiment.autoShowIdeal quiet_experiment))
    end.
Proof.
  apply (regenerate_as_constructed quiet_experiment 7); reflexivity.
Defined.

(** ** The table of the Johnson-noise sketch *)

Section TaperTable.
Import Exact JsArray RealProfile TaperReals.
Local Open Scope R_scope.

(** The ratio of two consecutive increments of the table. *)
Lemma taper_ratio_gt_1 : 1 < Rtrigo_def.exp (2 * dx / ell).
Proof.
  destruct taper_constants as (_ & Hdx & Hell & _).
  rewrite <- exp_0. apply exp_increasing.
  apply Rdiv_lt_0_compat; lra.
Qed.

Lemma exp_pow (y : R) (n : nat) :
  Rtrigo_def.exp y ^ n = Rtrigo_def.exp (INR n * y).
Proof.
  induction n as [|n IH].
  - cbn [pow INR]. rewrite Rmult_0_l, exp_0. reflexivity.
  - rewrite S_INR, <- tech_pow_Rmult, IH, <- exp_plus. f_equal. ring.
Qed.

Lemma taper_term_geometric (n : nat) :
  taper_term (Z.of_nat n)
  = rho * dx / (Rtrigo1.PI * (r0 * r0)) * Rtrigo_def.exp (2 * dx / ell) ^ n.
Proof.
  destruct taper_constants as (_ & Hdx & Hell & Hr0 & _).
  pose proof PI_RGT_0 as Hpi.
  unfold taper_term. rewrite powerRZ_square, exp_pow, <- INR_IZR_INZ.
  set (y := INR n * dx / ell).
  replace (- (INR n * dx) / ell) with (- y) by (unfold y; field; lra).
  replace (INR n * (2 * dx / ell)) with (y + y) by (unfold y; field; lra).
  rewrite exp_plus, exp_Ropp.
  pose proof (exp_pos y) as Hy.
  field. repeat split; lra.
Qed.

Lemma taper_table_closed (n : nat) :
  (n <= 511)%nat ->
  let q := Rtrigo_def.exp (2 * dx / ell) in
  let a := rho * dx / (Rtrigo1.PI * (r0 * r0)) in
  nth n taper_table 0 = a * q * (q ^ n - 1) / (q - 1).
Proof.
  intros Hn q a.
  pose proof taper_ratio_gt_1 as Hq. fold q in Hq.
  induction n as [|n IH].
  - unfold taper_table. cbn [nth pow]. field. lra.
  - rewrite taper_table_step by lia. rewrite IH by lia.
    replace (1 + Z.of_nat n)%Z with (Z.of_nat (S n)) by lia.
    rewrite taper_term_geometric. fold q a.
    rewrite <- (tech_pow_Rmult q n). field. lra.
Qed.

(** X19: the table of the tapered bar is a geometric series: for every seed
    and every index [i] from 0 to 511,
    [cumulative[i] = a * q * (q^i - 1) / (q - 1)], with
    [a = rho * dx / (PI * r0^2)] the resistance of a step of the bar at
    its thick end and [q = exp(2 * dx / ell) > 1]. *)
Theorem taper_table_geometric (seed : Z) :
  let q := Rtrigo_def.exp (2 * dx / ell) in
  let a := rho * dx / (Rtrigo1.PI * (r0 * r0)) in
  1 < q
  /\ 0 < a
  /\ exists e : TaperExperiment.t,
       TaperExperiment.new seed = Ok e
       /\ Z.of_nat (length (TaperExperiment.cumulative e)) = 512%Z
       /\ forall n : nat,
            (n <= 511)%nat ->
            get (TaperExperiment.cumulative e) (Z.of_nat n)
            = Some (a * q * (q ^ n - 1) / (q - 1)).
Proof.
  intros q a.
  pose proof taper_ratio_gt_1 as Hq. fold q in Hq.
  destruct taper_constants as (_ & Hdx & Hell & Hr0 & Hrho & _).
  pose proof PI_RGT_0 as Hpi.
  split; [exact Hq|]. split.
  { unfold a. apply Rdiv_lt_0_compat; [nra|].
    apply Rmult_lt_0_compat; [exact Hpi | nra]. }
  destruct (taper_new_real seed) as (e & Hnew & Hcum & _).
  exists e. split; [exact Hnew|]. rewrite Hcum, length_map, taper_table_length.
  split; [reflexivity|].
  intros n Hn. rewrite <- (app_nil_r (map Some taper_table)).
  rewrite get_real by (rewrite taper_table_length; lia).
  rewrite Nat2Z.id. f_equal. apply (taper_table_closed n Hn).
Qed.

Lemma taper_table_increasing : strictly_increasing taper_table.
Proof.
  unfold taper_table. apply real_sums_increasing.
  intros i _. apply taper_term_pos.
Qed.

(** X20: the resistance the [Add Reading] handler reads never decreases
    along the bar.  For every seed and all probe positions [x1 <= x2] it is
    one of the 512 entries of the table, [cumulative[k1]] for [x1] and
    [cumulative[k2]] for [x2] with [k1 <= k2], and
    [0 <= R(x1) <= R(x2) <= cumulative[511]]; it is 0 at every position
    [x <= 0] and [cumulative[511]] at every position from [512 * dx] on. *)
Theorem taper_resistance_monotone (seed : Z) :
  exists e0 : TaperExperiment.t,
    TaperExperiment.new seed = Ok e0
    /\ forall x1 x2 : R,
         x1 <= x2 ->
         exists (k1 k2 : Z) (r1 r2 rmax : R),
           TaperExperiment.res_curr (TaperExperiment.with_probeX e0 (Some x1))
           = Some r1
           /\ TaperExperiment.res_curr
                (TaperExperiment.with_probeX e0 (Some x2))
              = Some r2
           /\ (0 <= k1 <= k2)%Z /\ (k2 <= 511)%Z
           /\ get (TaperExperiment.cumulative e0) k1 = Some r1
           /\ get (TaperExperiment.cumulative e0) k2 = Some r2
           /\ get (TaperExperiment.cumulative e0) 511 = Some rmax
           /\ 0 <= r1 <= r2
           /\ r2 <= rmax
           /\ (x1 <= 0 -> r1 = 0)
           /\ (512 * dx <= x2 -> r2 = rmax).
Proof.
  destruct taper_constants as (_ & Hdx & _).
  destruct (taper_new_real seed) as (e0 & Hnew & Hcum & _ & _ & Hdx0 & _).
  exists e0. split; [exact Hnew|]. intros x1 x2 Hx.
  set (k1 := Z.max (Z.min (Int_part (x1 / dx)) 511) 0).
  set (k2 := Z.max (Z.min (Int_part (x2 / dx)) 511) 0).
  assert (Hget : forall i : Z,
             (0 <= i <= 511)%Z ->
             get (TaperExperiment.cumulative e0) i
             = Some (nth (Z.to_nat i) taper_table 0)).
  { intros i Hi. rewrite Hcum, <- (app_nil_r (map Some taper_table)).
    apply get_real. rewrite taper_table_length. lia. }
  assert (Hq : x1 / dx <= x2 / dx).
  { apply Rmult_le_compat_r; [|exact Hx].
    apply Rlt_le, Rinv_0_lt_compat, Hdx. }
  pose proof (Int_part_le _ _ Hq) as Hfl.
  assert (H12 : (0 <= k1 <= k2)%Z) by (unfold k1, k2; lia).
  assert (H2 : (k2 <= 511)%Z) by (unfold k2; lia).
  pose proof taper_table_nondecreasing as Hnd.
  exists k1, k2, (nth (Z.to_nat k1) taper_table 0),
         (nth (Z.to_nat k2) taper_table 0), (nth 511 taper_table 0).
  split; [apply res_curr_real; [exact Hcum | exact Hdx0 | reflexivity]|].
  split; [apply res_curr_real; [exact Hcum | exact Hdx0 | reflexivity]|].
  split; [exact H12|]. split; [exact H2|].
  split; [apply Hget; lia|]. split; [apply Hget; lia|].
  split; [apply (Hget 511%Z); lia|].
  split; [split|split; [|split]].
  - apply taper_table_nonneg. lia.
  - apply Hnd. rewrite taper_table_length. lia.
  - apply Hnd. rewrite taper_table_length. lia.
  - intros Hlow.
    assert (Hi : k1 = 0%Z).
    { assert (Hq0 : x1 / dx <= 0).
      { unfold Rdiv.
        assert (Hinv : 0 < / dx) by (apply Rinv_0_lt_compat, Hdx). nra. }
      pose proof (Int_part_le _ _ Hq0) as Hle.
      rewrite (Int_part_IZR 0) in Hle. unfold k1. lia. }
    rewrite Hi. reflexivity.
  - intros Hhigh.
    assert (Hi : k2 = 511%Z).
    { assert (Hq512 : 512 <= x2 / dx).
      { apply Rmult_le_reg_r with dx; [exact Hdx|].
        unfold Rdiv. rewrite Rmult_assoc, Rinv_l by lra. lra. }
      pose proof (Int_part_le _ _ Hq512) as Hle.
      rewrite (Int_part_IZR 512) in Hle. unfold k2. lia. }
    rewrite Hi. reflexivity.
Qed.

Lemma total_std_square (r : R) :
  0 <= r ->
  total_std r * total_std r
  = 4 * k_b * 300 * r * 9000000000 + ampStd * ampStd
  /\ ampStd <= total_std r.
Proof.
  intros Hr. destruct taper_constants as (_ & _ & _ & _ & _ & Hk & Ha).
  assert (H1 : 0 <= 4 * k_b * 300 * r * 9000000000).
  { apply Rmult_le_pos; [apply Rmult_le_pos; [apply Rmult_le_pos;
      [apply Rmult_le_pos|]|]|]; lra. }
  unfold total_std. rewrite (sqrt_sqrt _ H1).
  assert (H2 : 0 <= 4 * k_b * 300 * r * 9000000000 + ampStd * ampStd) by nra.
  split.
  - apply sqrt_sqrt, H2.
  - rewrite <- (sqrt_square ampStd) at 1 by lra.
    apply sqrt_le_1_alt. lra.
Qed.

(** X21: the noise of a reading never falls below the instrument noise: for
    every seed, probe position [x], current [I] and real draw [z] the
    handler measures [I * R + s * z] with [R >= 0] the resistance it reads,
    [s^2 = 4 * k_b * T * R * BW + 0.003^2] and [s >= 0.003]. *)
Theorem taper_noise_floor (seed : Z) :
  exists e0 : TaperExperiment.t,
    TaperExperiment.new seed = Ok e0
    /\ forall (x0 i0 z : R) (g : @P5.Gaussian Exact.number),
         P5.draws g (P5.taken g) = Some z ->
         exists r s : R,
           TaperExperiment.res_curr
             (TaperExperiment.with_currentA
                (TaperExperiment.with_probeX e0 (Some x0)) (Some i0))
           = Some r
           /\ fst (TaperExperiment.measure
                     (TaperExperiment.with_currentA
                        (TaperExperiment.with_probeX e0 (Some x0)) (Some i0))
                     g)
              = Some (i0 * r + s * z)
           /\ 0 <= r
           /\ s * s
              = 4 * Q2R 1.380649e-23 * 300 * r * 9000000000
                + Q2R 0.003 * Q2R 0.003
           /\ Q2R 0.003 <= s.
Proof.
  destruct (taper_new_real seed)
    as (e0 & Hnew & Hcum & HL & Hn & Hdx & HI & Hk & HT & HBW & Hread).
  exists e0. split; [exact Hnew|]. intros x0 i0 z g Hz.
  set (e := TaperExperiment.with_currentA
              (TaperExperiment.with_probeX e0 (Some x0)) (Some i0)).
  destruct (res_curr_entry e x0 Hcum Hdx eq_refl) as (k & Hk511 & Hres).
  set (r := nth (Z.to_nat k) taper_table 0) in *.
  assert (Hr : 0 <= r) by (apply taper_table_nonneg; lia).
  exists r, (total_std r). split; [exact Hres|]. split.
  - unfold TaperExperiment.measure. rewrite Hres.
    cbn [P5.randomGaussian]. rewrite Hz.
    cbn [TaperExperiment.currentA TaperExperiment.k_b TaperExperiment.tempK
         TaperExperiment.noiseBW TaperExperiment.with_currentA
         TaperExperiment.with_probeX e].
    rewrite Hk, HT, HBW.
    rewrite (noisy_reading_real i0 r z Hr). reflexivity.
  - split; [exact Hr|]. exact (total_std_square r Hr).
Qed.

End TaperTable.

(** ** Readings of the simple-noise sketch *)

Section Readings.
Context {NUM : Number}.

(** The reading at the probe for the draw [z]. *)
Lemma measureVoltage_unfold (e : VarAreaExperiment.t) (x0 : num)
    (g : P5.Gaussian) :
  VarAreaExperiment.measureVoltage e x0 g
  = ((VarAreaExperiment.currentA e
      * AreaProfile.resistanceUpTo (VarAreaExperiment.areaProfile e) x0
      + VarAreaExperiment.noiseStd e * P5.draws g (P5.taken g))%num,
     P5.mkGaussian (P5.draws g) (S (P5.taken g))).
Proof. reflexivity. Qed.

(** X22: [n] presses of [Add Reading] append [n] samples to the log, in the
    order of the presses and behind the samples it held; each sample is
    taken at the probe position, and the press [j] logs
    [currentA * resistanceUpTo(probeX) + noiseStd * z] for the draw [z]
    number [j] after those already taken; nothing else of the experiment
    changes. *)
Theorem addReading_repeated (n : nat) :
  forall (e : VarAreaExperiment.t) (g : P5.Gaussian),
    let e' := fst (addReadings n e g) in
    let g' := snd (addReadings n e g) in
    MeasurementLog.data (VarAreaExperiment.log e')
    = MeasurementLog.data (VarAreaExperiment.log e)
      ++ List.map
           (fun j =>
              MeasurementLog.mkSample (VarAreaExperiment.probeX e)
                (VarAreaExperiment.currentA e
                 * AreaProfile.resistanceUpTo (VarAreaExperiment.areaProfile e)
                     (VarAreaExperiment.probeX e)
                 + VarAreaExperiment.noiseStd e
                   * P5.draws g (P5.taken g + j)%nat)%num)
           (seq 0 n)
    /\ e' = VarAreaExperiment.with_log e (VarAreaExperiment.log e')
    /\ g' = P5.mkGaussian (P5.draws g) (P5.taken g + n)%nat.
Proof.
  induction n as [|n IH]; intros e g e' g'.
  - subst e' g'. cbn [addReadings fst snd seq List.map].
    rewrite app_nil_r, Nat.add_0_r.
    destruct e, g. split; [reflexivity|]. split; reflexivity.
  - subst e' g'. cbn [addReadings].
    unfold VarAreaExperiment.addReading. rewrite measureVoltage_unfold.
    set (v0 := (VarAreaExperiment.currentA e
                * AreaProfile.resistanceUpTo (VarAreaExperiment.areaProfile e)
                    (VarAreaExperiment.probeX e)
                + VarAreaExperiment.noiseStd e * P5.draws g (P5.taken g))%num).
    set (e1 := VarAreaExperiment.with_log e
                 (MeasurementLog.add (VarAreaExperiment.log e)
                    (VarAreaExperiment.probeX e) v0)).
    set (g1 := P5.mkGaussian (P5.draws g) (S (P5.taken g))).
    specialize (IH e1 g1). cbv zeta in IH.
    destruct IH as (Hd & He & Hg).
    split; [|split].
    + rewrite Hd. unfold e1 at 1.
      cbn [VarAreaExperiment.with_log VarAreaExperiment.log
           MeasurementLog.add MeasurementLog.data].
      rewrite <- app_assoc. f_equal.
      cbn [seq List.map app]. rewrite Nat.add_0_r. fold v0. f_equal.
      rewrite <- seq_shift, map_map. apply map_ext. intros j.
      cbn [g1 e1 P5.draws P5.taken VarAreaExperiment.with_log
           VarAreaExperiment.probeX VarAreaExperiment.currentA
           VarAreaExperiment.areaProfile VarAreaExperiment.noiseStd].
      rewrite Nat.add_succ_r. reflexivity.
    + rewrite He at 1. reflexivity.
    + rewrite Hg. cbn [g1 P5.draws P5.taken]. f_equal. lia.
Qed.

End Readings.

(** X23: a frame reads the voltmeter twice.  [draw()] takes the current, the
    noise level and the probe position from the sliders that exist, and
    then [drawGraph()] measures the voltage for the crosshair with one
    draw and [drawMeter()] measures it again for the display with the
    next: two draws are taken per frame, and a reading logged afterwards
    uses a third.  In exact arithmetic, with a noise level other than 0 and
    two draws that differ, the crosshair and the display of one frame show
    different voltages. *)
Theorem frame_reads_voltmeter_twice :
  (forall (NUM : Number) (e : VarAreaExperiment.t)
          (c : VarAreaExperiment.sliders) (w h : num) (g : P5.Gaussian),
     let e1 := VarAreaExperiment.read_sliders e c in
     let ideal_v :=
       (VarAreaExperiment.currentA e1
        * AreaProfile.resistanceUpTo (VarAreaExperiment.areaProfile e)
            (VarAreaExperiment.probeX e1))%num in
     exists gr : VarAreaExperiment.graph,
       VarAreaExperiment.draw e c w h g
       = (e1, gr,
          (ideal_v
           + VarAreaExperiment.noiseStd e1 * P5.draws g (S (P5.taken g)))%num,
          P5.mkGaussian (P5.draws g) (S (S (P5.taken g))))
       /\ VarAreaExperiment.cv gr
          = (ideal_v
             + VarAreaExperiment.noiseStd e1 * P5.draws g (P5.taken g))%num
       /\ VarAreaExperiment.currentA e1
          = VarAreaExperiment.iSlider c ?? VarAreaExperiment.currentA e
       /\ VarAreaExperiment.noiseStd e1
          = VarAreaExperiment.nSlider c ?? VarAreaExperiment.noiseStd e
       /\ VarAreaExperiment.probeX e1
          = VarAreaExperiment.xSlider c ?? VarAreaExperiment.probeX e
       /\ MeasurementLog.data
            (VarAreaExperiment.log
               (fst (VarAreaExperiment.addReading e1
                       (P5.mkGaussian (P5.draws g) (S (S (P5.taken g)))))))
          = MeasurementLog.data (VarAreaExperiment.log e)
            ++ [MeasurementLog.mkSample (VarAreaExperiment.probeX e1)
                  (ideal_v
                   + VarAreaExperiment.noiseStd e1
                     * P5.draws g (S (S (P5.taken g))))%num])
  /\ (forall (e : @VarAreaExperiment.t Exact.number)
             (c : VarAreaExperiment.sliders) (w h : @num Exact.number)
             (g : @P5.Gaussian Exact.number) (v0 sigma z0 z1 : R),
        (VarAreaExperiment.currentA (VarAreaExperiment.read_sliders e c)
         * AreaProfile.resistanceUpTo (VarAreaExperiment.areaProfile e)
             (VarAreaExperiment.probeX (VarAreaExperiment.read_sliders e c)))
          %num
        = Some v0 ->
        VarAreaExperiment.noiseStd (VarAreaExperiment.read_sliders e c)
        = Some sigma ->
        P5.draws g (P5.taken g) = Some z0 ->
        P5.draws g (S (P5.taken g)) = Some z1 ->
        sigma <> 0%R -> z0 <> z1 ->
        let '(_, gr, reading, _) := VarAreaExperiment.draw e c w h g in
        VarAreaExperiment.cv gr <> reading).
Proof.
  split.
  - intros NUM e c w h g e1 ideal_v.
    unfold VarAreaExperiment.draw, VarAreaExperiment.drawGraph,
      VarAreaExperiment.drawMeter.
    fold e1. rewrite !measureVoltage_unfold.
    cbn [P5.draws P5.taken].
    eexists. split; [reflexivity|].
    cbn [VarAreaExperiment.cv].
    split; [reflexivity|]. split; [reflexivity|]. split; [reflexivity|].
    split; [reflexivity|].
    unfold VarAreaExperiment.addReading. rewrite measureVoltage_unfold.
    reflexivity.
  - intros e c w h g v0 sigma z0 z1 Hv Hs Hz0 Hz1 Hsig Hz.
    unfold VarAreaExperiment.draw, VarAreaExperiment.drawGraph,
      VarAreaExperiment.drawMeter.
    rewrite !measureVoltage_unfold.
    cbn [P5.draws P5.taken VarAreaExperiment.cv].
    change (VarAreaExperiment.areaProfile (VarAreaExperiment.read_sliders e c))
      with (VarAreaExperiment.areaProfile e).
    rewrite Hv, Hs, Hz0, Hz1.
    cbn [num_add num_mul Exact.number Exact.lift2].
    intros Heq. injection Heq as Heq.
    apply Hz. apply Rmult_eq_reg_l with sigma; [lra | exact Hsig].
Qed.

Section IdealCurve.
Import Exact JsArray RealProfile.
Local Open Scope R_scope.

Lemma Q2R_margin : Q2R 1.05 = 21 / 20.
Proof. apply Q2R_reduced. vm_compute. reflexivity. Qed.

Lemma Q2R_floor_volts : Q2R 0.05 = 1 / 20.
Proof. apply Q2R_reduced. vm_compute. reflexivity. Qed.

(** [map(v, 0, vmax, h, 0)] over the reals. *)
Lemma map_voltage_real (v0 vm h : R) :
  vm <> 0 ->
  P5.map (Some v0) (of_Z 0) (Some vm) (Some h) (of_Z 0)
  = Some ((v0 - 0) / (vm - 0) * (0 - h) + h).
Proof.
  intros Hvm. unfold P5.map.
  cbn [of_Z num_sub number lift2]. rewrite div_real by lra. reflexivity.
Qed.

(** X24: the ideal curve stays inside the graph.  When [drawGraph()] draws
    it, for a current that is not negative and a profile of positive area
    values precomputed with [rho > 0], each of its 220 vertices is a pair
    of reals within the graph's rectangle, [0 <= gx <= w] and
    [0 <= gy <= h]; the first vertex is the corner [(0, h)], the last one
    has [gx = w], and [vmax], the voltage of the upper edge, is at least
    0.05; with both toggles off the curve has no vertex. *)
Theorem ideal_curve_inside_graph (e : VarAreaExperiment.t)
    (p : AreaProfile.t) (len rho i0 w h : R) (areas : list R)
    (g : P5.Gaussian) :
  VarAreaExperiment.areaProfile e = AreaProfile.precompute p (Some (Some rho)) ->
  real_profile p len areas ->
  (1 <= AreaProfile.samples p)%Z ->
  Forall (fun a => 0 < a) areas ->
  0 < rho -> 0 < len ->
  VarAreaExperiment.length e = Some len ->
  VarAreaExperiment.currentA e = Some i0 -> 0 <= i0 ->
  0 <= w -> 0 <= h ->
  let curve :=
    VarAreaExperiment.ideal
      (fst (VarAreaExperiment.drawGraph e (Some w) (Some h) g)) in
  (exists vm : R, VarAreaExperiment.vmax e = Some vm /\ 1 / 20 <= vm)
  /\ (VarAreaExperiment.autoShowIdeal e || VarAreaExperiment.showTruth e
      = false -> curve = [])
  /\ (VarAreaExperiment.autoShowIdeal e || VarAreaExperiment.showTruth e
      = true ->
      length curve = 220%nat
      /\ (forall k : nat,
            (k < 220)%nat ->
            exists gx gy : R,
              nth k curve (nan, nan) = (Some gx, Some gy)
              /\ 0 <= gx <= w /\ 0 <= gy <= h)
      /\ nth 0 curve (nan, nan) = (Some 0, Some h)
      /\ fst (nth 219 curve (nan, nan)) = Some w).
Proof.
  intros Hprof Hp HN Hpos Hrho Hlen0 Hlen HI HI0 Hw Hh curve.
  destruct (precompute_real _ _ rho _ Hp HN Hpos)
    as (Hplen & Hsam & Hcs & [rest Hcum] & Htot).
  cbv zeta in Hplen, Hsam, Hcs, Hcum, Htot.
  rewrite <- Hprof in Hplen, Hsam, Hcum, Htot.
  set (cs := real_table len rho areas (AreaProfile.samples p)) in *.
  set (n := AreaProfile.samples p) in *.
  set (tot := nth (Z.to_nat (n - 1)) cs 0) in *.
  assert (Hl : len <> 0) by lra.
  assert (Hnd : nondecreasing cs).
  { apply real_table_nondecreasing; try lra; auto. apply (rp_samples Hp). }
  assert (Htot0 : 0 <= tot).
  { change 0 with (nth 0 cs 0). apply Hnd. lia. }
  set (vm := Rmax (i0 * tot * (21 / 20)) (1 / 20)).
  assert (Hvm : VarAreaExperiment.vmax e = Some vm).
  { unfold VarAreaExperiment.vmax. rewrite HI, Htot.
    cbn [lit num_mul Math_max number lift2].
    rewrite Q2R_margin, Q2R_floor_volts. reflexivity. }
  assert (Hvm1 : 1 / 20 <= vm) by apply Rmax_r.
  assert (Hvm2 : i0 * tot <= vm).
  { apply Rle_trans with (2 := Rmax_l _ _). nra. }
  set (res := fun x0 : R => interpolate cs (clamp01 (x0 / len) * IZR (n - 1))).
  assert (HR : forall x0 : R,
             AreaProfile.resistanceUpTo (VarAreaExperiment.areaProfile e)
               (Some x0)
             = Some (res x0)).
  { intros x0.
    rewrite (resistanceUpTo_real _ len cs rest x0 Hplen Hl Hcum) by lia.
    rewrite Hsam. reflexivity. }
  assert (HRb : forall x0 : R, 0 <= res x0 <= tot).
  { intros x0. unfold res.
    assert (Hidx : 0 <= clamp01 (x0 / len) * IZR (n - 1)
                   <= IZR (Z.of_nat (length cs) - 1)).
    { rewrite Hcs. pose proof (clamp01_bounds (x0 / len)).
      assert (0 <= IZR (n - 1)) by (apply IZR_le; lia). nra. }
    pose proof (interpolate_range cs _ Hnd Hidx) as Hr.
    rewrite Hcs in Hr. exact Hr. }
  assert (Hvert : forall i : Z,
             VarAreaExperiment.ideal_vertex e (Some w) (Some h) i
             = (Some (IZR i / 219 * w),
                Some ((i0 * res (IZR i / 219 * len) - 0) / (vm - 0) * (0 - h)
                      + h))).
  { intros i. unfold VarAreaExperiment.ideal_vertex. cbv zeta.
    change (220 - 1)%Z with 219%Z. cbn [of_Z number].
    rewrite div_real by lra. rewrite Hlen, HI, Hvm.
    cbn [num_mul number lift2]. rewrite HR.
    cbn [num_mul number lift2].
    rewrite map_voltage_real by lra. reflexivity. }
  split; [exists vm; split; [exact Hvm | exact Hvm1]|].
  unfold curve, VarAreaExperiment.drawGraph.
  rewrite measureVoltage_unfold. cbn [fst VarAreaExperiment.ideal].
  split.
  - intros ->. reflexivity.
  - intros ->.
    assert (Hnth : forall k : nat,
               (k < 220)%nat ->
               nth k (List.map (VarAreaExperiment.ideal_vertex e (Some w)
                                  (Some h)) (range 0 220)) (nan, nan)
               = VarAreaExperiment.ideal_vertex e (Some w) (Some h)
                   (Z.of_nat k)).
    { intros k Hk.
      rewrite (nth_indep _ (nan, nan)
                 (VarAreaExperiment.ideal_vertex e (Some w) (Some h) 0%Z))
        by (rewrite length_map, range_length; lia).
      rewrite (map_nth (VarAreaExperiment.ideal_vertex e (Some w) (Some h))).
      rewrite range_nth by lia. f_equal. }
    split; [rewrite length_map, range_length; reflexivity|].
    split; [|split].
    + intros k Hk. rewrite (Hnth k Hk), Hvert.
      do 2 eexists. split; [reflexivity|].
      assert (Hk0 : 0 <= IZR (Z.of_nat k)) by (apply IZR_le; lia).
      assert (Hk1 : IZR (Z.of_nat k) <= 219) by (apply IZR_le; lia).
      pose proof (HRb (IZR (Z.of_nat k) / 219 * len)) as Hb.
      set (r := res (IZR (Z.of_nat k) / 219 * len)) in *.
      assert (Hq : 0 <= (i0 * r - 0) / (vm - 0) <= 1).
      { assert (Hvpos : 0 < vm - 0) by lra.
        assert (Hinv : 0 < / (vm - 0)) by (apply Rinv_0_lt_compat, Hvpos).
        split.
        - unfold Rdiv. apply Rmult_le_pos; [nra | lra].
        - apply Rmult_le_reg_r with (vm - 0); [exact Hvpos|].
          unfold Rdiv. rewrite Rmult_assoc, Rinv_l by lra. nra. }
      split; [split; nra | split; nra].
    + rewrite (Hnth O) by lia. rewrite Hvert.
      change (IZR (Z.of_nat 0)) with 0.
      assert (HR0 : res (0 / 219 * len) = 0).
      { unfold res. replace (0 / 219 * len / len) with 0 by (field; lra).
        rewrite (clamp01_inside 0), Rmult_0_l by lra.
        apply interpolate_at_zero. }
      rewrite HR0. f_equal; f_equal; [lra|].
      unfold Rdiv. rewrite Rmult_0_r, Rminus_0_r, Rmult_0_l. lra.
    + rewrite (Hnth 219%nat) by lia. rewrite Hvert. cbn [fst].
      change (IZR (Z.of_nat 219)) with 219. f_equal. field.
Qed.

Lemma ideal_curve_inside_graph_witness :
  exists vm : R, VarAreaExperiment.vmax quiet_precomputed = Some vm
                 /\ 1 / 20 <= vm.
Proof.
  apply (ideal_curve_inside_graph quiet_precomputed demo_profile 1 1
           (Q2R 0.25) 100 50 [1; 2; 1] zero_draws).
  - reflexivity.
  - exact demo_profile_real.
  - cbn. lia.
  - repeat constructor; lra.
  - lra.
  - lra.
  - reflexivity.
  - reflexivity.
  - apply Rlt_le, Q2R_pos. vm_compute. reflexivity.
  - lra.
  - lra.
Defined.

End IdealCurve.

(** ** The slope of the resistance *)

Section ResistanceSlope.
Import Exact JsArray RealProfile.
Local Open Scope R_scope.

Lemma real_table_step (len rho : R) (areas : list R) (n : Z) (j : nat) :
  (Z.of_nat j < n - 1)%Z ->
  nth (S j) (real_table len rho areas n) 0
  = nth j (real_table len rho areas n) 0
    + real_term len rho areas n (1 + Z.of_nat j).
Proof.
  intros Hj. unfold real_table.
  rewrite (nth_succ_cons 0 _ 0 j).
  apply real_sums_nth. lia.
Qed.

(** X25: between two samples the resistance grows at the rate
    [rho / area[i + 1]], the area of the sample at the right end taken in
    m^2: for [i * dx <= x <= (i + 1) * dx],
    [resistanceUpTo(x) = cumulative[i] + (x - i * dx) * rho
                                          / (area[i + 1] * 1e-6)]. *)
Theorem resistanceUpTo_piecewise_linear (p : AreaProfile.t) (len rho : R)
    (areas : list R) (i : Z) (x0 : R) :
  real_profile p len areas ->
  (2 <= AreaProfile.samples p)%Z ->
  Forall (fun a => 0 < a) areas ->
  0 < len ->
  (0 <= i < AreaProfile.samples p - 1)%Z ->
  let dx := len / IZR (AreaProfile.samples p - 1) in
  IZR i * dx <= x0 <= IZR (i + 1) * dx ->
  let p' := AreaProfile.precompute p (Some (Some rho)) in
  exists ci : R,
    get (AreaProfile.cumulative p') i = Some ci
    /\ AreaProfile.resistanceUpTo p' (Some x0)
       = Some (ci + (x0 - IZR i * dx)
                    * (rho / (nth (Z.to_nat (i + 1)) areas 0
                              * (1 / 1000000)))).
Proof.
  intros Hp HN Hpos Hlen0 Hi dx Hx p'.
  assert (HN1 : (1 <= AreaProfile.samples p)%Z) by lia.
  destruct (precompute_real _ _ rho _ Hp HN1 Hpos)
    as (Hlen & Hsam & Hcs & [rest Hcum] & _).
  fold p' in Hlen, Hsam, Hcum.
  set (n := AreaProfile.samples p) in *.
  set (cs := real_table len rho areas n) in *.
  assert (Hl : len <> 0) by lra.
  assert (Hd : 0 < IZR (n - 1)) by (apply IZR_lt; lia).
  assert (Hdx : 0 < dx) by (apply Rdiv_lt_0_compat; assumption).
  assert (Hi0 : 0 <= IZR i) by (apply IZR_le; lia).
  assert (Hi1 : IZR (i + 1) <= IZR (n - 1)) by (apply IZR_le; lia).
  rewrite plus_IZR in Hx, Hi1.
  exists (nth (Z.to_nat i) cs 0). split.
  { rewrite Hcum. apply get_real. lia. }
  rewrite (resistanceUpTo_real p' len cs rest x0 Hlen Hl Hcum) by lia.
  rewrite Hsam. f_equal.
  set (idx := x0 / dx).
  assert (Hidx : x0 / len * IZR (n - 1) = idx).
  { unfold idx, dx. field. split; lra. }
  assert (Hb : IZR i <= idx <= IZR i + 1).
  { unfold idx. split.
    - apply Rmult_le_reg_r with dx; [exact Hdx|].
      unfold Rdiv. rewrite Rmult_assoc, Rinv_l by lra. lra.
    - apply Rmult_le_reg_r with dx; [exact Hdx|].
      unfold Rdiv. rewrite Rmult_assoc, Rinv_l by lra. lra. }
  assert (Hin : 0 <= x0 / len <= 1).
  { assert (Hinv : 0 < / IZR (n - 1)) by (apply Rinv_0_lt_compat, Hd).
    replace (x0 / len) with (idx * / IZR (n - 1))
      by (unfold idx, dx; field; split; lra).
    split; [nra|].
    apply Rmult_le_reg_r with (IZR (n - 1)); [exact Hd|].
    rewrite Rmult_assoc, Rinv_l by lra. lra. }
  rewrite (clamp01_inside _ Hin), Hidx.
  assert (Hstep : nth (Z.to_nat (i + 1)) cs 0
                  = nth (Z.to_nat i) cs 0
                    + rho / (nth (Z.to_nat (i + 1)) areas 0 * (1 / 1000000))
                      * dx).
  { replace (Z.to_nat (i + 1)) with (S (Z.to_nat i)) by lia.
    unfold cs. rewrite real_table_step by lia.
    unfold real_term.
    replace (1 + Z.of_nat (Z.to_nat i))%Z with (i + 1)%Z by lia.
    replace (Z.to_nat (i + 1)) with (S (Z.to_nat i)) by lia.
    reflexivity. }
  assert (Ha : 0 < nth (Z.to_nat (i + 1)) areas 0).
  { rewrite Forall_forall in Hpos. apply Hpos, nth_In.
    pose proof (rp_samples Hp). lia. }
  set (a := nth (Z.to_nat (i + 1)) areas 0) in *.
  assert (Hx0 : x0 = idx * dx) by (unfold idx; field; lra).
  unfold interpolate.
  destruct (Rle_lt_or_eq_dec _ _ (proj2 Hb)) as [Hlt|Heq].
  - rewrite (Int_part_unique idx i) by lra.
    rewrite Z.min_r by lia. rewrite Hstep, Hx0. field. lra.
  - rewrite Heq, <- plus_IZR, Int_part_IZR.
    replace (IZR (i + 1) - IZR (i + 1)) with 0 by ring.
    rewrite Rmult_0_l, Rplus_0_l, Hstep, Hx0, Heq. field. lra.
Qed.

Lemma resistanceUpTo_piecewise_linear_witness :
  exists ci : R,
    get (AreaProfile.cumulative
           (AreaProfile.precompute demo_profile (Some (Some 1)))) 1
    = Some ci
    /\ AreaProfile.resistanceUpTo
         (AreaProfile.precompute demo_profile (Some (Some 1))) (Some (3 / 4))
       = Some (ci + (3 / 4 - IZR 1 * (1 / IZR (3 - 1)))
                    * (1 / (nth (Z.to_nat (1 + 1)) [1; 2; 1] 0
                            * (1 / 1000000)))).
Proof.
  apply (resistanceUpTo_piecewise_linear demo_profile 1 1 [1; 2; 1] 1
           (3 / 4)).
  - exact demo_profile_real.
  - cbn. lia.
  - repeat constructor; lra.
  - lra.
  - cbn. lia.
  - cbn [AreaProfile.samples demo_profile]. change (3 - 1)%Z with 2%Z.
    change (1 + 1)%Z with 2%Z. lra.
Defined.

End ResistanceSlope.

(** ** The bar *)

Section BarDrawing.
Import Exact JsArray RealProfile.
Local Open Scope R_scope.

Lemma Q2R_bar_span : Q2R 0.75 = 3 / 4.
Proof. apply Q2R_reduced. vm_compute. reflexivity. Qed.

(** X26: the line [drawBar()] traces for the area profile stays inside the
    bar.  For a profile whose area samples lie within its bounds
    [minArea < maxArea], an experiment length other than 0 and a rectangle of
    width [w >= 0] and height [h >= 0], each of the 256 vertices is a pair of
    reals with [0 <= ax <= w] and [h / 4 <= ay <= 77 / 80 * h]; the mask is
    drawn over the line exactly when [showTruth] is off; and the probe
    marker stands at [probeX / length * w]. *)
Theorem bar_profile_inside (e : VarAreaExperiment.t) (len lo hi w h x0 : R)
    (areas : list R) :
  real_profile (VarAreaExperiment.areaProfile e) len areas ->
  (1 <= AreaProfile.samples (VarAreaExperiment.areaProfile e))%Z ->
  AreaProfile.minArea (VarAreaExperiment.areaProfile e) = Some lo ->
  AreaProfile.maxArea (VarAreaExperiment.areaProfile e) = Some hi ->
  lo < hi ->
  Forall (fun a => lo <= a <= hi) areas ->
  VarAreaExperiment.length e = Some len -> len <> 0 ->
  VarAreaExperiment.probeX e = Some x0 ->
  0 <= w -> 0 <= h ->
  let b := VarAreaExperiment.drawBar e (Some w) (Some h) in
  length (VarAreaExperiment.profile_line b) = 256%nat
  /\ (forall k : nat,
        (k < 256)%nat ->
        exists ax ay : R,
          nth k (VarAreaExperiment.profile_line b) (nan, nan)
          = (Some ax, Some ay)
          /\ 0 <= ax <= w /\ h / 4 <= ay <= 77 / 80 * h)
  /\ VarAreaExperiment.masked b = negb (VarAreaExperiment.showTruth e)
  /\ VarAreaExperiment.probe_marker b = Some (x0 / len * w).
Proof.
  intros Hp HN Hlo Hhi Hlh Hb Hlen Hl Hx Hw Hh b.
  set (A := fun x1 : R =>
              interpolate areas
                (clamp01 (x1 / len)
                 * IZR (AreaProfile.samples (VarAreaExperiment.areaProfile e)
                        - 1))).
  assert (HA : forall x1 : R,
             AreaProfile.areaAt (VarAreaExperiment.areaProfile e) (Some x1)
             = Some (A x1)).
  { intros x1. apply (areaAt_real _ len areas x1 Hp Hl HN). }
  assert (HAb : forall x1 : R, lo <= A x1 <= hi).
  { intros x1. unfold A. apply interpolate_within; [exact Hb|].
    rewrite (rp_samples Hp).
    pose proof (clamp01_bounds (x1 / len)).
    assert (0 <= IZR (AreaProfile.samples (VarAreaExperiment.areaProfile e)
                      - 1)) by (apply IZR_le; lia).
    nra. }
  assert (Hvert : forall i : Z,
             VarAreaExperiment.bar_vertex e (Some w) (Some h) i
             = (Some (IZR i / 255 * w),
                Some (h * (1 - ((A (IZR i / 255 * len) - lo) / (hi - lo)
                                * (1 - 1 / 20) + 1 / 20) * (3 / 4))))).
  { intros i. unfold VarAreaExperiment.bar_vertex. cbv zeta.
    change (256 - 1)%Z with 255%Z. cbn [of_Z number].
    rewrite div_real by lra. rewrite Hlen, Hlo, Hhi.
    cbn [num_mul number lift2]. rewrite HA.
    unfold P5.map. cbn [lit of_Z num_sub number lift2].
    rewrite div_real by lra.
    cbn [num_mul num_add num_sub number lift2].
    rewrite Q2R_floor_volts, Q2R_bar_span. reflexivity. }
  unfold b, VarAreaExperiment.drawBar.
  cbn [VarAreaExperiment.profile_line VarAreaExperiment.masked
       VarAreaExperiment.probe_marker].
  split; [rewrite length_map, range_length; reflexivity|].
  split; [|split; [reflexivity|]].
  - intros k Hk.
    rewrite (nth_indep _ (nan, nan)
               (VarAreaExperiment.bar_vertex e (Some w) (Some h) 0%Z))
      by (rewrite length_map, range_length; lia).
    rewrite (map_nth (VarAreaExperiment.bar_vertex e (Some w) (Some h))).
    rewrite range_nth by lia. rewrite Hvert.
    do 2 eexists. split; [reflexivity|].
    assert (Hk0 : 0 <= IZR (0 + Z.of_nat k)) by (apply IZR_le; lia).
    assert (Hk1 : IZR (0 + Z.of_nat k) <= 255) by (apply IZR_le; lia).
    pose proof (HAb (IZR (0 + Z.of_nat k) / 255 * len)) as Ha.
    set (a := A (IZR (0 + Z.of_nat k) / 255 * len)) in *.
    assert (Hq : 0 <= (a - lo) / (hi - lo) <= 1).
    { assert (Hd : 0 < hi - lo) by lra.
      assert (Hinv : 0 < / (hi - lo)) by (apply Rinv_0_lt_compat, Hd).
      split.
      - unfold Rdiv. apply Rmult_le_pos; lra.
      - apply Rmult_le_reg_r with (hi - lo); [exact Hd|].
        unfold Rdiv. rewrite Rmult_assoc, Rinv_l by lra. lra. }
    split; [split; nra | split; nra].
  - unfold P5.map. rewrite Hx, Hlen.
    cbn [of_Z num_sub number lift2]. rewrite div_real by lra.
    cbn [num_mul num_add number lift2]. f_equal. field. exact Hl.
Qed.

Lemma bar_profile_inside_witness :
  let b := VarAreaExperiment.drawBar quiet_experiment (Some 100) (Some 40) in
  length (VarAreaExperiment.profile_line b) = 256%nat
  /\ (forall k : nat,
        (k < 256)%nat ->
        exists ax ay : R,
          nth k (VarAreaExperiment.profile_line b) (nan, nan)
          = (Some ax, Some ay)
          /\ 0 <= ax <= 100 /\ 40 / 4 <= ay <= 77 / 80 * 40)
  /\ VarAreaExperiment.masked b
     = negb (VarAreaExperiment.showTruth quiet_experiment)
  /\ VarAreaExperiment.probe_marker b = Some (Q2R 0.35 / 1 * 100).
Proof.
  apply (bar_profile_inside quiet_experiment 1 (Q2R 0.6) (Q2R 3.2) 100 40
           (Q2R 0.35) [1; 2; 1]).
  - exact demo_profile_real.
  - cbn. lia.
  - reflexivity.
  - reflexivity.
  - rewrite Q2R_min_area, Q2R_max_area. lra.
  - rewrite Q2R_min_area, Q2R_max_area. repeat constructor; lra.
  - reflexivity.
  - lra.
  - reflexivity.
  - lra.
  - lra.
Defined.

End BarDrawing.

(** ** The range of the graph of the Johnson-noise sketch *)

Section TaperRange.
Import Exact JsArray RealProfile TaperReals.
Local Open Scope R_scope.

Lemma Q2R_taper_length : len = 1 / 100.
Proof. unfold len. apply Q2R_reduced. vm_compute. reflexivity. Qed.

Lemma Q2R_taper_ell : ell = 1 / 125.
Proof. unfold ell. apply Q2R_reduced. vm_compute. reflexivity. Qed.

Lemma Q2R_taper_r0 : r0 = 1 / 2500.
Proof. unfold r0. apply Q2R_reduced. vm_compute. reflexivity. Qed.

Lemma Q2R_taper_rho : rho = 1 / 10000.
Proof. unfold rho. apply Q2R_reduced. vm_compute. reflexivity. Qed.

Lemma exp_sixteenth : Rtrigo_def.exp (1 / 16) <= 16 / 15.
Proof.
  pose proof (exp_ineq1_le (- (1 / 16))) as H. rewrite exp_Ropp in H.
  pose proof (exp_pos (1 / 16)) as Hp.
  set (u := Rtrigo_def.exp (1 / 16)) in *.
  apply Rmult_le_reg_r with (/ u); [apply Rinv_0_lt_compat, Hp|].
  rewrite Rinv_r by lra. nra.
Qed.

Lemma exp_five_halves : Rtrigo_def.exp (5 / 2) < 133 / 10.
Proof.
  replace (5 / 2) with (INR 40 * (1 / 16)).
  2:{ rewrite INR_IZR_INZ. cbn [Z.of_nat Pos.of_succ_nat Pos.succ]. lra. }
  rewrite <- exp_pow.
  apply Rle_lt_trans with ((16 / 15) ^ 40).
  - apply pow_incr. split; [apply Rlt_le, exp_pos | apply exp_sixteenth].
  - lra.
Qed.

(** The last entry of the table, the resistance of the whole bar. *)
Lemma taper_total_below : nth 511 taper_table 0 < 32 / 3.
Proof.
  rewrite (taper_table_closed 511) by lia. cbv zeta.
  pose proof taper_ratio_gt_1 as Hq.
  pose proof (exp_ineq1_le (2 * dx / ell)) as Hq1.
  assert (HE : Rtrigo_def.exp (2 * dx / ell) ^ 511 = Rtrigo_def.exp (5 / 2)).
  { rewrite exp_pow. f_equal. rewrite INR_IZR_INZ.
    change (IZR (Z.of_nat 511)) with 511.
    unfold dx. rewrite Q2R_taper_length, Q2R_taper_ell. field. }
  rewrite HE. pose proof exp_five_halves as HE1.
  assert (HE0 : 1 < Rtrigo_def.exp (5 / 2)).
  { rewrite <- exp_0. apply exp_increasing. lra. }
  pose proof PI2_3_2 as Hpi.
  assert (Hdx : dx = 1 / 51100).
  { unfold dx. rewrite Q2R_taper_length. field. }
  rewrite Q2R_taper_rho, Q2R_taper_r0, Hdx in *.
  rewrite Q2R_taper_ell in *.
  set (q := Rtrigo_def.exp (2 * (1 / 51100) / (1 / 125))) in *.
  set (E := Rtrigo_def.exp (5 / 2)) in *.
  assert (Hd : 250 / 51100 <= q - 1) by lra.
  assert (Hratio : q / (q - 1) <= 1 + 51100 / 250).
  { replace (q / (q - 1)) with (1 + 1 / (q - 1)) by (field; lra).
    apply Rplus_le_compat_l.
    replace (51100 / 250) with (1 / (250 / 51100)) by field.
    unfold Rdiv. rewrite !Rmult_1_l.
    apply Rinv_le_contravar; lra. }
  assert (Ha : 1 / 10000 * (1 / 51100)
               / (Rtrigo1.PI * (1 / 2500 * (1 / 2500)))
               <= 625 / 51100 / 3).
  { replace (1 / 10000 * (1 / 51100)
             / (Rtrigo1.PI * (1 / 2500 * (1 / 2500))))
      with (625 / 51100 * / Rtrigo1.PI) by (field; lra).
    unfold Rdiv at 3. apply Rmult_le_compat_l; [lra|].
    apply Rinv_le_contravar; lra. }
  assert (Ha0 : 0 < 1 / 10000 * (1 / 51100)
                    / (Rtrigo1.PI * (1 / 2500 * (1 / 2500)))).
  { apply Rdiv_lt_0_compat; [lra|]. apply Rmult_lt_0_compat; lra. }
  set (a := 1 / 10000 * (1 / 51100)
            / (Rtrigo1.PI * (1 / 2500 * (1 / 2500)))) in *.
  replace (a * q * (E - 1) / (q - 1)) with (a * (q / (q - 1)) * (E - 1))
    by (field; lra).
  assert (Hr0 : 0 < q / (q - 1)) by (apply Rdiv_lt_0_compat; lra).
  apply Rle_lt_trans
    with (625 / 51100 / 3 * (1 + 51100 / 250) * (133 / 10 - 1)); [|lra].
  apply Rmult_le_compat; [nra | lra | | lra].
  apply Rmult_le_compat; lra.
Qed.

(** X27: the fixed range of the graph fits the bar.  For every seed the whole
    bar has a resistance [cumulative[511]] below [32 / 3] ohm, so a reading
    without noise (a draw that is zero) taken anywhere along the bar with a
    current from 0 to 0.75 A is plotted inside the graph, whose voltage axis
    ends at [vmax = 8.0]: [0 <= gx <= w] and [0 <= gy <= h]. *)
Theorem taper_reading_inside_graph (seed : Z) :
  exists (e0 : TaperExperiment.t) (rmax : R),
    TaperExperiment.new seed = Ok e0
    /\ get (TaperExperiment.cumulative e0) 511 = Some rmax
    /\ rmax < 32 / 3
    /\ forall (x0 i0 w h : R) (g : @P5.Gaussian Exact.number),
         0 <= x0 <= len -> 0 <= i0 <= 3 / 4 -> 0 <= w -> 0 <= h ->
         P5.draws g (P5.taken g) = Some 0 ->
         let e :=
           TaperExperiment.with_currentA
             (TaperExperiment.with_probeX e0 (Some x0)) (Some i0) in
         exists gx gy : R,
           TaperExperiment.reading_points
             (fst (TaperExperiment.addReading e g)) (Some w) (Some h)
           = [(Some gx, Some gy)]
           /\ 0 <= gx <= w /\ 0 <= gy <= h.
Proof.
  destruct (taper_new_real seed)
    as (e0 & Hnew & Hcum & HL & Hn & Hdx & HI & Hk & HT & HBW & Hread).
  exists e0, (nth 511 taper_table 0).
  split; [exact Hnew|]. split.
  { rewrite Hcum, <- (app_nil_r (map Some taper_table)).
    apply (get_real taper_table [] 511). rewrite taper_table_length. lia. }
  split; [exact taper_total_below|].
  intros x0 i0 w h g Hx HI0 Hw Hh Hz e.
  destruct (res_curr_entry e x0 Hcum Hdx eq_refl) as (k & Hti & Hres).
  set (r := nth (Z.to_nat k) taper_table 0) in *.
  assert (Hr : 0 <= r) by (apply taper_table_nonneg; lia).
  assert (Hrmax : r <= nth 511 taper_table 0).
  { apply taper_table_nondecreasing. rewrite taper_table_length. lia. }
  pose proof taper_total_below as Hbelow.
  assert (Hm : TaperExperiment.measure e g
               = (Some (i0 * r + total_std r * 0),
                  P5.mkGaussian (P5.draws g) (S (P5.taken g)))).
  { unfold TaperExperiment.measure. rewrite Hres.
    cbn [P5.randomGaussian]. rewrite Hz.
    cbn [TaperExperiment.currentA TaperExperiment.k_b TaperExperiment.tempK
         TaperExperiment.noiseBW TaperExperiment.with_currentA
         TaperExperiment.with_probeX e].
    rewrite Hk, HT, HBW.
    rewrite (noisy_reading_real i0 r 0 Hr). reflexivity. }
  destruct taper_constants as (Hlen & _).
  unfold TaperExperiment.addReading. rewrite Hm.
  unfold TaperExperiment.reading_points.
  cbn [fst TaperExperiment.with_readings TaperExperiment.readings
       TaperExperiment.probeX TaperExperiment.with_currentA
       TaperExperiment.with_probeX e TaperExperiment.L].
  rewrite Hread. cbn [app List.map].
  unfold TaperExperiment.reading_point. cbv zeta.
  cbn [fst snd].
  change (TaperExperiment.L (TaperExperiment.with_readings e _))
    with (TaperExperiment.L e0).
  rewrite HL.
  unfold P5.map. cbn [of_Z num_sub number lift2].
  rewrite !div_real by lra.
  cbn [num_mul num_add number lift2].
  do 2 eexists. split; [reflexivity|].
  assert (Hv : 0 <= i0 * r + total_std r * 0 <= 8) by nra.
  set (v := i0 * r + total_std r * 0) in *.
  assert (Hq : 0 <= (x0 - 0) / (len - 0) <= 1).
  { assert (Hinv : 0 < / (len - 0)) by (apply Rinv_0_lt_compat; lra).
    split.
    - unfold Rdiv. apply Rmult_le_pos; lra.
    - apply Rmult_le_reg_r with (len - 0); [lra|].
      unfold Rdiv. rewrite Rmult_assoc, Rinv_l by lra. lra. }
  split; [split; nra | split; nra].
Qed.

End TaperRange.

(** ** The readings of the Johnson-noise sketch *)

Section TaperReadings.
Context {NUM : Number}.

(** What the handler measures does not depend on the readings taken
    before. *)
Lemma measure_frame (e : TaperExperiment.t) (rs : list (num * num))
    (g : P5.Gaussian) :
  TaperExperiment.measure (TaperExperiment.with_readings e rs) g
  = TaperExperiment.measure e g.
Proof. reflexivity. Qed.

Lemma measure_generator (e : TaperExperiment.t) (g : P5.Gaussian) :
  snd (TaperExperiment.measure e g)
  = P5.mkGaussian (P5.draws g) (S (P5.taken g)).
Proof. reflexivity. Qed.

(** X28: the readings of the Johnson-noise sketch accumulate until they are
    cleared.  [n] presses of [Add Reading] append [n] pairs
    [[probeX, vMeas]] behind the readings already taken, in the order of
    the presses, the press [j] measuring with the draw number [j] after
    those already taken and exactly as it would have on the experiment
    before the first press; nothing but [readings] changes, the table
    included; and [Clear Data] leaves no reading and changes nothing
    else. *)
Theorem taper_readings_accumulate (n : nat) :
  forall (e : TaperExperiment.t) (g : P5.Gaussian),
    let e' := fst (taper_addReadings n e g) in
    let g' := snd (taper_addReadings n e g) in
    TaperExperiment.readings e'
    = TaperExperiment.readings e
      ++ List.map
           (fun j =>
              (TaperExperiment.probeX e,
               fst (TaperExperiment.measure e
                      (P5.mkGaussian (P5.draws g) (P5.taken g + j)%nat))))
           (seq 0 n)
    /\ e' = TaperExperiment.with_readings e (TaperExperiment.readings e')
    /\ g' = P5.mkGaussian (P5.draws g) (P5.taken g + n)%nat
    /\ TaperExperiment.clearReadings e' = TaperExperiment.with_readings e [].
Proof.
  induction n as [|n IH]; intros e g e' g'.
  - subst e' g'. cbn [taper_addReadings fst snd seq List.map].
    rewrite app_nil_r, Nat.add_0_r.
    destruct e, g. repeat split.
  - subst e' g'. cbn [taper_addReadings].
    unfold TaperExperiment.addReading.
    rewrite (surjective_pairing (TaperExperiment.measure e g)).
    rewrite measure_generator.
    set (v0 := fst (TaperExperiment.measure e g)).
    set (e1 := TaperExperiment.with_readings e
                 (TaperExperiment.readings e
                  ++ [(TaperExperiment.probeX e, v0)])).
    set (g1 := P5.mkGaussian (P5.draws g) (S (P5.taken g))).
    specialize (IH e1 g1). cbv zeta in IH.
    destruct IH as (Hd & He & Hg & Hc).
    split; [|split; [|split]].
    + rewrite Hd. unfold e1 at 1.
      cbn [TaperExperiment.with_readings TaperExperiment.readings].
      rewrite <- app_assoc. f_equal.
      cbn [seq List.map app].
      assert (Hg0 : P5.mkGaussian (P5.draws g) (P5.taken g + 0) = g)
        by (rewrite Nat.add_0_r; destruct g; reflexivity).
      rewrite Hg0. fold v0. f_equal.
      rewrite <- seq_shift, map_map. apply map_ext. intros j.
      unfold e1. rewrite measure_frame.
      cbn [g1 P5.draws P5.taken TaperExperiment.with_readings
           TaperExperiment.probeX].
      rewrite Nat.add_succ_r. reflexivity.
    + rewrite He at 1. reflexivity.
    + rewrite Hg. cbn [g1 P5.draws P5.taken]. f_equal. lia.
    + rewrite Hc. reflexivity.
Qed.

End TaperReadings.

(** ** The outline of the tapered bar *)

Section TaperOutline.
Import Exact JsArray RealProfile TaperReals.
Local Open Scope R_scope.

Lemma Q2R_half : Q2R 0.5 = 1 / 2.
Proof. apply Q2R_reduced. vm_compute. reflexivity. Qed.

Lemma Q2R_outline_scale : Q2R 0.45 = 9 / 20.
Proof. apply Q2R_reduced. vm_compute. reflexivity. Qed.

Lemma nth_rev_range (k : nat) (d : Z) :
  (k < 100)%nat -> nth k (rev (range 0 100)) d = (99 - Z.of_nat k)%Z.
Proof.
  intros Hk. rewrite rev_nth by (rewrite range_length; lia).
  rewrite range_length, range_nth by lia.
  change (Z.to_nat (100 - 0)) with 100%nat. lia.
Qed.

(** X29: the outline [drawResistor()] draws is the taper, mirrored about the
    middle of the bar and inside it.  For every seed, width [w >= 0] and
    height [h >= 0] the outline of the constructed experiment has 200
    vertices; the vertex [k < 100] of the upper edge is
    [(k / 99 * w, h / 2 - 9 / 20 * h * exp(-(k / 99 * L) / ell))], the
    vertex [199 - k] is its mirror image [(ax, h - ay)], and
    [0 <= ax <= w], [h / 20 <= ay <= h / 2]. *)
Theorem taper_outline_inside (seed : Z) :
  exists e : TaperExperiment.t,
    TaperExperiment.new seed = Ok e
    /\ forall w h : R,
         0 <= w -> 0 <= h ->
         length (TaperExperiment.outline e (Some w) (Some h)) = 200%nat
         /\ forall k : nat,
              (k < 100)%nat ->
              let ax := IZR (Z.of_nat k) / 99 * w in
              let ay :=
                h / 2
                - 9 / 20 * h
                  * Rtrigo_def.exp (- (IZR (Z.of_nat k) / 99 * len) / ell) in
              nth k (TaperExperiment.outline e (Some w) (Some h)) (nan, nan)
              = (Some ax, Some ay)
              /\ nth (199 - k) (TaperExperiment.outline e (Some w) (Some h))
                   (nan, nan)
                 = (Some ax, Some (h - ay))
              /\ 0 <= ax <= w
              /\ h / 20 <= ay <= h / 2.
Proof.
  destruct taper_constants as (Hlen & _ & Hell & Hr0 & _).
  eexists. split; [apply taper_new|]. intros w h Hw Hh.
  set (e := TaperExperiment.with_cumulative (taper_blank seed) _).
  assert (Hvert : forall (upper : bool) (i : Z),
             TaperExperiment.outline_vertex e (Some w) (Some h) upper i
             = (Some (IZR i / 99 * w),
                Some (if upper
                      then h * (1 / 2)
                           - h * (9 / 20) / (r0 * Rtrigo_def.exp (- 0 / ell))
                             * (r0 * Rtrigo_def.exp
                                       (- (IZR i / 99 * len) / ell))
                      else h * (1 / 2)
                           + h * (9 / 20) / (r0 * Rtrigo_def.exp (- 0 / ell))
                             * (r0 * Rtrigo_def.exp
                                       (- (IZR i / 99 * len) / ell))))).
  { intros upper i. unfold TaperExperiment.outline_vertex. cbv zeta.
    unfold TaperExperiment.radiusAt.
    cbn [e taper_blank TaperExperiment.with_cumulative TaperExperiment.ell
         TaperExperiment.r0 TaperExperiment.L].
    change (100 - 1)%Z with 99%Z.
    cbn [lit of_Z num_neg number lift1]. fold ell r0 len.
    rewrite (div_real (IZR i) 99) by lra.
    cbn [num_mul num_neg number lift1 lift2].
    rewrite !div_real by lra.
    cbn [num_mul Math_exp number lift1 lift2].
    rewrite Q2R_half, Q2R_outline_scale.
    rewrite div_real.
    2:{ pose proof (exp_pos (- 0 / ell)). nra. }
    destruct upper; reflexivity. }
  assert (Hshow : TaperExperiment.showTruth e = true) by reflexivity.
  unfold TaperExperiment.outline. rewrite Hshow.
  split.
  { rewrite length_app, !length_map, length_rev, range_length. reflexivity. }
  intros k Hk. cbv zeta.
  assert (He0 : Rtrigo_def.exp (- 0 / ell) = 1).
  { replace (- 0 / ell) with 0 by (field; lra). apply exp_0. }
  assert (Hk0 : 0 <= IZR (Z.of_nat k)) by (apply IZR_le; lia).
  assert (Hk1 : IZR (Z.of_nat k) <= 99) by (apply IZR_le; lia).
  set (u := Rtrigo_def.exp (- (IZR (Z.of_nat k) / 99 * len) / ell)) in *.
  assert (Hu : 0 < u <= 1).
  { split; [apply exp_pos|].
    rewrite <- exp_0. unfold u.
    destruct (Req_dec (IZR (Z.of_nat k)) 0) as [Hz|Hnz].
    - rewrite Hz. right. f_equal. field. lra.
    - left. apply exp_increasing.
      assert (Hinv : 0 < / ell) by (apply Rinv_0_lt_compat, Hell).
      assert (Hpos : 0 < IZR (Z.of_nat k) / 99 * len)
        by (apply Rmult_lt_0_compat; lra).
      assert (Hprod : 0 < IZR (Z.of_nat k) / 99 * len * / ell)
        by (apply Rmult_lt_0_compat; assumption).
      unfold Rdiv in *. lra. }
  split; [|split; [|split]].
  - rewrite app_nth1 by (rewrite length_map, range_length; lia).
    rewrite (nth_indep _ (nan, nan)
               (TaperExperiment.outline_vertex e (Some w) (Some h) true 0%Z))
      by (rewrite length_map, range_length; lia).
    rewrite (map_nth (TaperExperiment.outline_vertex e (Some w) (Some h) true)).
    rewrite range_nth by lia. rewrite Hvert, He0.
    change (0 + Z.of_nat k)%Z with (Z.of_nat k). fold u.
    f_equal. f_equal. field. lra.
  - rewrite app_nth2 by (rewrite length_map, range_length; lia).
    rewrite length_map, range_length.
    change (Z.to_nat (100 - 0)) with 100%nat.
    rewrite (nth_indep _ (nan, nan)
               (TaperExperiment.outline_vertex e (Some w) (Some h) false 0%Z))
      by (rewrite length_map, length_rev, range_length; lia).
    rewrite (map_nth (TaperExperiment.outline_vertex e (Some w) (Some h) false)).
    rewrite nth_rev_range by lia.
    replace (99 - Z.of_nat (199 - k - 100))%Z with (Z.of_nat k) by lia.
    rewrite Hvert, He0. fold u.
    f_equal. f_equal. field. lra.
  - split; nra.
  - split; nra.
Qed.

End TaperOutline.

(** ** Points outside the graph *)

Section NoisyPoints.
Import Exact JsArray RealProfile.
Local Open Scope R_scope.

(** X30: the graph does not clip.  A reading taken at the left end of the
    bar, where the resistance is 0, is the noise alone; with a draw below
    zero and a noise level above zero it is a negative voltage, and
    [drawGraph()] plots its point at [gx = 0] and [gy > h], below the
    voltage axis and outside the graph's rectangle. *)
Theorem noisy_point_below_axis (e : VarAreaExperiment.t)
    (p : AreaProfile.t) (len rho i0 sigma z w h : R) (areas : list R)
    (g : P5.Gaussian) :
  VarAreaExperiment.areaProfile e = AreaProfile.precompute p (Some (Some rho)) ->
  real_profile p len areas ->
  (1 <= AreaProfile.samples p)%Z ->
  Forall (fun a => 0 < a) areas ->
  0 < rho -> 0 < len ->
  VarAreaExperiment.length e = Some len ->
  VarAreaExperiment.currentA e = Some i0 -> 0 <= i0 ->
  VarAreaExperiment.noiseStd e = Some sigma -> 0 < sigma ->
  VarAreaExperiment.probeX e = Some 0 ->
  P5.draws g (P5.taken g) = Some z -> z < 0 ->
  0 < h ->
  let e' := fst (VarAreaExperiment.addReading e g) in
  exists gy : R,
    MeasurementLog.data (VarAreaExperiment.log e')
    = MeasurementLog.data (VarAreaExperiment.log e)
      ++ [MeasurementLog.mkSample (Some 0) (Some (sigma * z))]
    /\ VarAreaExperiment.sample_point e' (Some w) (Some h)
         (MeasurementLog.mkSample (Some 0) (Some (sigma * z)))
       = (Some 0, Some gy)
    /\ h < gy.
Proof.
  intros Hprof Hp HN Hpos Hrho Hlen0 Hlen HI HI0 Hs Hsig Hx Hz Hzneg Hh e'.
  destruct (precompute_real _ _ rho _ Hp HN Hpos)
    as (Hplen & Hsam & Hcs & [rest Hcum] & Htot).
  cbv zeta in Hplen, Hsam, Hcs, Hcum, Htot.
  rewrite <- Hprof in Hplen, Hsam, Hcum, Htot.
  set (cs := real_table len rho areas (AreaProfile.samples p)) in *.
  set (n := AreaProfile.samples p) in *.
  set (tot := nth (Z.to_nat (n - 1)) cs 0) in *.
  assert (Hl : len <> 0) by lra.
  assert (Hnd : nondecreasing cs).
  { apply real_table_nondecreasing; try lra; auto. apply (rp_samples Hp). }
  assert (Htot0 : 0 <= tot).
  { change 0 with (nth 0 cs 0). apply Hnd. lia. }
  set (vm := Rmax (i0 * tot * (21 / 20)) (1 / 20)).
  assert (Hvm1 : 1 / 20 <= vm) by apply Rmax_r.
  assert (HR0 : AreaProfile.resistanceUpTo (VarAreaExperiment.areaProfile e)
                  (Some 0)
                = Some 0).
  { rewrite (resistanceUpTo_real _ len cs rest 0 Hplen Hl Hcum) by lia.
    f_equal. unfold Rdiv. rewrite Rmult_0_l, (clamp01_inside 0) by lra.
    rewrite Rmult_0_l. apply interpolate_at_zero. }
  assert (Hm : VarAreaExperiment.measureVoltage e (Some 0) g
               = (Some (sigma * z),
                  P5.mkGaussian (P5.draws g) (S (P5.taken g)))).
  { rewrite measureVoltage_unfold, HR0, HI, Hs, Hz.
    cbn [num_add num_mul number lift2]. do 2 f_equal. lra. }
  unfold e', VarAreaExperiment.addReading. rewrite Hx, Hm.
  cbn [fst VarAreaExperiment.with_log VarAreaExperiment.log
       MeasurementLog.add MeasurementLog.data].
  eexists. split; [reflexivity|].
  unfold VarAreaExperiment.sample_point, VarAreaExperiment.vmax.
  cbn [VarAreaExperiment.with_log VarAreaExperiment.length
       VarAreaExperiment.currentA VarAreaExperiment.areaProfile
       MeasurementLog.x MeasurementLog.v].
  rewrite Hlen, HI, Htot.
  cbn [lit num_mul Math_max number lift2].
  rewrite Q2R_margin, Q2R_floor_volts. fold vm.
  rewrite map_voltage_real by lra.
  unfold P5.map. cbn [of_Z num_sub number lift2].
  rewrite div_real by lra.
  cbn [num_mul num_add number lift2].
  split.
  - f_equal. f_equal. field. exact Hl.
  - assert (Hinv : 0 < / (vm - 0)) by (apply Rinv_0_lt_compat; lra).
    assert (Hv : sigma * z - 0 < 0) by nra.
    assert (Hq : (sigma * z - 0) / (vm - 0) < 0).
    { unfold Rdiv. nra. }
    nra.
Qed.

Lemma noisy_point_below_axis_witness :
  exists gy : R,
    MeasurementLog.data
      (VarAreaExperiment.log
         (fst (VarAreaExperiment.addReading noisy_experiment negative_draws)))
    = MeasurementLog.data (VarAreaExperiment.log noisy_experiment)
      ++ [MeasurementLog.mkSample (Some 0) (Some (1 * -1))]
    /\ VarAreaExperiment.sample_point
         (fst (VarAreaExperiment.addReading noisy_experiment negative_draws))
         (Some 100) (Some 50)
         (MeasurementLog.mkSample (Some 0) (Some (1 * -1)))
       = (Some 0, Some gy)
    /\ 50 < gy.
Proof.
  apply (noisy_point_below_axis noisy_experiment demo_profile 1 1
           (Q2R 0.25) 1 (-1) 100 50 [1; 2; 1] negative_draws).
  - reflexivity.
  - exact demo_profile_real.
  - cbn. lia.
  - repeat constructor; lra.
  - lra.
  - lra.
  - reflexivity.
  - reflexivity.
  - apply Rlt_le, Q2R_pos. vm_compute. reflexivity.
  - reflexivity.
  - lra.
  - reflexivity.
  - reflexivity.
  - lra.
  - lra.
Defined.

End NoisyPoints.
